(** * Chef Fest: the request / persistence layer

    A shallow embedding of [shared/schema.ts], [server/storage.ts],
    [server/services/openai.ts] and the route table ([registerRoutes]),
    followed by the properties of the specification that concern them.

    Conventions.
    - A table is the list of its rows, in insertion order; a nullable column
      is an [option].  Timestamps are integers.
    - A JavaScript [number] is a rational ([Q]): any rational when it
      reaches the server inside a JSON body, the value of a double when the
      server computes it ([Number]).  An [integer] column holds a [Z].
    - An [async] function is a state transformer over the database that
      either returns or throws ([Promise]); what a statement has written
      before a later statement throws stays written.  The database rejects
      a statement that violates a primary key, a foreign key or the type or
      range of an integer column; other infrastructure failures are left out, and so
      is logging.
    - [gen_random_uuid()], [now()] and the two OpenAI endpoints are oracles
      collected in [Env].
    - Requests are handled one at a time. *)

From Stdlib Require Import ZArith QArith Qabs List String Ascii Bool Lia.
From Stdlib Require Import Permutation Sorted.
From stdpp Require Import gmap strings list.
Import ListNotations.
Local Open Scope string_scope.

(** ** shared/schema.ts: the tables *)

Module User.
Record t : Type := mk {
  id : string;
  email : option string;
  firstName : option string;
  lastName : option string;
  profileImageUrl : option string;
  role : option string;
  createdAt : Z;
  updatedAt : Z }.
End User.

Module Recipe.
Record t : Type := mk {
  id : string;
  name : string;
  description : option string;
  ingredients : list string;
  instructions : list string;
  cookingTime : option Z;
  difficulty : option string;
  cuisine : option string;
  imageUrl : option string;
  userId : option string;
  isGenerated : option bool;
  isFeatured : option bool;
  isApproved : option bool;
  servings : option Z;
  createdAt : Z;
  updatedAt : Z }.
End Recipe.

Module Review.
Record t : Type := mk {
  id : string;
  recipeId : string;
  userId : string;
  rating : Z;
  comment : option string;
  isApproved : option bool;
  createdAt : Z;
  updatedAt : Z }.
End Review.

Module SavedRecipe.
Record t : Type := mk {
  id : string;
  userId : string;
  recipeId : string;
  createdAt : Z }.
End SavedRecipe.

(** The insert types inferred from the zod schemas.  A column with a default
    is [None] when the key is absent, [Some None] when it is [null]. *)
Module InsertRecipe.
Record t : Type := mk {
  name : string;
  description : option string;
  ingredients : list string;
  instructions : list string;
  cookingTime : option Z;
  difficulty : option string;
  cuisine : option string;
  imageUrl : option string;
  userId : option string;
  isGenerated : option (option bool);
  isFeatured : option (option bool);
  isApproved : option (option bool);
  servings : option Z }.
End InsertRecipe.

Module InsertReview.
Record t : Type := mk {
  recipeId : string;
  userId : string;
  rating : Q;
  comment : option string;
  isApproved : option (option bool) }.
End InsertReview.

Module InsertSavedRecipe.
Record t : Type := mk {
  userId : string;
  recipeId : string }.
End InsertSavedRecipe.

(** [Partial<InsertReview>]: every key may be absent. *)
Module PartialInsertReview.
Record t : Type := mk {
  recipeId : option string;
  userId : option string;
  rating : option Q;
  comment : option (option string);
  isApproved : option (option bool) }.
End PartialInsertReview.

Definition RecipeWithUser : Type := Recipe.t * option User.t.
Definition ReviewWithUser : Type := Review.t * option User.t.

Module RecipeWithReviews.
Record t : Type := mk {
  recipe : Recipe.t;
  reviews : list ReviewWithUser;
  averageRating : Q;
  reviewCount : nat }.
End RecipeWithReviews.

(** ** The database and the outside world *)

Record Db : Type := mkDb {
  users : list User.t;
  recipes : list Recipe.t;
  reviews : list Review.t;
  savedRecipes : list SavedRecipe.t;
  tick : nat }.

Record ImagesResponseItem : Type := { url : option string }.

Module GeneratedRecipe.
Record t : Type := mk {
  name : string;
  description : string;
  ingredients : list string;
  instructions : list string;
  cookingTime : Z;
  difficulty : string;
  cuisine : string;
  servings : Z }.
End GeneratedRecipe.

#[local] Unset Elimination Schemes.
(** A JSON value as a handler sees it after [express.json()]. *)
Inductive JsValue : Type :=
| JsUndefined
| JsNull
| JsBool (b : bool)
| JsNumber (q : Q)
| JsString (s : string)
| JsArray (items : list JsValue)
| JsObject (fields : list (string * JsValue)).
#[local] Set Elimination Schemes.

(** The options the route hands to [generateRecipesFromIngredients], as they
    come out of the request body. *)
Record GenerateOptions : Type := mkOptions {
  cuisineType : JsValue;
  difficulty : JsValue;
  cookingTime : JsValue;
  count : Z }.

(** A field-level violation reported by zod: what went wrong and where. *)
Record ZodIssue : Type := mkIssue {
  code : string;
  path : list string }.

Inductive Exn : Type :=
| ZodError (errors : list ZodIssue)
| DbError (detail : string)
| JsError (msg : string).

Inductive Outcome (A : Type) : Type :=
| Return (a : A)
| Throw (e : Exn).
Arguments Return {A} a.
Arguments Throw {A} e.

(** The oracles: [gen_random_uuid ()] and [now ()] are indexed by the number
    of statements already run.  [images_generate prompt] is the outcome of
    [openai.images.generate], its [data] array when it answers.
    [chat_completions_create] is the outcome of the chat request for the
    given ingredients and options, up to and including the parsing of its
    content into recipes. *)
Record Env : Type := mkEnv {
  gen_random_uuid : nat -> string;
  now : nat -> Z;
  images_generate : string -> Outcome (list ImagesResponseItem);
  chat_completions_create :
    list JsValue -> GenerateOptions -> Outcome (list GeneratedRecipe.t) }.

(** ** Promises: state and exceptions *)

Definition Promise (A : Type) : Type := Db -> Db * Outcome A.

Definition resolve {A} (a : A) : Promise A := fun db => (db, Return a).
Definition throw {A} (e : Exn) : Promise A := fun db => (db, Throw e).

Definition await {A B} (p : Promise A) (k : A -> Promise B) : Promise B :=
  fun db =>
    match p db with
    | (db', Return a) => k a db'
    | (db', Throw e) => (db', Throw e)
    end.

Definition try_catch {A} (body : Promise A) (handler : Exn -> Promise A)
  : Promise A :=
  fun db =>
    match body db with
    | (db', Return a) => (db', Return a)
    | (db', Throw e) => handler e db'
    end.

Definition query {A} (f : Db -> Outcome A) : Promise A :=
  fun db => (db, f db).

Notation "x <- p ;; k" := (await p (fun x => k))
  (at level 100, p at next level, right associativity, only parsing).

(** ** The fragment of drizzle-orm the storage layer uses *)

Module Drizzle.

(** [eq(column, value)] on a nullable text column: a NULL never compares
    equal, so the row is not selected. *)
Definition eq_text (column : option string) (value : string) : bool :=
  match column with
  | Some s => String.eqb s value
  | None => false
  end.

Definition eq_bool (column : option bool) (value : bool) : bool :=
  match column with
  | Some b => Bool.eqb b value
  | None => false
  end.

Definition lower_ascii (c : ascii) : ascii :=
  let n := nat_of_ascii c in
  if (65 <=? n)%nat && (n <=? 90)%nat then ascii_of_nat (n + 32) else c.

Definition lower (s : list ascii) : list ascii := List.map lower_ascii s.

(** SQL [LIKE]: [%] stands for any run of characters, [_] for exactly one,
    and a backslash takes the next pattern character literally. *)
Fixpoint like (pat s : list ascii) {struct pat} : bool :=
  match pat with
  | [] => match s with [] => true | _ :: _ => false end
  | c :: pat' =>
      if Ascii.eqb c "%" then
        (fix skip (s : list ascii) : bool :=
           like pat' s
           || match s with [] => false | _ :: s' => skip s' end) s
      else if Ascii.eqb c "_" then
        match s with [] => false | _ :: s' => like pat' s' end
      else if Ascii.eqb c "\" then
        match pat' with
        | [] => false
        | e :: pat'' =>
            match s with
            | [] => false
            | x :: s' => Ascii.eqb e x && like pat'' s'
            end
        end
      else
        match s with
        | [] => false
        | x :: s' => Ascii.eqb c x && like pat' s'
        end
  end.

(** [ilike(column, pattern)]: [LIKE] after folding the case of both sides;
    NULL columns do not match. *)
Definition ilike (column : option string) (pattern : string) : bool :=
  match column with
  | Some s =>
      like (lower (list_ascii_of_string pattern))
           (lower (list_ascii_of_string s))
  | None => false
  end.

(** [desc(key)]: insertion into a list kept in descending key order.
    ORDER BY leaves the order of rows with equal keys open, and it may
    differ from one statement to the next; the model returns them in
    insertion order, one of the orders it admits.  What is proved below
    about the order of a result either holds of every such order or
    assumes that the keys differ. *)
Fixpoint insert_desc {R} (key : R -> Z) (x : R) (l : list R) : list R :=
  match l with
  | [] => [x]
  | y :: l' =>
      if (key y <=? key x)%Z then x :: l else y :: insert_desc key x l'
  end.

Definition sort_desc {R} (key : R -> Z) (l : list R) : list R :=
  List.fold_right (insert_desc key) [] l.

(** The select builder.  It keeps one slot per clause in its [config], and
    every clause method assigns its slot and returns the builder
    ([this.config.where = where; return this]).  A second [where] on the
    same builder therefore replaces the condition of the first; conditions
    are conjoined by passing [and(c1, c2)] to a single [where]. *)
Record PgSelect (R : Type) : Type := mkSelect {
  config_rows : list R;
  config_where : option (R -> bool);
  config_orderBy : option (R -> Z);
  config_limit : option Z;
  config_offset : option Z }.
Arguments mkSelect {R}.
Arguments config_rows {R}.
Arguments config_where {R}.
Arguments config_orderBy {R}.
Arguments config_limit {R}.
Arguments config_offset {R}.

Definition select_from {R} (rows : list R) : PgSelect R :=
  mkSelect rows None None None None.

Definition where_ {R} (q : PgSelect R) (cond : R -> bool) : PgSelect R :=
  mkSelect (config_rows q) (Some cond) (config_orderBy q)
           (config_limit q) (config_offset q).

Definition orderBy_desc {R} (q : PgSelect R) (key : R -> Z) : PgSelect R :=
  mkSelect (config_rows q) (config_where q) (Some key)
           (config_limit q) (config_offset q).

Definition limit {R} (q : PgSelect R) (n : Z) : PgSelect R :=
  mkSelect (config_rows q) (config_where q) (config_orderBy q)
           (Some n) (config_offset q).

Definition offset {R} (q : PgSelect R) (n : Z) : PgSelect R :=
  mkSelect (config_rows q) (config_where q) (config_orderBy q)
           (config_limit q) (Some n).

(** [FROM a LEFT JOIN b ON on]: every row of [a], paired with each
    matching row of [b], or with NULL when there is none. *)
Definition leftJoin {A B} (a : list A) (b : list B) (on : A -> B -> bool)
  : list (A * option B) :=
  List.flat_map
    (fun x =>
       match List.filter (on x) b with
       | [] => [(x, None)]
       | ys => List.map (fun y => (x, Some y)) ys
       end) a.

Definition selected {R} (q : PgSelect R) : list R :=
  match config_where q with
  | Some cond => List.filter cond (config_rows q)
  | None => config_rows q
  end.

Definition ordered {R} (q : PgSelect R) : list R :=
  match config_orderBy q with
  | Some key => sort_desc key (selected q)
  | None => selected q
  end.

Definition negative (n : option Z) : bool :=
  match n with Some z => (z <? 0)%Z | None => false end.

(** The builder writes the LIMIT clause only for a limit that is not
    negative ([typeof limit === 'number' && limit >= 0]), and the OFFSET
    clause for every offset other than 0: with a negative limit the
    statement is unbounded. *)
Definition window {R} (q : PgSelect R) (l : list R) : list R :=
  let l := match config_offset q with
           | Some n => List.skipn (Z.to_nat n) l
           | None => l
           end in
  match config_limit q with
  | Some n => if (n <? 0)%Z then l else List.firstn (Z.to_nat n) l
  | None => l
  end.

(** Awaiting the builder runs the statement; PostgreSQL refuses a negative
    OFFSET. *)
Definition execute {R} (q : PgSelect R) : Outcome (list R) :=
  if negative (config_offset q)
  then Throw (DbError "OFFSET must not be negative")
  else Return (window q (ordered q)).

End Drizzle.

(** ** What PostgreSQL and JavaScript do to an average *)

(** [avg] over an [integer] column divides the sum by the count as
    [numeric] values ([numeric_div]); the driver hands the quotient over as
    decimal text.  The scale of a quotient is capped at 1000 digits, which
    the mean of 32-bit numbers over fewer than 10 ^ 900 rows does not
    reach; the cap is left out. *)
Module Pg.
Local Open Scope Z_scope.

(** The weight of a positive integer as a [numeric]: the position of its
    leading digit in base 10000. *)
Fixpoint weight_fuel (fuel : nat) (n : Z) : Z :=
  match fuel with
  | O => 0
  | S fuel => if n <? 10000 then 0 else 1 + weight_fuel fuel (n / 10000)
  end.

Definition weight (n : Z) : Z := weight_fuel (S (Z.to_nat (Z.log2 n))) n.

Definition first_digit (n : Z) : Z := n / 10000 ^ weight n.

(** [select_div_scale] for two integers: the number of decimals that
    leaves the quotient at least 16 significant digits, judged by the
    weights and leading digits; a zero has weight 0 and leading digit 0. *)
Definition select_div_scale (var1 var2 : Z) : Z :=
  let qweight := weight var1 - weight var2 in
  let qweight :=
    if first_digit var1 <=? first_digit var2 then qweight - 1 else qweight in
  Z.max (16 - qweight * 4) 0.

(** [numeric_div a b] for an integer [a] and a positive integer [b]: the
    quotient rounded at that many decimals, halves away from zero. *)
Definition numeric_div (a b : Z) : Q :=
  let rscale := select_div_scale (Z.abs a) b in
  Qmake (Z.sgn a * ((2 * (Z.abs a * 10 ^ rscale) + b) / (2 * b)))
        (Z.to_pos (10 ^ rscale)).

End Pg.

(** [Number(text)] of a decimal text is the double nearest to its value,
    ties going to the even significand.  The values met here are far from
    the largest and the smallest double; overflow and subnormal numbers
    are left out. *)
Module Js.
Local Open Scope Z_scope.

(** The integer nearest to [n / d], halves to the even one. *)
Definition round_half_even (n d : Z) : Z :=
  let f := n / d in
  let r := n mod d in
  if 2 * r <? d then f
  else if d <? 2 * r then f + 1
  else if Z.even f then f else f + 1.

(** The exponent of the double nearest to [n / d] (both positive): the
    [e] with [2 ^ 52 <= n / d / 2 ^ e < 2 ^ 53]. *)
Definition exponent (n d : Z) : Z :=
  let l := Z.log2 n - Z.log2 d in
  (if d * 2 ^ Z.max l 0 <=? n * 2 ^ Z.max (- l) 0 then l else l - 1) - 52.

(** Its 53-bit significand. *)
Definition significand (n d : Z) : Z :=
  let e := exponent n d in
  round_half_even (n * 2 ^ Z.max (- e) 0) (d * 2 ^ Z.max e 0).

Definition Number (q : Q) : Q :=
  let n := Z.abs (Qnum q) in
  let d := Zpos (Qden q) in
  if n =? 0 then 0%Q
  else
    let e := exponent n d in
    Qred (Qmake (Z.sgn (Qnum q) * (significand n d * 2 ^ Z.max e 0))
                (Z.to_pos (2 ^ Z.max (- e) 0))).

End Js.

(** ** server/storage.ts: [DatabaseStorage] *)

Module Storage.
Section WithEnv.

Variable env : Env.

Definition has_id {R} (id_of : R -> string) (id : string) (rows : list R)
  : bool :=
  List.existsb (fun r => String.eqb (id_of r) id) rows.

(** A foreign key: NULL references nothing; any other value must be the
    key of a row of the referenced table. *)
Definition references {R} (id_of : R -> string) (rows : list R)
    (fk : option string) : bool :=
  match fk with
  | Some id => has_id id_of id rows
  | None => true
  end.

(** The value stored in a column with a default. *)
Definition or_default {A} (d : A) (v : option (option A)) : option A :=
  match v with
  | None => Some d
  | Some x => x
  end.

(** A number bound to an [integer] column must denote an integer. *)
Definition as_integer (q : Q) : option Z :=
  let r := Qred q in
  if Pos.eqb (Qden r) 1 then Some (Qnum r) else None.

(** An [integer] column holds 32 bits: a value outside -2147483648 ..
    2147483647 is refused ("integer out of range"). *)
Definition int4 (v : option Z) : bool :=
  match v with
  | Some z => (-2147483648 <=? z)%Z && (z <=? 2147483647)%Z
  | None => true
  end.

Definition step (db : Db) : Db :=
  mkDb (users db) (recipes db) (reviews db) (savedRecipes db) (S (tick db)).

Definition with_recipes (db : Db) (rs : list Recipe.t) : Db :=
  mkDb (users db) rs (reviews db) (savedRecipes db) (tick db).

Definition with_reviews (db : Db) (rs : list Review.t) : Db :=
  mkDb (users db) (recipes db) rs (savedRecipes db) (tick db).

Definition with_savedRecipes (db : Db) (rs : list SavedRecipe.t) : Db :=
  mkDb (users db) (recipes db) (reviews db) rs (tick db).

(** *** Users *)

Definition getUser (id : string) : Promise (option User.t) :=
  query (fun db =>
    match Drizzle.execute
            (Drizzle.where_ (Drizzle.select_from (users db))
               (fun u => String.eqb (User.id u) id)) with
    | Return rows => Return (head rows)
    | Throw e => Throw e
    end).

(** *** Recipes *)

Definition new_recipe (id : string) (t : Z) (recipe : InsertRecipe.t)
  : Recipe.t :=
  Recipe.mk id
    (InsertRecipe.name recipe)
    (InsertRecipe.description recipe)
    (InsertRecipe.ingredients recipe)
    (InsertRecipe.instructions recipe)
    (InsertRecipe.cookingTime recipe)
    (InsertRecipe.difficulty recipe)
    (InsertRecipe.cuisine recipe)
    (InsertRecipe.imageUrl recipe)
    (InsertRecipe.userId recipe)
    (or_default true (InsertRecipe.isGenerated recipe))
    (or_default false (InsertRecipe.isFeatured recipe))
    (or_default true (InsertRecipe.isApproved recipe))
    (InsertRecipe.servings recipe)
    t t.

Definition createRecipe (recipe : InsertRecipe.t) : Promise Recipe.t :=
  fun db =>
    let id := gen_random_uuid env (tick db) in
    let row := new_recipe id (now env (tick db)) recipe in
    if negb (int4 (InsertRecipe.cookingTime recipe)
             && int4 (InsertRecipe.servings recipe)) then
      (step db, Throw (DbError "integer out of range"))
    else if has_id Recipe.id id (recipes db) then
      (step db, Throw (DbError "duplicate key value violates recipes_pkey"))
    else if negb (references User.id (users db) (InsertRecipe.userId recipe))
    then
      (step db, Throw (DbError "violates foreign key recipes.user_id"))
    else
      (step (with_recipes db (recipes db ++ [row])), Return row).

Definition sum_ratings (l : list Review.t) : Z :=
  List.fold_right (fun r acc => (Review.rating r + acc)%Z) 0%Z l.

(** [avg(reviews.rating)]: NULL over no rows, otherwise the sum divided by
    the count.  The driver hands a non-NULL aggregate over as a non-empty
    decimal string, which is truthy whatever its value. *)
Definition avg (l : list Review.t) : option Q :=
  match l with
  | [] => None
  | _ :: _ =>
      Some (Pg.numeric_div (sum_ratings l) (Z.of_nat (length l)))
  end.

Definition approved_review_of (id : string) (r : Review.t) : bool :=
  String.eqb (Review.recipeId r) id
  && Drizzle.eq_bool (Review.isApproved r) true.

Definition review_user (r : Review.t) (u : User.t) : bool :=
  String.eqb (Review.userId r) (User.id u).

Definition recipe_user (r : Recipe.t) (u : User.t) : bool :=
  Drizzle.eq_text (Recipe.userId r) (User.id u).

Definition getRecipe (id : string) : Promise (option RecipeWithReviews.t) :=
  rows <- query (fun db =>
    Drizzle.execute
      (Drizzle.where_ (Drizzle.select_from (recipes db))
         (fun r => String.eqb (Recipe.id r) id))) ;;
  match rows with
  | [] => resolve None
  | recipe :: _ =>
      recipeReviews <- query (fun db =>
        Drizzle.execute
          (Drizzle.orderBy_desc
             (Drizzle.where_
                (Drizzle.select_from
                   (Drizzle.leftJoin (reviews db) (users db) review_user))
                (fun row => approved_review_of id (fst row)))
             (fun row => Review.createdAt (fst row)))) ;;
      avgRating <- query (fun db =>
        Return (avg (List.filter (approved_review_of id) (reviews db)))) ;;
      reviewCount <- query (fun db =>
        Return (length (List.filter (approved_review_of id) (reviews db)))) ;;
      resolve (Some (RecipeWithReviews.mk recipe recipeReviews
                       (match avgRating with
                        | Some text => Js.Number text
                        | None => 0%Q
                        end)
                       reviewCount))
  end.

Record Filters : Type := mkFilters {
  f_userId : option string;
  f_cuisine : option string;
  f_difficulty : option string;
  f_search : option string }.

(** [if (filters.x)]: an absent key and the empty string are both falsy. *)
Definition truthy (v : option string) : option string :=
  match v with
  | Some s => if String.eqb s "" then None else Some s
  | None => None
  end.

Definition search_matches (search : string) (r : Recipe.t) : bool :=
  Drizzle.ilike (Some (Recipe.name r)) ("%" ++ search ++ "%")
  || Drizzle.ilike (Recipe.description r) ("%" ++ search ++ "%").

Definition getRecipes (limit offset : Z) (filters : Filters)
  : Promise (list RecipeWithUser) :=
  query (fun db =>
    let query :=
      Drizzle.where_
        (Drizzle.select_from
           (Drizzle.leftJoin (recipes db) (users db) recipe_user))
        (fun row => Drizzle.eq_bool (Recipe.isApproved (fst row)) true) in
    let query :=
      match truthy (f_userId filters) with
      | Some userId =>
          Drizzle.where_ query
            (fun row => Drizzle.eq_text (Recipe.userId (fst row)) userId)
      | None => query
      end in
    let query :=
      match truthy (f_cuisine filters) with
      | Some cuisine =>
          Drizzle.where_ query
            (fun row => Drizzle.eq_text (Recipe.cuisine (fst row)) cuisine)
      | None => query
      end in
    let query :=
      match truthy (f_difficulty filters) with
      | Some difficulty =>
          Drizzle.where_ query
            (fun row =>
               Drizzle.eq_text (Recipe.difficulty (fst row)) difficulty)
      | None => query
      end in
    let query :=
      match truthy (f_search filters) with
      | Some search =>
          Drizzle.where_ query (fun row => search_matches search (fst row))
      | None => query
      end in
    Drizzle.execute
      (Drizzle.offset
         (Drizzle.limit
            (Drizzle.orderBy_desc query
               (fun row => Recipe.createdAt (fst row)))
            limit)
         offset)).

Definition getFeaturedRecipes : Promise (list RecipeWithUser) :=
  query (fun db =>
    Drizzle.execute
      (Drizzle.limit
         (Drizzle.orderBy_desc
            (Drizzle.where_
               (Drizzle.select_from
                  (Drizzle.leftJoin (recipes db) (users db) recipe_user))
               (fun row =>
                  Drizzle.eq_bool (Recipe.isFeatured (fst row)) true
                  && Drizzle.eq_bool (Recipe.isApproved (fst row)) true))
            (fun row => Recipe.createdAt (fst row)))
         10)).

(** [DELETE FROM recipes WHERE id = $1]; the reviews and saved-recipe rows
    that reference a deleted recipe go with it (ON DELETE CASCADE). *)
Definition deleteRecipe (id : string) : Promise bool :=
  fun db =>
    let hit := fun r => String.eqb (Recipe.id r) id in
    let rowCount := length (List.filter hit (recipes db)) in
    let db' :=
      if (0 <? rowCount)%nat then
        mkDb (users db)
             (List.filter (fun r => negb (hit r)) (recipes db))
             (List.filter
                (fun r => negb (String.eqb (Review.recipeId r) id))
                (reviews db))
             (List.filter
                (fun s => negb (String.eqb (SavedRecipe.recipeId s) id))
                (savedRecipes db))
             (tick db)
      else db in
    (db', Return (0 <? rowCount)%nat).

(** *** Reviews *)

Definition createReview (review : InsertReview.t) : Promise Review.t :=
  fun db =>
    let id := gen_random_uuid env (tick db) in
    let t := now env (tick db) in
    match as_integer (InsertReview.rating review) with
    | None =>
        (step db, Throw (DbError "invalid input syntax for type integer"))
    | Some rating =>
        let row :=
          Review.mk id
            (InsertReview.recipeId review)
            (InsertReview.userId review)
            rating
            (InsertReview.comment review)
            (or_default true (InsertReview.isApproved review))
            t t in
        if has_id Review.id id (reviews db) then
          (step db,
           Throw (DbError "duplicate key value violates reviews_pkey"))
        else if negb (has_id Recipe.id (InsertReview.recipeId review)
                        (recipes db)) then
          (step db,
           Throw (DbError "violates foreign key reviews.recipe_id"))
        else if negb (has_id User.id (InsertReview.userId review)
                        (users db)) then
          (step db, Throw (DbError "violates foreign key reviews.user_id"))
        else
          (step (with_reviews db (reviews db ++ [row])), Return row)
    end.

Definition getReviewsForRecipe (recipeId : string)
  : Promise (list ReviewWithUser) :=
  query (fun db =>
    Drizzle.execute
      (Drizzle.orderBy_desc
         (Drizzle.where_
            (Drizzle.select_from
               (Drizzle.leftJoin (reviews db) (users db) review_user))
            (fun row => approved_review_of recipeId (fst row)))
         (fun row => Review.createdAt (fst row)))).

Definition or_keep {A} (old : A) (v : option A) : A :=
  match v with
  | Some x => x
  | None => old
  end.

(** [SET {...updates, updatedAt}] applied to one row. *)
Definition set_review (updates : PartialInsertReview.t) (rating : option Z)
    (t : Z) (r : Review.t) : Review.t :=
  Review.mk (Review.id r)
    (or_keep (Review.recipeId r) (PartialInsertReview.recipeId updates))
    (or_keep (Review.userId r) (PartialInsertReview.userId updates))
    (or_keep (Review.rating r) rating)
    (or_keep (Review.comment r) (PartialInsertReview.comment updates))
    (or_keep (Review.isApproved r) (PartialInsertReview.isApproved updates))
    (Review.createdAt r)
    t.

Definition owned_review (id userId : string) (r : Review.t) : bool :=
  String.eqb (Review.id r) id && String.eqb (Review.userId r) userId.

(** [UPDATE reviews SET ... WHERE id = $ AND user_id = $ RETURNING *].
    The parameters are converted when they are bound, before any row is
    looked at; the foreign keys are checked on the rows that change. *)
Definition updateReview (id userId : string)
    (updates : PartialInsertReview.t) : Promise (option Review.t) :=
  fun db =>
    let t := now env (tick db) in
    let bound :=
      match PartialInsertReview.rating updates with
      | None => Some None
      | Some q =>
          match as_integer q with
          | Some z => Some (Some z)
          | None => None
          end
      end in
    match bound with
    | None =>
        (step db, Throw (DbError "invalid input syntax for type integer"))
    | Some rating =>
        let hit := owned_review id userId in
        let changed :=
          List.map (set_review updates rating t)
                   (List.filter hit (reviews db)) in
        if List.forallb
             (fun r => has_id Recipe.id (Review.recipeId r) (recipes db)
                       && has_id User.id (Review.userId r) (users db))
             changed
        then
          (step (with_reviews db
                   (List.map
                      (fun r =>
                         if hit r then set_review updates rating t r else r)
                      (reviews db))),
           Return (head changed))
        else
          (step db, Throw (DbError "violates foreign key on reviews"))
    end.

Definition deleteReview (id userId : string) : Promise bool :=
  fun db =>
    let hit := owned_review id userId in
    let rowCount := length (List.filter hit (reviews db)) in
    (with_reviews db (List.filter (fun r => negb (hit r)) (reviews db)),
     Return (0 <? rowCount)%nat).

(** *** Saved recipes *)

(** [INSERT ... ON CONFLICT DO NOTHING RETURNING *].  A conflict is a
    violation of a unique constraint of the target table; [saved_recipes]
    declares one, its primary key [id], which the insert never supplies. *)
Definition saveRecipe (data : InsertSavedRecipe.t)
  : Promise (option SavedRecipe.t) :=
  fun db =>
    let id := gen_random_uuid env (tick db) in
    let row :=
      SavedRecipe.mk id
        (InsertSavedRecipe.userId data)
        (InsertSavedRecipe.recipeId data)
        (now env (tick db)) in
    if has_id SavedRecipe.id id (savedRecipes db) then
      (step db, Return None)
    else if negb (has_id User.id (InsertSavedRecipe.userId data) (users db))
    then
      (step db,
       Throw (DbError "violates foreign key saved_recipes.user_id"))
    else if negb (has_id Recipe.id (InsertSavedRecipe.recipeId data)
                    (recipes db)) then
      (step db,
       Throw (DbError "violates foreign key saved_recipes.recipe_id"))
    else
      (step (with_savedRecipes db (savedRecipes db ++ [row])),
       Return (Some row)).

Definition saved_pair (userId recipeId : string) (s : SavedRecipe.t)
  : bool :=
  String.eqb (SavedRecipe.userId s) userId
  && String.eqb (SavedRecipe.recipeId s) recipeId.

Definition unsaveRecipe (userId recipeId : string) : Promise bool :=
  fun db =>
    let hit := saved_pair userId recipeId in
    let rowCount := length (List.filter hit (savedRecipes db)) in
    (with_savedRecipes db
       (List.filter (fun s => negb (hit s)) (savedRecipes db)),
     Return (0 <? rowCount)%nat).

Definition isRecipeSaved (userId recipeId : string) : Promise bool :=
  query (fun db =>
    match Drizzle.execute
            (Drizzle.limit
               (Drizzle.where_ (Drizzle.select_from (savedRecipes db))
                  (saved_pair userId recipeId))
               1) with
    | Return rows =>
        Return (match rows with [] => false | _ :: _ => true end)
    | Throw e => Throw e
    end).

End WithEnv.
End Storage.

(** ** Request bodies and the zod schemas *)

Abbreviation JsObj := (gmap string JsValue).

Module Zod.

Definition invalid_type (key : string) : ZodIssue :=
  mkIssue "invalid_type" [key].
Definition too_small (key : string) : ZodIssue := mkIssue "too_small" [key].
Definition too_big (key : string) : ZodIssue := mkIssue "too_big" [key].

(** The value under a key: a missing key reads as [undefined]. *)
Definition get (o : JsObj) (key : string) : JsValue :=
  match o !! key with
  | Some v => v
  | None => JsUndefined
  end.

(** A field parser yields the parsed value or the issues it raises. *)
Definition Parsed (A : Type) : Type := (A + list ZodIssue)%type.

(** [z.string()] *)
Definition string_ (key : string) (v : JsValue) : Parsed string :=
  match v with
  | JsString s => inl s
  | _ => inr [invalid_type key]
  end.

(** [z.number().min(1).max(5)] *)
Definition rating_ (key : string) (v : JsValue) : Parsed Q :=
  match v with
  | JsNumber q =>
      if negb (Qle_bool 1 q) then inr [too_small key]
      else if negb (Qle_bool q 5) then inr [too_big key]
      else inl q
  | _ => inr [invalid_type key]
  end.

(** [inner.nullable()]: [null] passes as it is. *)
Definition nullable {A} (inner : string -> JsValue -> Parsed A)
    (key : string) (v : JsValue) : Parsed (option A) :=
  match v with
  | JsNull => inl None
  | _ => match inner key v with
         | inl a => inl (Some a)
         | inr issues => inr issues
         end
  end.

(** [inner.optional()]: [undefined] (an absent key) passes as it is. *)
Definition optional {A} (inner : string -> JsValue -> Parsed A)
    (key : string) (v : JsValue) : Parsed (option A) :=
  match v with
  | JsUndefined => inl None
  | _ => match inner key v with
         | inl a => inl (Some a)
         | inr issues => inr issues
         end
  end.

Definition boolean_ (key : string) (v : JsValue) : Parsed bool :=
  match v with
  | JsBool b => inl b
  | _ => inr [invalid_type key]
  end.

Definition issues_of {A} (p : Parsed A) : list ZodIssue :=
  match p with
  | inl _ => []
  | inr issues => issues
  end.

(** [insertReviewSchema.parse]: every key of the shape is checked and all
    issues are reported together; keys outside the shape are dropped. *)
Definition insertReviewSchema_parse (o : JsObj) : Outcome InsertReview.t :=
  let recipeId := string_ "recipeId" (get o "recipeId") in
  let userId := string_ "userId" (get o "userId") in
  let rating := rating_ "rating" (get o "rating") in
  let comment := optional (nullable string_) "comment" (get o "comment") in
  let isApproved :=
    optional (nullable boolean_) "isApproved" (get o "isApproved") in
  match recipeId, userId, rating, comment, isApproved with
  | inl recipeId, inl userId, inl rating, inl comment, inl isApproved =>
      Return (InsertReview.mk recipeId userId rating
                (match comment with Some c => c | None => None end)
                isApproved)
  | _, _, _, _, _ =>
      Throw (ZodError (issues_of recipeId ++ issues_of userId
                       ++ issues_of rating ++ issues_of comment
                       ++ issues_of isApproved))
  end.

(** [insertReviewSchema.partial().parse]: the same field checks, each
    behind [optional]. *)
Definition insertReviewSchema_partial_parse (o : JsObj)
  : Outcome PartialInsertReview.t :=
  let recipeId := optional string_ "recipeId" (get o "recipeId") in
  let userId := optional string_ "userId" (get o "userId") in
  let rating := optional rating_ "rating" (get o "rating") in
  let comment := optional (nullable string_) "comment" (get o "comment") in
  let isApproved :=
    optional (nullable boolean_) "isApproved" (get o "isApproved") in
  match recipeId, userId, rating, comment, isApproved with
  | inl recipeId, inl userId, inl rating, inl comment, inl isApproved =>
      Return (PartialInsertReview.mk recipeId userId rating comment
                isApproved)
  | _, _, _, _, _ =>
      Throw (ZodError (issues_of recipeId ++ issues_of userId
                       ++ issues_of rating ++ issues_of comment
                       ++ issues_of isApproved))
  end.

End Zod.

(** ** server/services/openai.ts: [OpenAIService] *)

Module OpenAIService.
Section WithEnv.

Variable env : Env.

Definition generateRecipesFromIngredients (ingredients : list JsValue)
    (options : GenerateOptions) : Promise (list GeneratedRecipe.t) :=
  try_catch
    (query (fun _ => chat_completions_create env ingredients options))
    (fun _ =>
       throw (JsError "Failed to generate recipes. Please try again.")).

Definition image_prompt (recipeName description : string) : string :=
  "A professional, appetizing photo of " ++ recipeName ++ ". "
  ++ description
  ++ ". Shot in natural lighting with beautiful presentation, high quality food photography style.".

(** [response.data[0].url || ""]: reading [url] off a missing first item
    throws; an absent or empty [url] gives the empty string. *)
Definition first_url (data : list ImagesResponseItem) : Promise string :=
  match data with
  | [] => throw (JsError "TypeError: Cannot read properties of undefined")
  | item :: _ =>
      resolve (match url item with
               | Some u => if String.eqb u "" then "" else u
               | None => ""
               end)
  end.

Definition generateRecipeImage (recipeName description : string)
  : Promise string :=
  try_catch
    (response <- query (fun _ =>
       images_generate env (image_prompt recipeName description)) ;;
     first_url response)
    (fun _ => resolve "").

End WithEnv.
End OpenAIService.

(** ** The route table ([registerRoutes]) *)

Inductive Json : Type :=
| JMessage (message : string)
| JInvalid (message : string) (errors : list ZodIssue)
| JRecipes (saved : list Recipe.t)
| JRecipeWithReviews (found : RecipeWithReviews.t)
| JReview (review : Review.t).

Record Response : Type := mkResponse {
  status : Z;
  json : Json }.

(** What the handlers below read off the request: [req.user.claims.sub]
    when the session resolved a caller, [req.params.id] and [req.body]. *)
Record Request : Type := mkRequest {
  user : option string;
  params_id : string;
  body : JsObj }.

Definition Handler : Type := Request -> Promise Response.

(** A middleware answers the request itself or calls [next ()]. *)
Definition Middleware : Type := Request -> Promise (option Response).

Definition next : Promise (option Response) := resolve None.
Definition respond (status : Z) (json : Json) : Promise Response :=
  resolve (mkResponse status json).
Definition reject (status : Z) (json : Json) : Promise (option Response) :=
  resolve (Some (mkResponse status json)).

(** [app.verb(path, m1, ..., mn, handler)] *)
Fixpoint route (guards : list Middleware) (handler : Handler) : Handler :=
  fun req =>
    match guards with
    | [] => handler req
    | guard :: guards' =>
        answer <- guard req ;;
        match answer with
        | Some res => resolve res
        | None => route guards' handler req
        end
    end.

Module Routes.
Section WithEnv.

Variable env : Env.

(** [req.user.claims.sub]; reading it off an absent [user] throws. *)
Definition claims_sub (req : Request) : Promise string :=
  match user req with
  | Some sub => resolve sub
  | None => throw (JsError "TypeError: Cannot read properties of undefined")
  end.

(** Modelled from the spec: [isAuthenticated] of [./replitAuth], which is
    not among the sources.  "Authentication guard: requires a resolved
    caller identity; absence -> reject with an unauthorized signal." *)
Definition isAuthenticated : Middleware :=
  fun req =>
    match user req with
    | Some _ => next
    | None => reject 401 (JMessage "Unauthorized")
    end.

Definition is_admin (u : option User.t) : bool :=
  match u with
  | Some u => Drizzle.eq_text (User.role u) "admin"
  | None => false
  end.

Definition isAdmin : Middleware :=
  fun req =>
    match Storage.truthy (user req) with
    | None => reject 401 (JMessage "Unauthorized")
    | Some sub =>
        user <- Storage.getUser sub ;;
        if negb (is_admin user)
        then reject 403 (JMessage "Admin access required")
        else next
    end.

(** An [/api/admin/...] route: [isAuthenticated, isAdmin, handler]. *)
Definition admin_route (handler : Handler) : Handler :=
  route [isAuthenticated; isAdmin] handler.

(** *** POST /api/recipes/generate-from-ingredients *)

Definition with_image (recipe : GeneratedRecipe.t) (imageUrl : option string)
    (userId : string) : InsertRecipe.t :=
  InsertRecipe.mk
    (GeneratedRecipe.name recipe)
    (Some (GeneratedRecipe.description recipe))
    (GeneratedRecipe.ingredients recipe)
    (GeneratedRecipe.instructions recipe)
    (Some (GeneratedRecipe.cookingTime recipe))
    (Some (GeneratedRecipe.difficulty recipe))
    (Some (GeneratedRecipe.cuisine recipe))
    imageUrl
    (Some userId)
    None None None
    (Some (GeneratedRecipe.servings recipe)).

(** The body of the [for ... of] loop: one candidate. *)
Definition save_generated (req : Request) (recipe : GeneratedRecipe.t)
  : Promise Recipe.t :=
  try_catch
    (imageUrl <- OpenAIService.generateRecipeImage env
                   (GeneratedRecipe.name recipe)
                   (GeneratedRecipe.description recipe) ;;
     sub <- claims_sub req ;;
     Storage.createRecipe env (with_image recipe (Some imageUrl) sub))
    (fun _ =>
       sub <- claims_sub req ;;
       Storage.createRecipe env (with_image recipe None sub)).

Fixpoint save_all (req : Request) (recipes : list GeneratedRecipe.t)
    (savedRecipes : list Recipe.t) : Promise (list Recipe.t) :=
  match recipes with
  | [] => resolve savedRecipes
  | recipe :: rest =>
      savedRecipe <- save_generated req recipe ;;
      save_all req rest (savedRecipes ++ [savedRecipe])
  end.

(** [!ingredients || !Array.isArray(ingredients) || ingredients.length === 0] *)
Definition ingredients_of (v : JsValue) : option (list JsValue) :=
  match v with
  | JsArray (i :: items) => Some (i :: items)
  | _ => None
  end.

Definition generate_from_ingredients : Handler :=
  route [isAuthenticated] (fun req =>
    try_catch
      (match ingredients_of (Zod.get (body req) "ingredients") with
       | None => respond 400 (JMessage "Ingredients are required")
       | Some ingredients =>
           recipes <- OpenAIService.generateRecipesFromIngredients env
                        ingredients
                        (mkOptions (Zod.get (body req) "cuisineType")
                                   (Zod.get (body req) "difficulty")
                                   (Zod.get (body req) "cookingTime")
                                   3) ;;
           savedRecipes <- save_all req recipes [] ;;
           respond 200 (JRecipes savedRecipes)
       end)
      (fun _ => respond 500 (JMessage "Failed to generate recipes"))).

(** *** GET /api/recipes/:id *)

Definition get_recipe : Handler :=
  fun req =>
    try_catch
      (recipe <- Storage.getRecipe (params_id req) ;;
       match recipe with
       | None => respond 404 (JMessage "Recipe not found")
       | Some recipe => respond 200 (JRecipeWithReviews recipe)
       end)
      (fun _ => respond 500 (JMessage "Failed to fetch recipe")).

(** *** DELETE /api/recipes/:id *)

(** [recipe.userId !== sub]: a recipe without owner differs from anyone. *)
Definition differs (a : option string) (b : string) : bool :=
  match a with
  | Some a => negb (String.eqb a b)
  | None => true
  end.

Definition delete_recipe : Handler :=
  route [isAuthenticated] (fun req =>
    try_catch
      (recipe <- Storage.getRecipe (params_id req) ;;
       match recipe with
       | None => respond 404 (JMessage "Recipe not found")
       | Some recipe =>
           sub <- claims_sub req ;;
           user <- Storage.getUser sub ;;
           if differs (Recipe.userId (RecipeWithReviews.recipe recipe))
                          sub
              && negb (is_admin user)
           then respond 403 (JMessage "Not authorized to delete this recipe")
           else
             deleted <- Storage.deleteRecipe (params_id req) ;;
             if negb deleted
             then respond 404 (JMessage "Recipe not found")
             else respond 200 (JMessage "Recipe deleted successfully")
       end)
      (fun _ => respond 500 (JMessage "Failed to delete recipe"))).

(** *** The review routes *)

Definition zod_or (message : string) (e : Exn) : Promise Response :=
  match e with
  | ZodError errors => respond 400 (JInvalid "Invalid review data" errors)
  | _ => respond 500 (JMessage message)
  end.

Definition create_review : Handler :=
  route [isAuthenticated] (fun req =>
    try_catch
      (sub <- claims_sub req ;;
       reviewData <- query (fun _ =>
         Zod.insertReviewSchema_parse
           (<["userId" := JsString sub]>
              (<["recipeId" := JsString (params_id req)]> (body req)))) ;;
       review <- Storage.createReview env reviewData ;;
       respond 200 (JReview review))
      (zod_or "Failed to create review")).

Definition update_review : Handler :=
  route [isAuthenticated] (fun req =>
    try_catch
      (updates <- query (fun _ =>
         Zod.insertReviewSchema_partial_parse (body req)) ;;
       sub <- claims_sub req ;;
       review <- Storage.updateReview env (params_id req) sub updates ;;
       match review with
       | None =>
           respond 404 (JMessage "Review not found or not authorized")
       | Some review => respond 200 (JReview review)
       end)
      (zod_or "Failed to update review")).

Definition delete_review : Handler :=
  route [isAuthenticated] (fun req =>
    try_catch
      (sub <- claims_sub req ;;
       user <- Storage.getUser sub ;;
       deleted <- Storage.deleteReview (params_id req) sub ;;
       if negb deleted
       then respond 404 (JMessage "Review not found or not authorized")
       else respond 200 (JMessage "Review deleted successfully"))
      (fun _ => respond 500 (JMessage "Failed to delete review"))).

End WithEnv.
End Routes.

(** ** Vocabulary of the properties *)

(** The condition a list query ends up with: the last [where] it called. *)
Definition last_condition (filters : Storage.Filters) (r : Recipe.t) : bool :=
  match Storage.truthy (Storage.f_search filters) with
  | Some search => Storage.search_matches search r
  | None =>
      match Storage.truthy (Storage.f_difficulty filters) with
      | Some difficulty => Drizzle.eq_text (Recipe.difficulty r) difficulty
      | None =>
          match Storage.truthy (Storage.f_cuisine filters) with
          | Some cuisine => Drizzle.eq_text (Recipe.cuisine r) cuisine
          | None =>
              match Storage.truthy (Storage.f_userId filters) with
              | Some userId => Drizzle.eq_text (Recipe.userId r) userId
              | None => Drizzle.eq_bool (Recipe.isApproved r) true
              end
          end
      end
  end.

Definition no_filters : Storage.Filters :=
  Storage.mkFilters None None None None.

Definition approved (r : Recipe.t) : Prop := Recipe.isApproved r = Some true.

(** The approved reviews of the recipe [id], in table order. *)
Definition approved_reviews (id : string) (db : Db) : list Review.t :=
  List.filter
    (fun v => bool_decide (Review.recipeId v = id
                           /\ Review.isApproved v = Some true))
    (reviews db).

(** The arithmetic mean of a list of integers. *)
Definition mean (l : list Z) : Q :=
  inject_Z (List.fold_right Z.add 0%Z l) / inject_Z (Z.of_nat (length l)).

(** [d] is [x] up to rounding: they differ by at most one part in
    10 ^ 15. *)
Definition rounds (d x : Q) : Prop :=
  (Qabs (d - x) <= Qabs x * (1 # 1000000000000000))%Q.


(** The characters [LIKE] does not take literally. *)
Definition wildcard (c : ascii) : bool :=
  Ascii.eqb c "%" || Ascii.eqb c "_" || Ascii.eqb c "\".

Definition plain (s : string) : Prop :=
  Forall (fun c => wildcard c = false) (list_ascii_of_string s).

(** [needle] occurs in [hay] when the case of both is folded. *)
Definition occurs_in (needle hay : string) : Prop :=
  exists before after,
    Drizzle.lower (list_ascii_of_string hay)
    = (before ++ Drizzle.lower (list_ascii_of_string needle) ++ after)%list.

(** The stored rows of two database states are the same. *)
Definition same_rows (db db' : Db) : Prop :=
  users db' = users db /\ recipes db' = recipes db
  /\ reviews db' = reviews db /\ savedRecipes db' = savedRecipes db.

(** Primary keys: no two rows of [rows] share an id. *)
Definition unique_ids {R} (id_of : R -> string) (rows : list R) : Prop :=
  NoDup (List.map id_of rows).


(** A number that fits an [integer] column. *)
Definition fits_int4 (z : Z) : Prop := (-2147483648 <= z <= 2147483647)%Z.

(** A candidate whose numbers the recipes table can hold. *)
Definition storable (candidate : GeneratedRecipe.t) : Prop :=
  fits_int4 (GeneratedRecipe.cookingTime candidate)
  /\ fits_int4 (GeneratedRecipe.servings candidate).


(** The image request for a candidate fails. *)
Definition image_fails (env : Env) (candidate : GeneratedRecipe.t) : Prop :=
  exists e,
    images_generate env
      (OpenAIService.image_prompt (GeneratedRecipe.name candidate)
         (GeneratedRecipe.description candidate))
    = Throw e.


(** Two bodies agree on every key but [userId] and [recipeId]. *)
Definition same_but_ids (b1 b2 : JsObj) : Prop :=
  forall key : string,
    key <> "userId" -> key <> "recipeId" -> b1 !! key = b2 !! key.

(** ** A small kitchen to run the code on *)

Module Sample.

Fixpoint tally (n : nat) : string :=
  match n with
  | O => ""
  | S n => String "i" (tally n)
  end.

Definition uuid (n : nat) : string := String "#" (tally n).

Definition omelette : GeneratedRecipe.t :=
  GeneratedRecipe.mk "Omelette" "Folded eggs" ["2 eggs"] ["Whisk"; "Fry"]
    10 "easy" "french" 1.
Definition pancakes : GeneratedRecipe.t :=
  GeneratedRecipe.mk "Pancakes" "Fluffy stack" ["1 egg"; "flour"] ["Mix"]
    20 "easy" "american" 2.
Definition noodles : GeneratedRecipe.t :=
  GeneratedRecipe.mk "Egg noodles" "Fresh pasta" ["3 eggs"; "flour"]
    ["Knead"; "Cut"] 45 "medium" "italian" 4.

(** Image generation fails for the second candidate only. *)
Definition env : Env :=
  mkEnv uuid (fun n => Z.of_nat n)
    (fun prompt =>
       if String.eqb prompt
            (OpenAIService.image_prompt "Pancakes" "Fluffy stack")
       then Throw (JsError "429 rate limit")
       else Return [{| url := Some "https://img.example/1.png" |}])
    (fun _ _ => Return [omelette; pancakes; noodles]).

Definition member (id role : string) : User.t :=
  User.mk id None None None None (Some role) 0 0.

Definition alice : User.t := member "alice" "user".
Definition bob : User.t := member "bob" "user".
Definition root : User.t := member "root" "admin".

Definition dish (id name cuisine owner : string) (isApproved : bool)
    (t : Z) : Recipe.t :=
  Recipe.mk id name None [] [] None None (Some cuisine) None (Some owner)
    (Some true) (Some false) (Some isApproved) None t t.

Definition pasta_salad : Recipe.t :=
  dish "r1" "Pasta salad" "mexican" "alice" true 5.
Definition risotto : Recipe.t :=
  dish "r2" "Risotto" "italian" "alice" true 6.
Definition draft : Recipe.t :=
  dish "r3" "Secret stew" "mexican" "alice" false 7.

Definition opinion (id recipeId userId : string) (rating : Z)
    (isApproved : bool) (t : Z) : Review.t :=
  Review.mk id recipeId userId rating None (Some isApproved) t t.

Definition v1 : Review.t := opinion "v1" "r1" "alice" 3 true 1.
Definition v2 : Review.t := opinion "v2" "r1" "bob" 5 true 2.
Definition v3 : Review.t := opinion "v3" "r1" "bob" 1 false 3.

Definition db : Db :=
  mkDb [alice; bob; root] [pasta_salad; risotto; draft] [v1; v2; v3] [] 0.

Definition only (cuisine : string) : Storage.Filters :=
  Storage.mkFilters None (Some cuisine) None None.

Definition cuisine_and_search (cuisine search : string) : Storage.Filters :=
  Storage.mkFilters None (Some cuisine) None (Some search).

Definition egg_and_flour : JsObj :=
  {["ingredients" := JsArray [JsString "egg"; JsString "flour"]]}.

Definition alice_saves_r1 : InsertSavedRecipe.t :=
  InsertSavedRecipe.mk "alice" "r1".

Definition as_ (sub id : string) (body : JsObj) : Request :=
  mkRequest (Some sub) id body.

Definition ok (_ : Request) : Promise Response :=
  respond 200 (JMessage "ok").

End Sample.

(** * The rest of the server *)

(** ** shared/schema.ts: the remaining insert types *)

(** [UpsertUser]: the id, and the optional nullable columns a login may
    carry ([None]: key absent, [Some None]: [null]). *)
Module UpsertUser.
Record t : Type := mk {
  id : string;
  email : option (option string);
  firstName : option (option string);
  lastName : option (option string);
  profileImageUrl : option (option string);
  role : option (option string) }.
End UpsertUser.

(** [Partial<InsertRecipe>] *)
Module PartialInsertRecipe.
Record t : Type := mk {
  name : option string;
  description : option (option string);
  ingredients : option (list string);
  instructions : option (list string);
  cookingTime : option (option Z);
  difficulty : option (option string);
  cuisine : option (option string);
  imageUrl : option (option string);
  userId : option (option string);
  isGenerated : option (option bool);
  isFeatured : option (option bool);
  isApproved : option (option bool);
  servings : option (option Z) }.
End PartialInsertRecipe.

(** ** server/storage.ts: the remaining operations on users, recipes and
    saved recipes *)

Module DatabaseStorage.
Section WithEnv.

Variable env : Env.

Definition with_users (db : Db) (us : list User.t) : Db :=
  mkDb us (recipes db) (reviews db) (savedRecipes db) (tick db).

(** A value for a nullable column without default: an absent key and
    [null] both store NULL. *)
Definition or_null {A} (v : option (option A)) : option A :=
  match v with
  | Some x => x
  | None => None
  end.

(** The unique index on [users.email]: NULLs never collide. *)
Definition email_taken (email : option string) (others : list User.t)
  : bool :=
  match email with
  | Some e => List.existsb (fun u => Drizzle.eq_text (User.email u) e) others
  | None => false
  end.

Definition new_user (t : Z) (userData : UpsertUser.t) : User.t :=
  User.mk (UpsertUser.id userData)
    (or_null (UpsertUser.email userData))
    (or_null (UpsertUser.firstName userData))
    (or_null (UpsertUser.lastName userData))
    (or_null (UpsertUser.profileImageUrl userData))
    (Storage.or_default "user" (UpsertUser.role userData))
    t t.

(** [SET {...userData, updatedAt}] applied to the conflicting row. *)
Definition set_user (userData : UpsertUser.t) (t : Z) (u : User.t) : User.t :=
  User.mk (UpsertUser.id userData)
    (Storage.or_keep (User.email u) (UpsertUser.email userData))
    (Storage.or_keep (User.firstName u) (UpsertUser.firstName userData))
    (Storage.or_keep (User.lastName u) (UpsertUser.lastName userData))
    (Storage.or_keep (User.profileImageUrl u)
       (UpsertUser.profileImageUrl userData))
    (Storage.or_keep (User.role u) (UpsertUser.role userData))
    (User.createdAt u)
    t.

(** [INSERT ... ON CONFLICT (id) DO UPDATE SET ... RETURNING *].  Only a
    collision on [id] turns the insert into an update; a collision on the
    unique [email] is an error either way. *)
Definition upsertUser (userData : UpsertUser.t) : Promise User.t :=
  fun db =>
    let t := now env (tick db) in
    let hit := fun u => String.eqb (User.id u) (UpsertUser.id userData) in
    match List.filter hit (users db) with
    | [] =>
        let row := new_user t userData in
        if email_taken (User.email row) (users db) then
          (Storage.step db,
           Throw (DbError "duplicate key value violates users_email_unique"))
        else
          (Storage.step (with_users db (users db ++ [row])), Return row)
    | u :: _ =>
        let row := set_user userData t u in
        if email_taken (User.email row)
             (List.filter (fun u => negb (hit u)) (users db)) then
          (Storage.step db,
           Throw (DbError "duplicate key value violates users_email_unique"))
        else
          (Storage.step
             (with_users db
                (List.map (fun u => if hit u then set_user userData t u else u)
                   (users db))),
           Return row)
    end.

Definition set_role (role : string) (t : Z) (u : User.t) : User.t :=
  User.mk (User.id u) (User.email u) (User.firstName u) (User.lastName u)
    (User.profileImageUrl u) (Some role) (User.createdAt u) t.

Definition updateUserRole (userId role : string) : Promise (option User.t) :=
  fun db =>
    let t := now env (tick db) in
    let hit := fun u => String.eqb (User.id u) userId in
    (Storage.step
       (with_users db
          (List.map (fun u => if hit u then set_role role t u else u)
             (users db))),
     Return (head (List.map (set_role role t) (List.filter hit (users db))))).

Definition banUser (userId : string) : Promise bool :=
  fun db =>
    let t := now env (tick db) in
    let hit := fun u => String.eqb (User.id u) userId in
    let rowCount := length (List.filter hit (users db)) in
    (Storage.step
       (with_users db
          (List.map (fun u => if hit u then set_role "banned" t u else u)
             (users db))),
     Return (0 <? rowCount)%nat).

(** [SET {...updates, updatedAt}] applied to one recipe. *)
Definition set_recipe (updates : PartialInsertRecipe.t) (t : Z) (r : Recipe.t)
  : Recipe.t :=
  Recipe.mk (Recipe.id r)
    (Storage.or_keep (Recipe.name r) (PartialInsertRecipe.name updates))
    (Storage.or_keep (Recipe.description r)
       (PartialInsertRecipe.description updates))
    (Storage.or_keep (Recipe.ingredients r)
       (PartialInsertRecipe.ingredients updates))
    (Storage.or_keep (Recipe.instructions r)
       (PartialInsertRecipe.instructions updates))
    (Storage.or_keep (Recipe.cookingTime r)
       (PartialInsertRecipe.cookingTime updates))
    (Storage.or_keep (Recipe.difficulty r)
       (PartialInsertRecipe.difficulty updates))
    (Storage.or_keep (Recipe.cuisine r) (PartialInsertRecipe.cuisine updates))
    (Storage.or_keep (Recipe.imageUrl r)
       (PartialInsertRecipe.imageUrl updates))
    (Storage.or_keep (Recipe.userId r) (PartialInsertRecipe.userId updates))
    (Storage.or_keep (Recipe.isGenerated r)
       (PartialInsertRecipe.isGenerated updates))
    (Storage.or_keep (Recipe.isFeatured r)
       (PartialInsertRecipe.isFeatured updates))
    (Storage.or_keep (Recipe.isApproved r)
       (PartialInsertRecipe.isApproved updates))
    (Storage.or_keep (Recipe.servings r)
       (PartialInsertRecipe.servings updates))
    (Recipe.createdAt r)
    t.

(** [UPDATE recipes SET ... WHERE id = $ RETURNING *]; the new values must
    fit their columns, and the owner of a changed row must exist. *)
Definition updateRecipe (id : string) (updates : PartialInsertRecipe.t)
  : Promise (option Recipe.t) :=
  fun db =>
    let t := now env (tick db) in
    let hit := fun r => String.eqb (Recipe.id r) id in
    let changed :=
      List.map (set_recipe updates t) (List.filter hit (recipes db)) in
    if negb (Storage.int4 (or_null (PartialInsertRecipe.cookingTime updates))
             && Storage.int4 (or_null (PartialInsertRecipe.servings updates)))
    then
      (Storage.step db, Throw (DbError "integer out of range"))
    else if List.forallb
         (fun r => Storage.references User.id (users db) (Recipe.userId r))
         changed
    then
      (Storage.step
         (Storage.with_recipes db
            (List.map (fun r => if hit r then set_recipe updates t r else r)
               (recipes db))),
       Return (head changed))
    else
      (Storage.step db,
       Throw (DbError "violates foreign key recipes.user_id")).

(** [FROM a INNER JOIN b ON on]: the matching pairs. *)
Definition innerJoin {A B} (a : list A) (b : list B) (on : A -> B -> bool)
  : list (A * B) :=
  List.flat_map (fun x => List.map (fun y => (x, y)) (List.filter (on x) b)) a.

Definition saved_recipe (s : SavedRecipe.t) (r : Recipe.t) : bool :=
  String.eqb (SavedRecipe.recipeId s) (Recipe.id r).

Definition getSavedRecipes (userId : string) : Promise (list RecipeWithUser) :=
  query (fun db =>
    match Drizzle.execute
            (Drizzle.orderBy_desc
               (Drizzle.where_
                  (Drizzle.select_from
                     (Drizzle.leftJoin
                        (innerJoin (savedRecipes db) (recipes db) saved_recipe)
                        (users db)
                        (fun row u => Storage.recipe_user (snd row) u)))
                  (fun row =>
                     String.eqb (SavedRecipe.userId (fst (fst row))) userId))
               (fun row => SavedRecipe.createdAt (fst (fst row)))) with
    | Return results =>
        Return (List.map (fun row => (snd (fst row), snd row)) results)
    | Throw e => Throw e
    end).

End WithEnv.
End DatabaseStorage.

(** ** Routes over saved recipes and roles *)

(** What these routes send: a body the routes above send as well, the
    updated user, or the saved flag. *)
Inductive Sent : Type :=
| SentJson (json : Json)
| SentUser (user : User.t)
| SentIsSaved (isSaved : bool)
| SentRecipes (rows : list RecipeWithUser).

Record Reply : Type := mkReply {
  reply_status : Z;
  reply_body : Sent }.

Module MoreRoutes.
Section WithEnv.

Variable env : Env.

Definition send (status : Z) (body : Sent) : Promise Reply :=
  resolve (mkReply status body).

(** [app.verb(path, m1, ..., mn, handler)], the answer of a middleware
    passed on as it is. *)
Fixpoint route (guards : list Middleware) (handler : Request -> Promise Reply)
  : Request -> Promise Reply :=
  fun req =>
    match guards with
    | [] => handler req
    | guard :: guards' =>
        answer <- guard req ;;
        match answer with
        | Some res => send (status res) (SentJson (json res))
        | None => route guards' handler req
        end
    end.

(** *** DELETE /api/saved-recipes/:recipeId ([params_id] is
    [req.params.recipeId]) *)
Definition unsave_recipe : Request -> Promise Reply :=
  route [Routes.isAuthenticated] (fun req =>
    try_catch
      (sub <- Routes.claims_sub req ;;
       deleted <- Storage.unsaveRecipe sub (params_id req) ;;
       if negb deleted
       then send 404 (SentJson (JMessage "Saved recipe not found"))
       else send 200 (SentJson (JMessage "Recipe unsaved successfully")))
      (fun _ => send 500 (SentJson (JMessage "Failed to unsave recipe")))).

(** *** GET /api/saved-recipes *)
Definition saved_recipes : Request -> Promise Reply :=
  route [Routes.isAuthenticated] (fun req =>
    try_catch
      (sub <- Routes.claims_sub req ;;
       recipes <- DatabaseStorage.getSavedRecipes sub ;;
       send 200 (SentRecipes recipes))
      (fun _ =>
         send 500 (SentJson (JMessage "Failed to fetch saved recipes")))).

(** *** GET /api/saved-recipes/:recipeId/status *)
Definition saved_status : Request -> Promise Reply :=
  route [Routes.isAuthenticated] (fun req =>
    try_catch
      (sub <- Routes.claims_sub req ;;
       isSaved <- Storage.isRecipeSaved sub (params_id req) ;;
       send 200 (SentIsSaved isSaved))
      (fun _ =>
         send 500 (SentJson (JMessage "Failed to check saved status")))).

(** *** PUT /api/admin/users/:id/role *)

(** [role && ["user", "admin", "banned"].includes(role)]: [includes]
    compares with strict equality, so only a string passes. *)
Definition valid_role (role : JsValue) : option string :=
  match role with
  | JsString role =>
      if List.existsb (String.eqb role) ["user"; "admin"; "banned"]
      then Some role
      else None
  | _ => None
  end.

Definition put_user_role : Request -> Promise Reply :=
  route [Routes.isAuthenticated; Routes.isAdmin] (fun req =>
    try_catch
      (match valid_role (Zod.get (body req) "role") with
       | None => send 400 (SentJson (JMessage "Invalid role"))
       | Some role =>
           user <- DatabaseStorage.updateUserRole env (params_id req) role ;;
           match user with
           | None => send 404 (SentJson (JMessage "User not found"))
           | Some user => send 200 (SentUser user)
           end
       end)
      (fun _ =>
         send 500 (SentJson (JMessage "Failed to update user role")))).

End WithEnv.
End MoreRoutes.

(** ** Contact messages and site settings *)

Module ContactMessage.
Record t : Type := mk {
  id : string;
  name : string;
  email : string;
  message : string;
  isRead : option bool;
  createdAt : Z }.
End ContactMessage.

(** [InsertContactMessage]: the insert schema without [id], [createdAt]
    and [isRead]. *)
Module InsertContactMessage.
Record t : Type := mk {
  name : string;
  email : string;
  message : string }.
End InsertContactMessage.

(** A [decimal] column is read back as text. *)
Module SiteSettings.
Record t : Type := mk {
  id : string;
  heroText : option string;
  featuredRecipeId : option string;
  aiTemperature : option string;
  maxRecipeResults : option Z;
  updatedAt : Z }.
End SiteSettings.

(** The database with the two tables no route above reads or writes. *)
Record Database : Type := mkDatabase {
  base : Db;
  contactMessages : list ContactMessage.t;
  siteSettings : list SiteSettings.t }.

Module SiteStorage.
Section WithEnv.

Variable env : Env.

(** The state after a writing statement. *)
Definition stepped (d : Database) (messages : list ContactMessage.t)
    (settings : list SiteSettings.t) : Database :=
  mkDatabase (Storage.step (base d)) messages settings.

Definition createContactMessage (message : InsertContactMessage.t)
  : Database -> Database * Outcome ContactMessage.t :=
  fun d =>
    let id := gen_random_uuid env (tick (base d)) in
    let row :=
      ContactMessage.mk id
        (InsertContactMessage.name message)
        (InsertContactMessage.email message)
        (InsertContactMessage.message message)
        (Some false)
        (now env (tick (base d))) in
    if Storage.has_id ContactMessage.id id (contactMessages d) then
      (stepped d (contactMessages d) (siteSettings d),
       Throw (DbError "duplicate key value violates contact_messages_pkey"))
    else
      (stepped d (contactMessages d ++ [row]) (siteSettings d), Return row).

Definition getContactMessages (isRead : option bool)
  : Database -> Database * Outcome (list ContactMessage.t) :=
  fun d =>
    let query := Drizzle.select_from (contactMessages d) in
    let query :=
      match isRead with
      | Some isRead =>
          Drizzle.where_ query
            (fun m => Drizzle.eq_bool (ContactMessage.isRead m) isRead)
      | None => query
      end in
    (d, Drizzle.execute (Drizzle.orderBy_desc query ContactMessage.createdAt)).

Definition set_read (m : ContactMessage.t) : ContactMessage.t :=
  ContactMessage.mk (ContactMessage.id m) (ContactMessage.name m)
    (ContactMessage.email m) (ContactMessage.message m) (Some true)
    (ContactMessage.createdAt m).

Definition markMessageAsRead (id : string)
  : Database -> Database * Outcome bool :=
  fun d =>
    let hit := fun m => String.eqb (ContactMessage.id m) id in
    let rowCount := length (List.filter hit (contactMessages d)) in
    (stepped d
       (List.map (fun m => if hit m then set_read m else m)
          (contactMessages d))
       (siteSettings d),
     Return (0 <? rowCount)%nat).

(** The row [INSERT INTO site_settings (id) VALUES ('settings')] stores:
    every other column takes its default. *)
Definition default_settings (t : Z) : SiteSettings.t :=
  SiteSettings.mk "settings"
    (Some "Transform Ingredients Into Culinary Magic") None (Some "0.7")
    (Some 3%Z) t.

(** The insert runs only when no row has the key, so it cannot collide. *)
Definition getSiteSettings : Database -> Database * Outcome SiteSettings.t :=
  fun d =>
    match Drizzle.execute
            (Drizzle.where_ (Drizzle.select_from (siteSettings d))
               (fun s => String.eqb (SiteSettings.id s) "settings")) with
    | Throw e => (d, Throw e)
    | Return (settings :: _) => (d, Return settings)
    | Return [] =>
        let newSettings := default_settings (now env (tick (base d))) in
        (stepped d (contactMessages d) (siteSettings d ++ [newSettings]),
         Return newSettings)
    end.

(** [insertContactMessageSchema.parse]: three required strings. *)
Definition insertContactMessageSchema_parse (o : JsObj)
  : Outcome InsertContactMessage.t :=
  let name := Zod.string_ "name" (Zod.get o "name") in
  let email := Zod.string_ "email" (Zod.get o "email") in
  let message := Zod.string_ "message" (Zod.get o "message") in
  match name, email, message with
  | inl name, inl email, inl message =>
      Return (InsertContactMessage.mk name email message)
  | _, _, _ =>
      Throw (ZodError (Zod.issues_of name ++ Zod.issues_of email
                       ++ Zod.issues_of message))
  end.

(** *** POST /api/contact *)

(** The [catch] block of the route. *)
Definition contact_failure (e : Exn) : Response :=
  match e with
  | ZodError errors => mkResponse 400 (JInvalid "Invalid message data" errors)
  | _ => mkResponse 500 (JMessage "Failed to send message")
  end.

Definition post_contact (req : Request) : Database -> Database * Response :=
  fun d =>
    match insertContactMessageSchema_parse (body req) with
    | Throw e => (d, contact_failure e)
    | Return messageData =>
        match createContactMessage messageData d with
        | (d', Throw e) => (d', contact_failure e)
        | (d', Return _) =>
            (d', mkResponse 200 (JMessage "Message sent successfully"))
        end
    end.

End WithEnv.
End SiteStorage.

(** ** Vocabulary of the further properties *)

(** A capital letter A..Z and its small form. *)
Definition small_of (C c : ascii) : Prop :=
  (65 <= nat_of_ascii C <= 90)%nat
  /\ nat_of_ascii c = (nat_of_ascii C + 32)%nat.

(** The same letter, whatever the case. *)
Definition same_letter (a b : ascii) : Prop :=
  a = b \/ small_of a b \/ small_of b a.

(** [needle] occurs in [hay] when letter case is ignored: a stretch of
    [hay] spells it, letter by letter. *)
Definition contains_ignoring_case (needle hay : string) : Prop :=
  exists before middle after,
    list_ascii_of_string hay = (before ++ middle ++ after)%list
    /\ Forall2 same_letter middle (list_ascii_of_string needle).

(** A text in ASCII, where folding the case means the same in every
    locale. *)
Definition ascii_text (s : string) : Prop :=
  Forall (fun c => (nat_of_ascii c < 128)%nat) (list_ascii_of_string s).

(** No two stored recipes were created at the same instant. *)
Definition distinct_times (rs : list Recipe.t) : Prop :=
  NoDup (List.map Recipe.createdAt rs).

(** Newest first, for the rows of a recipe list. *)
Definition newest_recipes_first (rows : list RecipeWithUser) : Prop :=
  StronglySorted
    (fun a b => (Recipe.createdAt (fst b) <= Recipe.createdAt (fst a))%Z)
    rows.

(** Primary keys: within each table no two rows share an id. *)
Definition keys_ok (db : Db) : Prop :=
  unique_ids User.id (users db)
  /\ unique_ids Recipe.id (recipes db)
  /\ unique_ids Review.id (reviews db)
  /\ unique_ids SavedRecipe.id (savedRecipes db).

(** Foreign keys: every reference of a row resolves. *)
Definition refs_ok (db : Db) : Prop :=
  (forall r, In r (recipes db) ->
             Storage.references User.id (users db) (Recipe.userId r) = true)
  /\ (forall v, In v (reviews db) ->
                Storage.has_id Recipe.id (Review.recipeId v) (recipes db)
                = true
                /\ Storage.has_id User.id (Review.userId v) (users db) = true)
  /\ (forall s, In s (savedRecipes db) ->
                Storage.has_id User.id (SavedRecipe.userId s) (users db)
                = true
                /\ Storage.has_id Recipe.id (SavedRecipe.recipeId s)
                     (recipes db) = true).

(** The writes of the storage layer on these four tables, as data. *)
Inductive Write : Type :=
| UpsertUser (userData : UpsertUser.t)
| UpdateUserRole (userId role : string)
| BanUser (userId : string)
| CreateRecipe (recipe : InsertRecipe.t)
| UpdateRecipe (id : string) (updates : PartialInsertRecipe.t)
| DeleteRecipe (id : string)
| CreateReview (review : InsertReview.t)
| UpdateReview (id userId : string) (updates : PartialInsertReview.t)
| DeleteReview (id userId : string)
| SaveRecipe (data : InsertSavedRecipe.t)
| UnsaveRecipe (userId recipeId : string).

(** The database after a write, whether it returned or threw. *)
Definition after (env : Env) (w : Write) (db : Db) : Db :=
  match w with
  | UpsertUser userData => fst (DatabaseStorage.upsertUser env userData db)
  | UpdateUserRole userId role =>
      fst (DatabaseStorage.updateUserRole env userId role db)
  | BanUser userId => fst (DatabaseStorage.banUser env userId db)
  | CreateRecipe recipe => fst (Storage.createRecipe env recipe db)
  | UpdateRecipe id updates =>
      fst (DatabaseStorage.updateRecipe env id updates db)
  | DeleteRecipe id => fst (Storage.deleteRecipe id db)
  | CreateReview review => fst (Storage.createReview env review db)
  | UpdateReview id userId updates =>
      fst (Storage.updateReview env id userId updates db)
  | DeleteReview id userId => fst (Storage.deleteReview id userId db)
  | SaveRecipe data => fst (Storage.saveRecipe env data db)
  | UnsaveRecipe userId recipeId =>
      fst (Storage.unsaveRecipe userId recipeId db)
  end.

Definition after_all (env : Env) (ws : list Write) (db : Db) : Db :=
  List.fold_left (fun db w => after env w db) ws db.

(** Every stored rating is a number of stars from 1 to 5. *)
Definition ratings_in_range (db : Db) : Prop :=
  forall v, In v (reviews db) -> (1 <= Review.rating v <= 5)%Z.

(** * Properties *)

(** ** Lists, sorting and the select builder *)

Section DrizzleFacts.

Context {R : Type}.
Implicit Types (q : Drizzle.PgSelect R) (key : R -> Z) (l rows : list R).

Lemma In_firstn n l x : In x (List.firstn n l) -> In x l.
Proof.
  intros H. rewrite <- (List.firstn_skipn n l). apply in_or_app. now left.
Qed.

Lemma In_skipn n l x : In x (List.skipn n l) -> In x l.
Proof.
  intros H. rewrite <- (List.firstn_skipn n l). apply in_or_app. now right.
Qed.

Lemma insert_desc_perm key x l :
  Permutation (Drizzle.insert_desc key x l) (x :: l).
Proof.
  induction l as [|y l IH]; simpl; [reflexivity|].
  destruct (key y <=? key x)%Z; [reflexivity|].
  rewrite IH. apply perm_swap.
Qed.

Lemma sort_desc_perm key l : Permutation (Drizzle.sort_desc key l) l.
Proof.
  induction l as [|x l IH]; simpl; [reflexivity|].
  unfold Drizzle.sort_desc in *. simpl.
  rewrite insert_desc_perm. now apply perm_skip.
Qed.

Lemma insert_desc_sorted key x l :
  StronglySorted (fun a b => (key b <= key a)%Z) l ->
  StronglySorted (fun a b => (key b <= key a)%Z)
                 (Drizzle.insert_desc key x l).
Proof.
  induction 1 as [|y l Hl IH Hy]; simpl.
  - repeat constructor.
  - destruct (key y <=? key x)%Z eqn:E.
    + apply Z.leb_le in E. constructor.
      * now constructor.
      * constructor; [exact E|].
        eapply List.Forall_impl; [|exact Hy]. simpl. intros; lia.
    + apply Z.leb_gt in E. constructor; [exact IH|].
      eapply Permutation_Forall.
      * symmetry. apply insert_desc_perm.
      * constructor; [lia | exact Hy].
Qed.

Lemma sort_desc_sorted key l :
  StronglySorted (fun a b => (key b <= key a)%Z) (Drizzle.sort_desc key l).
Proof.
  induction l as [|x l IH]; [constructor|].
  unfold Drizzle.sort_desc in *. simpl. now apply insert_desc_sorted.
Qed.

Lemma selected_In q x :
  In x (Drizzle.selected q) ->
  In x (Drizzle.config_rows q)
  /\ forall cond, Drizzle.config_where q = Some cond -> cond x = true.
Proof.
  unfold Drizzle.selected. destruct (Drizzle.config_where q) as [c|].
  - intros [H1 H2]%List.filter_In. split; [exact H1|].
    now intros ? [= <-].
  - intros H. split; [exact H | discriminate].
Qed.

Lemma ordered_In q x : In x (Drizzle.ordered q) -> In x (Drizzle.selected q).
Proof.
  unfold Drizzle.ordered. destruct (Drizzle.config_orderBy q) as [key|].
  - apply Permutation_in, sort_desc_perm.
  - trivial.
Qed.

Lemma window_In q l x : In x (Drizzle.window q l) -> In x l.
Proof.
  unfold Drizzle.window.
  destruct (Drizzle.config_limit q) as [n|], (Drizzle.config_offset q);
    try destruct (n <? 0)%Z; intros H;
    repeat first [apply In_firstn in H | apply In_skipn in H]; exact H.
Qed.

(** Every row a statement returns satisfies the condition in its slot. *)
Lemma execute_where q cond rows x :
  Drizzle.config_where q = Some cond ->
  Drizzle.execute q = Return rows ->
  In x rows -> cond x = true.
Proof.
  unfold Drizzle.execute. intros Hc He Hx.
  destruct (Drizzle.negative (Drizzle.config_offset q)); [discriminate|].
  injection He as <-.
  apply window_In, ordered_In, selected_In in Hx. now apply Hx.
Qed.

(** A statement without LIMIT and OFFSET always runs, and returns the
    selected rows. *)
Lemma execute_unbounded q :
  Drizzle.config_limit q = None -> Drizzle.config_offset q = None ->
  Drizzle.execute q = Return (Drizzle.ordered q).
Proof.
  unfold Drizzle.execute, Drizzle.window. now intros -> ->.
Qed.

End DrizzleFacts.

(** ** What a search term matches *)

Lemma like_percent_unfold (pat s : list ascii) :
  Drizzle.like ("%"%char :: pat) s
  = Drizzle.like pat s
    || match s with
       | [] => false
       | _ :: s' => Drizzle.like ("%"%char :: pat) s'
       end.
Proof. destruct s; reflexivity. Qed.

Lemma like_percent (pat s : list ascii) :
  Drizzle.like ("%"%char :: pat) s = true
  <-> exists before rest, s = (before ++ rest)%list
                          /\ Drizzle.like pat rest = true.
Proof.
  induction s as [|x s IH]; rewrite like_percent_unfold.
  - rewrite orb_false_r. split.
    + intros H. now exists [], [].
    + intros (before & rest & E & H).
      symmetry in E. apply List.app_eq_nil in E as [-> ->]. exact H.
  - rewrite orb_true_iff, IH. split.
    + intros [H|(before & rest & -> & H)].
      * now exists [], (x :: s).
      * now exists (x :: before), rest.
    + intros ([|y before] & rest & E & H).
      * left. simpl in E. now subst.
      * right. injection E as -> ->. now exists before, rest.
Qed.

Lemma like_plain_prefix (p pat s : list ascii) :
  Forall (fun c => wildcard c = false) p ->
  Drizzle.like (p ++ pat) s = true
  <-> exists rest, s = (p ++ rest)%list /\ Drizzle.like pat rest = true.
Proof.
  intros Hp. revert s. induction Hp as [|c p Hc Hp IH]; intros s.
  - simpl. split; [intros H; now exists s | now intros (rest & -> & H)].
  - unfold wildcard in Hc. apply orb_false_iff in Hc as [Hc H3].
    apply orb_false_iff in Hc as [H1 H2].
    cbn [app Drizzle.like]. rewrite H1, H2, H3.
    destruct s as [|x s].
    + split; [discriminate | now intros (rest & [=] & _)].
    + rewrite andb_true_iff, IH. split.
      * intros [E (rest & -> & H)]. apply Ascii.eqb_eq in E as ->.
        now exists rest.
      * intros (rest & [= -> ->] & H). split; [apply Ascii.eqb_refl|].
        now exists rest.
Qed.

Lemma list_ascii_of_string_app (a b : string) :
  list_ascii_of_string (a ++ b)
  = (list_ascii_of_string a ++ list_ascii_of_string b)%list.
Proof. induction a as [|c a IH]; simpl; [reflexivity | now rewrite IH]. Qed.

Lemma wildcard_lower (c : ascii) :
  wildcard (Drizzle.lower_ascii c) = wildcard c.
Proof. destruct c as [[] [] [] [] [] [] [] []]; reflexivity. Qed.

(** For a term without wildcard characters, [ilike] with the term between
    two [%] is the case-insensitive substring test. *)
Lemma ilike_plain_term (search hay : string) :
  plain search ->
  Drizzle.ilike (Some hay) ("%" ++ search ++ "%") = true
  <-> occurs_in search hay.
Proof.
  intros Hplain. unfold Drizzle.ilike, occurs_in.
  rewrite !list_ascii_of_string_app. unfold Drizzle.lower at 1.
  rewrite !List.map_app.
  change (List.map Drizzle.lower_ascii (list_ascii_of_string "%"))
    with ["%"%char].
  cbn [app]. rewrite like_percent.
  assert (Hlow : Forall (fun c => wildcard c = false)
                   (Drizzle.lower (list_ascii_of_string search))).
  { unfold Drizzle.lower. apply List.Forall_map.
    eapply List.Forall_impl; [|exact Hplain].
    intros c Hc. now rewrite wildcard_lower. }
  split.
  - intros (before & rest & E & H).
    apply (like_plain_prefix _ _ _ Hlow) in H as (after & -> & _).
    now exists before, after.
  - intros (before & after & E).
    exists before,
      (Drizzle.lower (list_ascii_of_string search) ++ after)%list.
    split; [exact E|]. apply (like_plain_prefix _ _ _ Hlow).
    exists after. split; [reflexivity|].
    apply like_percent. exists after, [].
    split; [now rewrite List.app_nil_r | reflexivity].
Qed.

Lemma search_matches_plain_term (search : string) (r : Recipe.t) :
  plain search ->
  Storage.search_matches search r = true
  <-> occurs_in search (Recipe.name r)
      \/ exists description,
           Recipe.description r = Some description
           /\ occurs_in search description.
Proof.
  intros Hplain. unfold Storage.search_matches.
  rewrite orb_true_iff, (ilike_plain_term _ _ Hplain).
  destruct (Recipe.description r) as [d|].
  - rewrite (ilike_plain_term _ _ Hplain). split.
    + intros [H|H]; [now left | right; now exists d].
    + intros [H|(d' & [= <-] & H)]; [now left | now right].
  - simpl. split.
    + intros [H|H]; [now left | discriminate].
    + intros [H|(d' & [=] & _)]. now left.
Qed.

(** A term with a wildcard in it is a pattern: "r_s" finds "Risotto". *)
Lemma search_term_is_a_pattern :
  Storage.search_matches "r_s" Sample.risotto = true
  /\ ~ occurs_in "r_s" (Recipe.name Sample.risotto).
Proof.
  split; [reflexivity|]. intros (before & after & E). cbn in E.
  repeat (destruct before as [|? before]; [discriminate|];
          injection E as _ E).
  destruct before; discriminate.
Qed.

(** ** Recipe lists *)

(** [getRecipes] runs one statement, whose condition is the last one set. *)
Lemma getRecipes_last_where limit offset filters db :
  Storage.getRecipes limit offset filters db
  = (db,
     Drizzle.execute
       (Drizzle.mkSelect
          (Drizzle.leftJoin (recipes db) (users db) Storage.recipe_user)
          (Some (fun row => last_condition filters (fst row)))
          (Some (fun row => Recipe.createdAt (fst row)))
          (Some limit) (Some offset))).
Proof.
  unfold Storage.getRecipes, query, last_condition.
  destruct (Storage.truthy (Storage.f_userId filters)),
           (Storage.truthy (Storage.f_cuisine filters)),
           (Storage.truthy (Storage.f_difficulty filters)),
           (Storage.truthy (Storage.f_search filters)); reflexivity.
Qed.

(** Without any filter the list holds approved recipes only. *)
Lemma getRecipes_unfiltered_approved limit offset db rows :
  Storage.getRecipes limit offset no_filters db = (db, Return rows) ->
  Forall (fun row => approved (fst row)) rows.
Proof.
  rewrite getRecipes_last_where. intros H.
  apply (f_equal snd) in H. cbn [snd] in H.
  apply List.Forall_forall. intros row Hrow.
  eapply execute_where in H; [|reflexivity|exact Hrow].
  unfold last_condition, no_filters in H. simpl in H.
  unfold approved. destruct (Recipe.isApproved (fst row)) as [[]|];
    simpl in H; congruence.
Qed.

Lemma getFeaturedRecipes_approved db rows :
  Storage.getFeaturedRecipes db = (db, Return rows) ->
  Forall (fun row => approved (fst row)) rows.
Proof.
  unfold Storage.getFeaturedRecipes, query. intros H.
  apply (f_equal snd) in H. cbn [snd] in H.
  apply List.Forall_forall. intros row Hrow.
  eapply execute_where in H; [|reflexivity|exact Hrow].
  apply andb_prop in H as [_ H].
  unfold approved. destruct (Recipe.isApproved (fst row)) as [[]|];
    simpl in H; congruence.
Qed.

(** C1 (code defect).  The claim: whatever filters [getRecipes] is given,
    every recipe it returns is approved.  The code sets the approval
    condition first and each filter with a further [where], which replaces
    it: asked for the cuisine "mexican", it returns the unapproved
    "Secret stew" next to the approved "Pasta salad". *)
Theorem C1_cuisine_filter_lists_unapproved_recipe :
  Storage.getRecipes 20 0 (Sample.only "mexican") Sample.db
  = (Sample.db,
     Return [(Sample.draft, Some Sample.alice);
             (Sample.pasta_salad, Some Sample.alice)])
  /\ Recipe.isApproved Sample.draft = Some false.
Proof. split; reflexivity. Qed.

(** C2 (code defect).  The claim: the filters of a list query combine
    conjunctively with each other and with approval.  The code keeps only
    the last condition: asked for cuisine "italian" and search "pasta", it
    returns "Pasta salad", whose cuisine is "mexican", and not one italian
    recipe is asked for any more. *)
Theorem C2_search_filter_drops_cuisine_filter :
  Storage.getRecipes 20 0 (Sample.cuisine_and_search "italian" "pasta")
    Sample.db
  = (Sample.db, Return [(Sample.pasta_salad, Some Sample.alice)])
  /\ Recipe.cuisine Sample.pasta_salad = Some "mexican"
  /\ Drizzle.eq_text (Recipe.cuisine Sample.pasta_salad) "italian" = false.
Proof. repeat split; reflexivity. Qed.

(** ** Primary keys are kept *)

Lemma has_id_In {R} (id_of : R -> string) id rows :
  Storage.has_id id_of id rows = true <-> In id (List.map id_of rows).
Proof.
  unfold Storage.has_id. rewrite List.existsb_exists, List.in_map_iff.
  split; intros (r & H1 & H2); exists r.
  - apply String.eqb_eq in H2. now split.
  - split; [exact H2 | now apply String.eqb_eq].
Qed.

Lemma has_id_app {R} (id_of : R -> string) id rows rows' :
  Storage.has_id id_of id (rows ++ rows')%list
  = Storage.has_id id_of id rows || Storage.has_id id_of id rows'.
Proof. unfold Storage.has_id. apply List.existsb_app. Qed.

Lemma unique_ids_snoc {R} (id_of : R -> string) (rows : list R) (row : R) :
  unique_ids id_of rows ->
  Storage.has_id id_of (id_of row) rows = false ->
  unique_ids id_of (rows ++ [row])%list.
Proof.
  unfold unique_ids. intros Hu Hnew. rewrite List.map_app.
  apply NoDup_app. split; [exact Hu|]. split.
  - intros x Hx Hx'. apply list_elem_of_In in Hx, Hx'.
    destruct Hx' as [<-|[]]. apply has_id_In in Hx. congruence.
  - apply NoDup_singleton.
Qed.

Lemma unique_ids_filter {R} (id_of : R -> string) (keep : R -> bool)
    (rows : list R) :
  unique_ids id_of rows -> unique_ids id_of (List.filter keep rows).
Proof.
  unfold unique_ids. induction rows as [|x rows IH]; [trivial|].
  intros [Hx Hu]%NoDup_cons. simpl. destruct (keep x); [|now apply IH].
  simpl. apply NoDup_cons. split; [|now apply IH].
  rewrite list_elem_of_In in *. intros (y & Hy & Hin)%List.in_map_iff.
  apply Hx. apply List.in_map_iff. exists y. split; [exact Hy|].
  now apply List.filter_In in Hin.
Qed.

(** Whether they succeed or fail, the writes of the storage layer keep the
    ids of each table distinct. *)
Lemma createRecipe_keeps_keys env recipe db :
  unique_ids Recipe.id (recipes db) ->
  unique_ids Recipe.id (recipes (fst (Storage.createRecipe env recipe db))).
Proof.
  intros Hu. unfold Storage.createRecipe.
  destruct (negb (Storage.int4 _ && Storage.int4 _)); [exact Hu|].
  destruct (Storage.has_id Recipe.id _ _) eqn:Hnew; [exact Hu|].
  destruct (Storage.references _ _ _); [|exact Hu].
  simpl. now apply unique_ids_snoc.
Qed.

Lemma createReview_keeps_keys env review db :
  unique_ids Review.id (reviews db) ->
  unique_ids Review.id (reviews (fst (Storage.createReview env review db))).
Proof.
  intros Hu. unfold Storage.createReview.
  destruct (Storage.as_integer _); [|exact Hu].
  destruct (Storage.has_id Review.id _ _) eqn:Hnew; [exact Hu|].
  destruct (Storage.has_id Recipe.id _ _); [|exact Hu].
  destruct (Storage.has_id User.id _ _); [|exact Hu].
  simpl. now apply unique_ids_snoc.
Qed.

Lemma saveRecipe_keeps_keys env data db :
  unique_ids SavedRecipe.id (savedRecipes db) ->
  unique_ids SavedRecipe.id
    (savedRecipes (fst (Storage.saveRecipe env data db))).
Proof.
  intros Hu. unfold Storage.saveRecipe.
  destruct (Storage.has_id SavedRecipe.id _ _) eqn:Hnew; [exact Hu|].
  destruct (Storage.has_id User.id _ _); [|exact Hu].
  destruct (Storage.has_id Recipe.id _ _); [|exact Hu].
  simpl. now apply unique_ids_snoc.
Qed.

Lemma deleteRecipe_keeps_keys id db :
  unique_ids Recipe.id (recipes db) -> unique_ids Review.id (reviews db) ->
  unique_ids Recipe.id (recipes (fst (Storage.deleteRecipe id db)))
  /\ unique_ids Review.id (reviews (fst (Storage.deleteRecipe id db))).
Proof.
  intros Hr Hv. unfold Storage.deleteRecipe. simpl.
  destruct (0 <? _)%nat; simpl; [|now split].
  split; now apply unique_ids_filter.
Qed.

Lemma deleteReview_keeps_keys id userId db :
  unique_ids Review.id (reviews db) ->
  unique_ids Review.id (reviews (fst (Storage.deleteReview id userId db))).
Proof. intros Hu. simpl. now apply unique_ids_filter. Qed.

(** ** Saved recipes *)

(** A save whose generated id is new and whose references resolve appends
    its row, whatever the table already holds for the pair. *)
Lemma saveRecipe_appends env data db :
  Storage.has_id SavedRecipe.id (gen_random_uuid env (tick db))
    (savedRecipes db) = false ->
  Storage.has_id User.id (InsertSavedRecipe.userId data) (users db) = true ->
  Storage.has_id Recipe.id (InsertSavedRecipe.recipeId data) (recipes db)
  = true ->
  savedRecipes (fst (Storage.saveRecipe env data db))
  = (savedRecipes db
     ++ [SavedRecipe.mk (gen_random_uuid env (tick db))
           (InsertSavedRecipe.userId data) (InsertSavedRecipe.recipeId data)
           (now env (tick db))])%list.
Proof.
  intros H1 H2 H3. unfold Storage.saveRecipe. now rewrite H1, H2, H3.
Qed.

(** Two saves whose generated ids are new and distinct add two rows for
    the pair. *)
Lemma saveRecipe_twice env data db :
  let db1 := fst (Storage.saveRecipe env data db) in
  let db2 := fst (Storage.saveRecipe env data db1) in
  Storage.has_id User.id (InsertSavedRecipe.userId data) (users db) = true ->
  Storage.has_id Recipe.id (InsertSavedRecipe.recipeId data) (recipes db)
  = true ->
  Storage.has_id SavedRecipe.id (gen_random_uuid env (tick db))
    (savedRecipes db) = false ->
  Storage.has_id SavedRecipe.id (gen_random_uuid env (S (tick db)))
    (savedRecipes db) = false ->
  gen_random_uuid env (tick db) <> gen_random_uuid env (S (tick db)) ->
  length (List.filter
            (Storage.saved_pair (InsertSavedRecipe.userId data)
               (InsertSavedRecipe.recipeId data))
            (savedRecipes db2))
  = S (S (length (List.filter
                    (Storage.saved_pair (InsertSavedRecipe.userId data)
                       (InsertSavedRecipe.recipeId data))
                    (savedRecipes db)))).
Proof.
  intros db1 db2 Hu Hr H1 H2 Hne.
  assert (E1 : Storage.saveRecipe env data db
               = (Storage.step
                    (Storage.with_savedRecipes db
                       (savedRecipes db
                        ++ [SavedRecipe.mk (gen_random_uuid env (tick db))
                              (InsertSavedRecipe.userId data)
                              (InsertSavedRecipe.recipeId data)
                              (now env (tick db))])%list),
                  Return (Some (SavedRecipe.mk (gen_random_uuid env (tick db))
                                  (InsertSavedRecipe.userId data)
                                  (InsertSavedRecipe.recipeId data)
                                  (now env (tick db)))))).
  { unfold Storage.saveRecipe. now rewrite H1, Hu, Hr. }
  subst db2 db1. rewrite E1. cbn [fst].
  rewrite saveRecipe_appends; cbn [tick savedRecipes users recipes
    Storage.step Storage.with_savedRecipes]; try assumption.
  - rewrite !List.filter_app, !List.length_app. simpl.
    unfold Storage.saved_pair. cbn. rewrite !String.eqb_refl. simpl. lia.
  - rewrite has_id_app, H2. unfold Storage.has_id. simpl.
    rewrite orb_false_r. now apply String.eqb_neq.
Qed.

(** C3 (code defect).  The claim: saving the same (user, recipe) pair twice
    leaves exactly one saved-recipe row.  [onConflictDoNothing] only skips
    an insert that collides on a unique constraint, and the table has none
    on the pair: the second save of ("alice", "r1") stores a second row. *)
Theorem C3_saving_twice_stores_two_rows :
  let db1 := fst (Storage.saveRecipe Sample.env Sample.alice_saves_r1
                    Sample.db) in
  let db2 := fst (Storage.saveRecipe Sample.env Sample.alice_saves_r1 db1) in
  savedRecipes db2
  = [SavedRecipe.mk "#" "alice" "r1" 0; SavedRecipe.mk "#i" "alice" "r1" 1]
  /\ length (List.filter (Storage.saved_pair "alice" "r1") (savedRecipes db2))
     = 2%nat.
Proof. split; reflexivity. Qed.

(** ** Review validation *)

(** The rating check passes exactly the numbers between 1 and 5. *)
Lemma rating_accepted key v q :
  Zod.rating_ key v = inl q <-> v = JsNumber q /\ (1 <= q)%Q /\ (q <= 5)%Q.
Proof.
  unfold Zod.rating_. split.
  - destruct v; try discriminate.
    destruct (Qle_bool 1 q0) eqn:E1; simpl; [|discriminate].
    destruct (Qle_bool q0 5) eqn:E2; simpl; [|discriminate].
    intros [= <-]. apply Qle_bool_iff in E1, E2. auto.
  - intros (-> & H1 & H2). apply Qle_bool_iff in H1, H2.
    now rewrite H1, H2.
Qed.

(** Whatever it rejects, it reports under the key it was given. *)
Lemma rating_rejected key v issues :
  Zod.rating_ key v = inr issues ->
  exists code, issues = [mkIssue code [key]].
Proof.
  unfold Zod.rating_. destruct v; try (intros [= <-]; eexists; reflexivity).
  destruct (Qle_bool 1 q); simpl; [|intros [= <-]; eexists; reflexivity].
  destruct (Qle_bool q 5); simpl; [discriminate|].
  intros [= <-]; eexists; reflexivity.
Qed.

(** The boundary cases of the claim on the create route: 0 and 6 are
    rejected with the rating field listed, 1 and 5 are stored. *)
Lemma review_rating_boundaries :
  let post rating :=
    snd (Routes.create_review Sample.env
           (Sample.as_ "bob" "r1" {["rating" := JsNumber rating]})
           Sample.db) in
  post 0%Q = Return (mkResponse 400
             (JInvalid "Invalid review data" [Zod.too_small "rating"]))
  /\ post 6%Q = Return (mkResponse 400
                (JInvalid "Invalid review data" [Zod.too_big "rating"]))
  /\ post 1%Q = Return (mkResponse 200
                (JReview (Review.mk "#" "r1" "bob" 1 None (Some true) 0 0)))
  /\ post 5%Q = Return (mkResponse 200
                (JReview (Review.mk "#" "r1" "bob" 5 None (Some true) 0 0))).
Proof. repeat split; reflexivity. Qed.

(** C4 (code defect).  The claim: validation accepts a rating if and only
    if it is an integer from 1 to 5.  The schema checks the bounds only:
    the rating 5/2 passes validation on both routes, and the create route
    then fails on the integer column with a server error instead of
    answering with a validation error that lists the rating field. *)
Theorem C4_fractional_rating_passes_validation :
  Zod.rating_ "rating" (JsNumber (5 # 2)) = inl (5 # 2)
  /\ Zod.insertReviewSchema_partial_parse {["rating" := JsNumber (5 # 2)]}
     = Return (PartialInsertReview.mk None None (Some (5 # 2)) None None)
  /\ Storage.as_integer (5 # 2) = None
  /\ snd (Routes.create_review Sample.env
            (Sample.as_ "bob" "r1" {["rating" := JsNumber (5 # 2)]})
            Sample.db)
     = Return (mkResponse 500 (JMessage "Failed to create review"))
  /\ snd (Routes.update_review Sample.env
            (Sample.as_ "bob" "v2" {["rating" := JsNumber (5 # 2)]})
            Sample.db)
     = Return (mkResponse 500 (JMessage "Failed to update review")).
Proof. repeat split; reflexivity. Qed.

(** ** The admin guard *)

(** Closed lists of distinct ids. *)
Ltac unique_ids_by_computation :=
  unfold unique_ids; apply (bool_decide_unpack _); vm_compute; reflexivity.

Lemma filter_by_id_unique {R} (id_of : R -> string) (rows : list R) r :
  unique_ids id_of rows -> In r rows ->
  List.filter (fun x => String.eqb (id_of x) (id_of r)) rows = [r].
Proof.
  unfold unique_ids. induction rows as [|x rows IH]; [intros _ []|].
  simpl. intros Hnd Hin. apply NoDup_cons in Hnd as [Hx Hnd].
  assert (Hnone : forall y, ~ In (id_of y) (List.map id_of rows) ->
            List.filter (fun x => String.eqb (id_of x) (id_of y)) rows = []).
  { intros y Hy. clear -Hy. induction rows as [|z rows IH]; [reflexivity|].
    simpl in *. destruct (String.eqb_spec (id_of z) (id_of y)) as [E|E].
    - exfalso. apply Hy. now left.
    - apply IH. intros ?. apply Hy. now right. }
  rewrite list_elem_of_In in Hx.
  destruct Hin as [->|Hin].
  - rewrite String.eqb_refl. f_equal. now apply Hnone.
  - destruct (String.eqb_spec (id_of x) (id_of r)) as [E|E].
    + exfalso. apply Hx. rewrite E. now apply List.in_map.
    + now apply IH.
Qed.

Lemma getUser_head id db :
  Storage.getUser id db
  = (db, Return (head (List.filter (fun u => String.eqb (User.id u) id)
                         (users db)))).
Proof. reflexivity. Qed.

(** What the admin guard does, alone and in front of a handler. *)
Lemma isAdmin_outcome (req : Request) (db : Db) :
  Routes.isAdmin req db
  = match Storage.truthy (user req) with
    | None => (db, Return (Some (mkResponse 401 (JMessage "Unauthorized"))))
    | Some sub =>
        if Routes.is_admin
             (head (List.filter (fun u => String.eqb (User.id u) sub)
                      (users db)))
        then (db, Return None)
        else (db, Return (Some (mkResponse 403
                                  (JMessage "Admin access required"))))
    end.
Proof.
  unfold Routes.isAdmin, await, reject, next, resolve.
  destruct (Storage.truthy (user req)) as [sub|]; [|reflexivity].
  rewrite getUser_head. now destruct (Routes.is_admin _).
Qed.

Lemma admin_route_outcome (handler : Handler) (req : Request) (db : Db) :
  Routes.admin_route handler req db
  = match Storage.truthy (user req) with
    | None => (db, Return (mkResponse 401 (JMessage "Unauthorized")))
    | Some sub =>
        if Routes.is_admin
             (head (List.filter (fun u => String.eqb (User.id u) sub)
                      (users db)))
        then handler req db
        else (db, Return (mkResponse 403 (JMessage "Admin access required")))
    end.
Proof.
  unfold Routes.admin_route. cbn [route]. unfold await at 1.
  unfold Routes.isAuthenticated at 1.
  destruct (user req) as [sub|] eqn:Hu; [|reflexivity].
  unfold next, resolve at 1. unfold await. rewrite isAdmin_outcome, Hu.
  destruct (Storage.truthy (Some sub)) as [sub'|]; [|reflexivity].
  now destruct (Routes.is_admin _).
Qed.

Lemma truthy_some (s : string) : s <> "" -> Storage.truthy (Some s) = Some s.
Proof.
  intros H. unfold Storage.truthy.
  now destruct (String.eqb_spec s "").
Qed.

(** The user [getUser] finds is an admin when the stored user of that id
    has the role "admin", and is none when no stored user of that id
    has. *)
Lemma stored_admin (sub : string) (db : Db) (u : User.t) :
  unique_ids User.id (users db) -> In u (users db) -> User.id u = sub ->
  User.role u = Some "admin" ->
  Routes.is_admin
    (head (List.filter (fun u => String.eqb (User.id u) sub) (users db)))
  = true.
Proof.
  intros Hunique Hin <- Hrole.
  rewrite (filter_by_id_unique User.id _ u Hunique Hin). simpl.
  now rewrite Hrole.
Qed.

Lemma no_stored_admin (sub : string) (db : Db) :
  (forall u, In u (users db) -> User.id u = sub ->
             User.role u <> Some "admin") ->
  Routes.is_admin
    (head (List.filter (fun u => String.eqb (User.id u) sub) (users db)))
  = false.
Proof.
  intros H.
  destruct (List.filter _ (users db)) as [|u rest] eqn:E; [reflexivity|].
  assert (Hu : In u (List.filter (fun u => String.eqb (User.id u) sub)
                       (users db))) by (rewrite E; now left).
  apply List.filter_In in Hu as [Hin Hid]. apply String.eqb_eq in Hid.
  specialize (H u Hin Hid). simpl. unfold Drizzle.eq_text.
  destruct (User.role u) as [role|]; [|reflexivity].
  apply String.eqb_neq. congruence.
Qed.

(** C8.  On an admin endpoint, whatever its handler: a request without an
    identity (none, or an empty one) is answered 401 Unauthorized; a
    request whose identity is not that of a stored user with the role
    "admin" - no such user is stored, or the stored role is missing or
    another one - is answered 403; in both cases the handler is not run
    and nothing is written.  When the identity is that of a stored user
    whose role is "admin", the request is handed to the handler.  The
    same holds of [isAdmin] on its own. *)
Theorem C8_admin_guard (handler : Handler) (req : Request) (db : Db) :
  (user req = None \/ user req = Some "" ->
   Routes.admin_route handler req db
   = (db, Return (mkResponse 401 (JMessage "Unauthorized")))
   /\ Routes.isAdmin req db
      = (db, Return (Some (mkResponse 401 (JMessage "Unauthorized")))))
  /\ (forall sub,
        user req = Some sub -> sub <> "" ->
        (forall u, In u (users db) -> User.id u = sub ->
                   User.role u <> Some "admin") ->
        Routes.admin_route handler req db
        = (db, Return (mkResponse 403 (JMessage "Admin access required")))
        /\ Routes.isAdmin req db
           = (db,
              Return (Some (mkResponse 403
                              (JMessage "Admin access required")))))
  /\ (forall sub u,
        user req = Some sub -> sub <> "" ->
        unique_ids User.id (users db) ->
        In u (users db) -> User.id u = sub -> User.role u = Some "admin" ->
        Routes.admin_route handler req db = handler req db
        /\ Routes.isAdmin req db = (db, Return None)).
Proof.
  rewrite admin_route_outcome, isAdmin_outcome.
  split; [|split].
  - intros [-> | ->]; now split.
  - intros sub -> Hsub Hnone.
    rewrite (truthy_some sub Hsub), (no_stored_admin sub db Hnone).
    now split.
  - intros sub u -> Hsub Hunique Hin Hid Hrole.
    rewrite (truthy_some sub Hsub),
      (stored_admin sub db u Hunique Hin Hid Hrole).
    now split.
Qed.

(** C8 on the sample users: "bob", whose role is "user", and "eve", who is
    not stored, are answered 403; a request without a session is answered
    401; "root", whose role is "admin", reaches the handler. *)
Lemma C8_witness :
  Routes.admin_route Sample.ok (mkRequest None "" ∅) Sample.db
  = (Sample.db, Return (mkResponse 401 (JMessage "Unauthorized")))
  /\ Routes.admin_route Sample.ok (Sample.as_ "bob" "" ∅) Sample.db
     = (Sample.db, Return (mkResponse 403 (JMessage "Admin access required")))
  /\ Routes.admin_route Sample.ok (Sample.as_ "eve" "" ∅) Sample.db
     = (Sample.db, Return (mkResponse 403 (JMessage "Admin access required")))
  /\ Routes.admin_route Sample.ok (Sample.as_ "root" "" ∅) Sample.db
     = Sample.ok (Sample.as_ "root" "" ∅) Sample.db.
Proof.
  split; [|split; [|split]].
  - apply (proj1 (C8_admin_guard Sample.ok (mkRequest None "" ∅) Sample.db)).
    now left.
  - apply (proj1 (proj2 (C8_admin_guard Sample.ok (Sample.as_ "bob" "" ∅)
                           Sample.db)) "bob");
      [reflexivity | discriminate |].
    intros u [<-|[<-|[<-|[]]]]; discriminate.
  - apply (proj1 (proj2 (C8_admin_guard Sample.ok (Sample.as_ "eve" "" ∅)
                           Sample.db)) "eve");
      [reflexivity | discriminate |].
    intros u [<-|[<-|[<-|[]]]]; discriminate.
  - apply (proj2 (proj2 (C8_admin_guard Sample.ok (Sample.as_ "root" "" ∅)
                           Sample.db)) "root" Sample.root);
      [reflexivity | discriminate | unique_ids_by_computation
       | simpl; auto | reflexivity | reflexivity].
Defined.

(** The guard at work on the sample users: "bob" is turned away, "root"
    is let through, and a request without a session is unauthorized. *)
Lemma admin_guard_runs :
  Routes.admin_route Sample.ok (Sample.as_ "bob" "" ∅) Sample.db
  = (Sample.db, Return (mkResponse 403 (JMessage "Admin access required")))
  /\ Routes.admin_route Sample.ok (Sample.as_ "root" "" ∅) Sample.db
     = (Sample.db, Return (mkResponse 200 (JMessage "ok")))
  /\ Routes.admin_route Sample.ok (mkRequest None "" ∅) Sample.db
     = (Sample.db, Return (mkResponse 401 (JMessage "Unauthorized"))).
Proof. repeat split; reflexivity. Qed.

(** ** Fetching one recipe *)

Section JoinFacts.

Context {A B : Type}.
Implicit Types (a : list A) (b : list B) (on : A -> B -> bool).

Lemma leftJoin_fst_In a b on x :
  In x (List.map fst (Drizzle.leftJoin a b on)) <-> In x a.
Proof.
  unfold Drizzle.leftJoin. rewrite List.in_map_iff. split.
  - intros ([x' y] & <- & H). apply List.in_flat_map in H as (z & Hz & H).
    destruct (List.filter (on z) b) as [|y0 ys].
    + destruct H as [[= <- _]|[]]. exact Hz.
    + apply List.in_map_iff in H as (? & [= <- _] & _). exact Hz.
  - intros H. destruct (List.filter (on x) b) as [|y0 ys] eqn:E.
    + exists (x, None). split; [reflexivity|].
      apply List.in_flat_map. exists x. split; [exact H|].
      rewrite E. now left.
    + exists (x, Some y0). split; [reflexivity|].
      apply List.in_flat_map. exists x. split; [exact H|].
      rewrite E. now left.
Qed.

(** When [on] matches at most one row of [b], the join has exactly one
    row per row of [a]. *)
Lemma leftJoin_fst_unique a b on :
  (forall x, (length (List.filter (on x) b) <= 1)%nat) ->
  List.map fst (Drizzle.leftJoin a b on) = a.
Proof.
  intros H. unfold Drizzle.leftJoin. set (f := fun x : A => _).
  induction a as [|x a IH]; [reflexivity|].
  cbn [List.flat_map]. rewrite List.map_app, IH.
  subst f. cbv beta. specialize (H x).
  destruct (List.filter (on x) b) as [|y [|y' ys]]; simpl in *;
    [reflexivity | reflexivity | lia].
Qed.

Lemma map_fst_filter (P : A -> bool) (l : list (A * B)) :
  List.map fst (List.filter (fun row => P (fst row)) l)
  = List.filter P (List.map fst l).
Proof.
  induction l as [|[x y] l IH]; [reflexivity|].
  simpl. destruct (P x); simpl; now rewrite IH.
Qed.

Lemma map_fst_insert_desc (key : A -> Z) (row : A * B) (l : list (A * B)) :
  List.map fst (Drizzle.insert_desc (fun row => key (fst row)) row l)
  = Drizzle.insert_desc key (fst row) (List.map fst l).
Proof.
  induction l as [|r l IH]; [reflexivity|].
  simpl. destruct (key (fst r) <=? key (fst row))%Z; simpl;
    [reflexivity | now rewrite IH].
Qed.

Lemma map_fst_sort_desc (key : A -> Z) (l : list (A * B)) :
  List.map fst (Drizzle.sort_desc (fun row => key (fst row)) l)
  = Drizzle.sort_desc key (List.map fst l).
Proof.
  induction l as [|r l IH]; [reflexivity|].
  unfold Drizzle.sort_desc in *. simpl.
  now rewrite map_fst_insert_desc, IH.
Qed.

End JoinFacts.

Lemma at_most_one_user (k : string) (us : list User.t) :
  unique_ids User.id us ->
  (length (List.filter (fun u => String.eqb k (User.id u)) us) <= 1)%nat.
Proof.
  unfold unique_ids. induction us as [|u us IH]; simpl; [lia|].
  intros Hnd. apply NoDup_cons in Hnd as [Hu Hnd].
  rewrite list_elem_of_In in Hu.
  destruct (String.eqb_spec k (User.id u)) as [->|E]; [|now apply IH].
  assert (List.filter (fun u' => String.eqb (User.id u) (User.id u')) us = [])
    as ->; [|simpl; lia].
  clear -Hu. induction us as [|z us IH]; [reflexivity|].
  simpl in *. destruct (String.eqb_spec (User.id u) (User.id z)) as [E|E].
  - exfalso. apply Hu. now left.
  - apply IH. intros ?. apply Hu. now right.
Qed.

(** [getRecipe] never writes and never throws; this is what it returns. *)
Lemma getRecipe_unfold id db :
  Storage.getRecipe id db
  = (db,
     Return
       match List.filter (fun r => String.eqb (Recipe.id r) id) (recipes db)
       with
       | [] => None
       | recipe :: _ =>
           Some (RecipeWithReviews.mk recipe
                   (Drizzle.sort_desc
                      (fun row => Review.createdAt (fst row))
                      (List.filter
                         (fun row => Storage.approved_review_of id (fst row))
                         (Drizzle.leftJoin (reviews db) (users db)
                            Storage.review_user)))
                   (match Storage.avg
                            (List.filter (Storage.approved_review_of id)
                               (reviews db)) with
                    | Some text => Js.Number text
                    | None => 0%Q
                    end)
                   (length (List.filter (Storage.approved_review_of id)
                              (reviews db))))
       end).
Proof.
  unfold Storage.getRecipe, await, query, resolve.
  rewrite execute_unbounded by reflexivity.
  change (Drizzle.ordered _)
    with (List.filter (fun r => String.eqb (Recipe.id r) id) (recipes db)).
  destruct (List.filter _ (recipes db)); reflexivity.
Qed.


Lemma filter_id_cons {R} (id_of : R -> string) id (rows : list R) r :
  In r rows -> id_of r = id ->
  exists first rest,
    List.filter (fun r => String.eqb (id_of r) id) rows = first :: rest
    /\ In first rows /\ id_of first = id.
Proof.
  intros Hin Hid.
  destruct (List.filter (fun r => String.eqb (id_of r) id) rows)
    as [|first rest] eqn:E.
  - assert (In r []) as []. rewrite <- E. apply List.filter_In.
    split; [exact Hin | now apply String.eqb_eq].
  - exists first, rest. split; [reflexivity|].
    assert (In first (first :: rest)) as H by now left.
    rewrite <- E in H. apply List.filter_In in H as [H1 H2].
    split; [exact H1 | now apply String.eqb_eq].
Qed.

(** *** The average: a quotient rounded twice *)

Section Rounding.
Local Open Scope Z_scope.

Lemma weight_fuel_spec fuel n :
  1 <= n < 2 ^ Z.of_nat fuel ->
  0 <= Pg.weight_fuel fuel n
  /\ 10000 ^ Pg.weight_fuel fuel n <= n < 10000 ^ (Pg.weight_fuel fuel n + 1).
Proof.
  revert n. induction fuel as [|fuel IH]; intros n Hn.
  - simpl in Hn. lia.
  - cbn [Pg.weight_fuel]. destruct (Z.ltb_spec n 10000) as [Hlt|Hge].
    + simpl. lia.
    + assert (Hq : 1 <= n / 10000 < 2 ^ Z.of_nat fuel).
      { split; [apply Z.div_le_lower_bound; lia|].
        apply Z.div_lt_upper_bound; [lia|].
        rewrite Nat2Z.inj_succ, Z.pow_succ_r in Hn by lia. lia. }
      destruct (IH _ Hq) as (Hw & Hlo & Hhi).
      set (w := Pg.weight_fuel fuel (n / 10000)) in *.
      split; [lia|].
      replace (1 + w + 1) with (Z.succ (w + 1)) by lia.
      replace (1 + w) with (Z.succ w) by lia.
      rewrite !Z.pow_succ_r by lia.
      pose proof (Z.mul_div_le n 10000 ltac:(lia)).
      pose proof (Z.mul_succ_div_gt n 10000 ltac:(lia)).
      lia.
Qed.

Lemma weight_spec n :
  1 <= n ->
  0 <= Pg.weight n /\ 10000 ^ Pg.weight n <= n < 10000 ^ (Pg.weight n + 1).
Proof.
  intros Hn. apply weight_fuel_spec. split; [exact Hn|].
  rewrite Nat2Z.inj_succ, Z2Nat.id by apply Z.log2_nonneg.
  apply Z.log2_spec. lia.
Qed.

Lemma first_digit_spec n :
  1 <= n ->
  1 <= Pg.first_digit n < 10000
  /\ Pg.first_digit n * 10000 ^ Pg.weight n <= n
     < (Pg.first_digit n + 1) * 10000 ^ Pg.weight n.
Proof.
  intros Hn. destruct (weight_spec n Hn) as (Hw & Hlo & Hhi).
  unfold Pg.first_digit. set (w := Pg.weight n) in *.
  assert (Hp : 0 < 10000 ^ w) by (apply Z.pow_pos_nonneg; lia).
  rewrite Z.pow_add_r in Hhi by lia. change (10000 ^ 1) with 10000 in Hhi.
  split; [split|split].
  - apply Z.div_le_lower_bound; lia.
  - apply Z.div_lt_upper_bound; lia.
  - rewrite Z.mul_comm. now apply Z.mul_div_le.
  - rewrite Z.mul_comm. now apply Z.mul_succ_div_gt.
Qed.

(** The scale leaves at least 16 significant digits. *)
Lemma select_div_scale_spec a b :
  1 <= a -> 1 <= b ->
  0 <= Pg.select_div_scale a b
  /\ 10 ^ 16 * b <= a * 10 ^ Pg.select_div_scale a b.
Proof.
  intros Ha Hb. unfold Pg.select_div_scale.
  destruct (weight_spec a Ha) as (Hw1 & _).
  destruct (weight_spec b Hb) as (Hw2 & _).
  destruct (first_digit_spec a Ha) as ((Hf1 & Hf1') & Hlo1 & _).
  destruct (first_digit_spec b Hb) as ((Hf2 & Hf2') & _ & Hhi2).
  set (w1 := Pg.weight a) in *. set (w2 := Pg.weight b) in *.
  set (f1 := Pg.first_digit a) in *. set (f2 := Pg.first_digit b) in *.
  split; [lia|].
  assert (H1 : 0 < 10000 ^ w1) by (apply Z.pow_pos_nonneg; lia).
  assert (H2 : 0 < 10000 ^ w2) by (apply Z.pow_pos_nonneg; lia).
  (* a * 10000 ^ u >= b * 10000 ^ w1, where the quotient weight is w1 - u *)
  assert (K : exists u, 0 <= u
                /\ (if f1 <=? f2 then w1 - w2 - 1 else w1 - w2) = w1 - u
                /\ b * 10000 ^ w1 <= a * 10000 ^ u).
  { destruct (Z.leb_spec f1 f2) as [Hle|Hgt].
    - exists (w2 + 1). split; [lia|]. split; [lia|].
      rewrite Z.pow_add_r by lia. change (10000 ^ 1) with 10000. nia.
    - exists w2. split; [lia|]. split; [lia|]. nia. }
  destruct K as (u & Hu & -> & K).
  assert (Hpu : 0 < 10 ^ (4 * u)) by (apply Z.pow_pos_nonneg; lia).
  assert (Hpw : 0 < 10 ^ (4 * w1)) by (apply Z.pow_pos_nonneg; lia).
  assert (E : forall z, 0 <= z -> 10000 ^ z = 10 ^ (4 * z)).
  { intros z Hz. change 10000 with (10 ^ 4). now rewrite <- Z.pow_mul_r by lia. }
  rewrite !E in K by lia.
  destruct (Z.max_spec (16 - (w1 - u) * 4) 0) as [[Hc ->]|[Hc ->]].
  - (* the scale is 0 *)
    rewrite Z.pow_0_r, Z.mul_1_r.
    assert (Hsplit : 10 ^ (4 * w1) = 10 ^ 16 * 10 ^ (4 * u) * 10 ^ (4 * w1 - 16 - 4 * u)).
    { rewrite <- !Z.pow_add_r by lia. f_equal. lia. }
    assert (Hr : 1 <= 10 ^ (4 * w1 - 16 - 4 * u))
      by (apply (Z.pow_le_mono_r 10 0); lia).
    rewrite Hsplit in K.
    apply (Z.mul_le_mono_pos_r _ _ (10 ^ (4 * u))); [exact Hpu|].
    nia.
  - apply (Z.mul_le_mono_pos_r _ _ (10 ^ (4 * w1))); [exact Hpw|].
    rewrite <- (Z.mul_assoc a), <- Z.pow_add_r by lia.
    replace (16 - (w1 - u) * 4 + 4 * w1) with (4 * u + 16) by lia.
    rewrite Z.pow_add_r by lia. nia.
Qed.

(** Rounding to the nearest integer is off by at most a half. *)
Lemma div_round_spec a b :
  0 <= a -> 0 < b ->
  let P := (2 * a + b) / (2 * b) in
  0 <= P /\ - b <= 2 * (P * b - a) <= b.
Proof.
  intros Ha Hb P.
  pose proof (Z.mul_div_le (2 * a + b) (2 * b) ltac:(lia)).
  pose proof (Z.mul_succ_div_gt (2 * a + b) (2 * b) ltac:(lia)).
  assert (0 <= P) by (apply Z.div_pos; lia).
  fold P in H, H0. lia.
Qed.

Lemma round_half_even_spec n d :
  0 <= n -> 0 < d ->
  let m := Js.round_half_even n d in
  0 <= m /\ - d <= 2 * (m * d - n) <= d.
Proof.
  intros Hn Hd. unfold Js.round_half_even.
  pose proof (Z.div_mod n d ltac:(lia)) as E.
  pose proof (Z.mod_pos_bound n d Hd) as Hr.
  assert (0 <= n / d) by (apply Z.div_pos; lia).
  destruct (Z.ltb_spec (2 * (n mod d)) d);
    [|destruct (Z.ltb_spec d (2 * (n mod d))); [|destruct (Z.even (n / d))]];
    cbv zeta; nia.
Qed.

Lemma exponent_spec n d :
  1 <= n -> 1 <= d ->
  let e := Js.exponent n d in
  d * 2 ^ Z.max e 0 * 2 ^ 52 <= n * 2 ^ Z.max (- e) 0.
Proof.
  intros Hn Hd. unfold Js.exponent.
  set (l0 := Z.log2 n - Z.log2 d).
  assert (Hl : exists l,
             (if d * 2 ^ Z.max l0 0 <=? n * 2 ^ Z.max (- l0) 0
              then l0 else l0 - 1) = l
             /\ d * 2 ^ Z.max l 0 <= n * 2 ^ Z.max (- l) 0).
  { destruct (Z.leb_spec (d * 2 ^ Z.max l0 0) (n * 2 ^ Z.max (- l0) 0))
      as [H|_]; [now exists l0|].
    exists (l0 - 1). split; [reflexivity|].
    destruct (Z.log2_spec n ltac:(lia)) as [Hn1 _].
    destruct (Z.log2_spec d ltac:(lia)) as [_ Hd2].
    pose proof (Z.log2_nonneg n). pose proof (Z.log2_nonneg d).
    destruct (Z.le_gt_cases 0 (l0 - 1)) as [Hpos|Hneg].
    - rewrite Z.max_l, Z.max_r, Z.pow_0_r by lia.
      assert (2 ^ Z.log2 n = 2 ^ Z.succ (Z.log2 d) * 2 ^ (l0 - 1)) as E.
      { rewrite <- Z.pow_add_r by lia. f_equal. lia. }
      assert (0 < 2 ^ (l0 - 1)) by (apply Z.pow_pos_nonneg; lia).
      nia.
    - rewrite Z.max_r, Z.max_l, Z.pow_0_r by lia.
      assert (2 ^ Z.succ (Z.log2 d) = 2 ^ Z.log2 n * 2 ^ (- (l0 - 1))) as E.
      { rewrite <- Z.pow_add_r by lia. f_equal. lia. }
      assert (0 < 2 ^ (- (l0 - 1))) by (apply Z.pow_pos_nonneg; lia).
      nia. }
  destruct Hl as (l & -> & Hl). cbv zeta.
  destruct (Z.le_gt_cases 0 (l - 52)) as [He|He].
  - rewrite (Z.max_l (l - 52)), (Z.max_r (- (l - 52))), Z.pow_0_r by lia.
    rewrite Z.max_l, Z.max_r, Z.pow_0_r in Hl by lia.
    rewrite <- Z.mul_assoc, <- Z.pow_add_r by lia.
    now replace (l - 52 + 52) with l by lia.
  - rewrite (Z.max_r (l - 52)), (Z.max_l (- (l - 52))), Z.pow_0_r by lia.
    destruct (Z.le_gt_cases 0 l) as [Hpos|Hneg].
    + rewrite Z.max_l, Z.max_r, Z.pow_0_r in Hl by lia.
      assert (2 ^ 52 = 2 ^ l * 2 ^ (- (l - 52))) as ->.
      { rewrite <- Z.pow_add_r by lia. f_equal. lia. }
      assert (0 < 2 ^ (- (l - 52))) by (apply Z.pow_pos_nonneg; lia).
      nia.
    + rewrite Z.max_r, Z.max_l, Z.pow_0_r in Hl by lia.
      assert (2 ^ (- (l - 52)) = 2 ^ (- l) * 2 ^ 52) as ->.
      { rewrite <- Z.pow_add_r by lia. f_equal. lia. }
      nia.
Qed.

(** The double nearest to a positive [n / d], as [M / S]: off by at most
    one part in [2 ^ 53]. *)
Lemma Number_spec n d :
  1 <= n -> 1 <= d ->
  let e := Js.exponent n d in
  let M := Js.significand n d * 2 ^ Z.max e 0 in
  let S := 2 ^ Z.max (- e) 0 in
  0 < S /\ 0 <= M /\ - (n * S) <= 2 ^ 53 * (M * d - n * S) <= n * S.
Proof.
  intros Hn Hd e M S.
  pose proof (exponent_spec n d Hn Hd) as He. cbv zeta in He. fold e in He.
  assert (HS : 0 < S) by (apply Z.pow_pos_nonneg; lia).
  assert (HE : 0 < 2 ^ Z.max e 0) by (apply Z.pow_pos_nonneg; lia).
  destruct (round_half_even_spec (n * S) (d * 2 ^ Z.max e 0))
    as [Hm Hr]; [nia | nia |].
  fold S in He. unfold M, Js.significand. fold e. fold S.
  set (m := Js.round_half_even _ _) in *.
  set (X := 2 ^ Z.max e 0) in *. clearbody m X S.
  split; [exact HS|]. split; [nia|]. lia.
Qed.

Lemma average_Z (a b : Z) :
  1 <= a -> 1 <= b ->
  let T := 10 ^ Pg.select_div_scale a b in
  let P := (2 * (a * T) + b) / (2 * b) in
  let e := Js.exponent P T in
  let M := Js.significand P T * 2 ^ Z.max e 0 in
  let S := 2 ^ Z.max (- e) 0 in
  0 < T /\ 1 <= P /\ 0 < S /\ 0 <= M
  /\ Z.abs (M * b - a * S) * 10 ^ 15 <= a * S.
Proof.
  intros Ha Hb T P e M S.
  destruct (select_div_scale_spec a b Ha Hb) as [HR HT].
  fold T in HT.
  assert (HT0 : 0 < T) by (apply Z.pow_pos_nonneg; lia).
  destruct (div_round_spec (a * T) b) as [HP0 HP]; [nia | lia |].
  fold P in HP0, HP.
  assert (HP1 : 1 <= P) by nia.
  destruct (Number_spec P T HP1) as (HS & HM & HMS); [lia|].
  fold e in HS, HM, HMS. fold M in HM, HMS. fold S in HS, HMS.
  clearbody T P M S. clear e.
  split; [exact HT0|]. split; [exact HP1|]. split; [exact HS|].
  split; [exact HM|].
  (* everything times T, in the monomials b M T, b P S, a S T and b S *)
  apply (Z.mul_le_mono_pos_r _ _ T); [exact HT0|].
  assert (F3 : - (b * P * S) <= 2 ^ 53 * (b * M * T - b * P * S) <= b * P * S)
    by nia.
  assert (F1 : - (b * S) <= 2 * (b * P * S - a * S * T) <= b * S) by nia.
  assert (F2 : 10 ^ 16 * (b * S) <= a * S * T) by nia.
  assert (E : (M * b - a * S) * T = b * M * T - a * S * T) by ring.
  assert (Hab : Z.abs (M * b - a * S) * T = Z.abs (b * M * T - a * S * T))
    by (rewrite <- E, Z.abs_mul, (Z.abs_eq T); lia).
  replace (Z.abs (M * b - a * S) * 10 ^ 15 * T)
    with (Z.abs (M * b - a * S) * T * 10 ^ 15) by ring.
  rewrite Hab.
  set (X := b * M * T) in *. set (W := b * P * S) in *.
  set (U := a * S * T) in *. set (V := b * S) in *.
  clearbody X W U V. lia.
Qed.

Lemma rounds_Qred (q x : Q) : rounds q x -> rounds (Qred q) x.
Proof. unfold rounds. now rewrite Qred_correct. Qed.

Lemma close_fractions (M S a b : Z) :
  0 < S -> 0 < b ->
  Z.abs (M * b - a * S) * 10 ^ 15 <= Z.abs a * S ->
  rounds (Qmake M (Z.to_pos S)) (inject_Z a / inject_Z b).
Proof.
  intros HS Hb H. unfold rounds.
  assert (Hx : (inject_Z a / inject_Z b == Qmake a (Z.to_pos b))%Q).
  { rewrite Qmake_Qdiv. now rewrite Z2Pos.id. }
  rewrite Hx.
  unfold Qle, Qabs, Qminus, Qplus, Qopp, Qmult. cbn [Qnum Qden].
  rewrite !Pos2Z.inj_mul, !Z2Pos.id by lia.
  replace (M * b + - a * S) with (M * b - a * S) by ring.
  change (Z.pos 1000000000000000) with (10 ^ 15).
  nia.
Qed.

Lemma Number_numeric_div_rounds (a b : Z) :
  0 < b ->
  rounds (Js.Number (Pg.numeric_div a b)) (inject_Z a / inject_Z b).
Proof.
  intros Hb. unfold Pg.numeric_div, Js.Number. cbn [Qnum Qden].
  destruct (Z.lt_trichotomy a 0) as [Ha|[->|Ha]].
  - destruct (average_Z (- a) b ltac:(lia) ltac:(lia))
      as (HT & HP & HS & HM & H).
    rewrite (Z.abs_neq a), (Z.sgn_neg a) by lia.
    set (T := 10 ^ _) in *. set (P := _ / _) in *.
    rewrite Z2Pos.id by lia.
    replace (Z.abs (-1 * P)) with P by lia.
    replace (Z.sgn (-1 * P)) with (-1) by lia.
    destruct (Z.eqb_spec P 0); [lia|].
    apply rounds_Qred, close_fractions; [exact HS | exact Hb |].
    rewrite (Z.abs_neq a) by lia.
    set (M := _ * 2 ^ _) in *. set (S := 2 ^ _) in *.
    replace (-1 * M * b - a * S) with (- (M * b - - a * S)) by ring.
    now rewrite Z.abs_opp.
  - cbn. unfold rounds. now cbn.
  - destruct (average_Z a b ltac:(lia) ltac:(lia))
      as (HT & HP & HS & HM & H).
    rewrite (Z.abs_eq a), (Z.sgn_pos a) by lia.
    set (T := 10 ^ _) in *. set (P := _ / _) in *.
    rewrite Z2Pos.id by lia.
    replace (Z.abs (1 * P)) with P by lia.
    replace (Z.sgn (1 * P)) with 1 by lia.
    destruct (Z.eqb_spec P 0); [lia|].
    apply rounds_Qred, close_fractions; [exact HS | exact Hb |].
    rewrite (Z.abs_eq a) by lia.
    set (M := _ * 2 ^ _) in *. set (S := 2 ^ _) in *.
    now replace (1 * (M) * b - a * S) with (M * b - a * S) by ring.
Qed.

End Rounding.

Lemma approved_review_of_spec id v :
  Storage.approved_review_of id v
  = bool_decide (Review.recipeId v = id /\ Review.isApproved v = Some true).
Proof.
  unfold Storage.approved_review_of, Drizzle.eq_bool.
  destruct (String.eqb_spec (Review.recipeId v) id) as [E|E];
    destruct (Review.isApproved v) as [[]|]; simpl; symmetry;
    first [apply bool_decide_eq_true; now split
          | apply bool_decide_eq_false; now intros []].
Qed.

Lemma filter_approved id db :
  List.filter (Storage.approved_review_of id) (reviews db)
  = approved_reviews id db.
Proof. apply List.filter_ext, approved_review_of_spec. Qed.


Lemma sum_ratings_fold l :
  Storage.sum_ratings l
  = List.fold_right Z.add 0%Z (List.map Review.rating l).
Proof. induction l as [|v l IH]; simpl; [reflexivity | now rewrite <- IH]. Qed.

(** The average of a list that is not empty is its mean, rounded. *)
Lemma avg_rounds (l : list Review.t) :
  l <> [] ->
  exists text,
    Storage.avg l = Some text
    /\ rounds (Js.Number text) (mean (List.map Review.rating l)).
Proof.
  destruct l as [|v l]; [congruence|]. intros _.
  eexists. split; [reflexivity|].
  unfold mean. rewrite List.length_map, <- sum_ratings_fold.
  apply Number_numeric_div_rounds. simpl length. lia.
Qed.




(** The example of the specification, run: the ratings 3 and 5 give the
    average 4. *)
Lemma average_of_3_and_5 :
  exists found,
    Storage.getRecipe "r1" Sample.db = (Sample.db, Return (Some found))
    /\ RecipeWithReviews.averageRating found = 4%Q.
Proof. eexists. split; reflexivity. Qed.

(** C10.  The single-recipe route is public and does not look at
    [isApproved]: whenever a recipe has the requested id, the answer is 200
    with a stored recipe of that id (the recipe itself, ids being unique),
    whoever asks and whatever its approval flag.  The featured list and the
    unfiltered list, by contrast, hold approved recipes only. *)
Theorem C10_fetch_ignores_approval (req : Request) (db : Db) (r : Recipe.t) :
  In r (recipes db) -> Recipe.id r = params_id req ->
  (exists found,
     Routes.get_recipe req db
     = (db, Return (mkResponse 200 (JRecipeWithReviews found)))
     /\ In (RecipeWithReviews.recipe found) (recipes db)
     /\ Recipe.id (RecipeWithReviews.recipe found) = params_id req
     /\ (unique_ids Recipe.id (recipes db) ->
         RecipeWithReviews.recipe found = r))
  /\ (forall rows, Storage.getFeaturedRecipes db = (db, Return rows) ->
                   Forall (fun row => approved (fst row)) rows)
  /\ (forall limit offset rows,
        Storage.getRecipes limit offset no_filters db = (db, Return rows) ->
        Forall (fun row => approved (fst row)) rows).
Proof.
  intros Hin Hid. split; [|split].
  - destruct (filter_id_cons Recipe.id _ _ r Hin Hid)
      as (first & rest & E & Hfirst & Hfid).
    unfold Routes.get_recipe, try_catch, await, respond, resolve.
    rewrite getRecipe_unfold, E. eexists. split; [reflexivity|].
    cbn [RecipeWithReviews.recipe]. repeat split; [exact Hfirst|exact Hfid|].
    intros Hu. rewrite <- Hid in E.
    rewrite (filter_by_id_unique Recipe.id _ r Hu Hin) in E. congruence.
  - apply getFeaturedRecipes_approved.
  - intros limit offset rows. apply getRecipes_unfiltered_approved.
Qed.

(** C10 at the unapproved sample recipe "r3", fetched without a session. *)
Lemma C10_witness :
  Recipe.isApproved Sample.draft = Some false
  /\ exists found,
       Routes.get_recipe (mkRequest None "r3" ∅) Sample.db
       = (Sample.db, Return (mkResponse 200 (JRecipeWithReviews found)))
       /\ RecipeWithReviews.recipe found = Sample.draft.
Proof.
  split; [reflexivity|].
  destruct (C10_fetch_ignores_approval (mkRequest None "r3" ∅) Sample.db
              Sample.draft) as [(found & Hf & _ & _ & Hu) _].
  - simpl. auto.
  - reflexivity.
  - exists found. split; [exact Hf|]. apply Hu. unique_ids_by_computation.
Defined.

(** ** Creating a review *)

(** Parsing reads the five keys of the shape and nothing else. *)
Lemma insertReviewSchema_parse_ext (o1 o2 : JsObj) :
  Zod.get o1 "recipeId" = Zod.get o2 "recipeId" ->
  Zod.get o1 "userId" = Zod.get o2 "userId" ->
  Zod.get o1 "rating" = Zod.get o2 "rating" ->
  Zod.get o1 "comment" = Zod.get o2 "comment" ->
  Zod.get o1 "isApproved" = Zod.get o2 "isApproved" ->
  Zod.insertReviewSchema_parse o1 = Zod.insertReviewSchema_parse o2.
Proof.
  intros H1 H2 H3 H4 H5. unfold Zod.insertReviewSchema_parse.
  now rewrite H1, H2, H3, H4, H5.
Qed.

(** What parsing returns for the two id keys is what the object holds. *)
Lemma insertReviewSchema_parse_ids (o : JsObj) data :
  Zod.insertReviewSchema_parse o = Return data ->
  Zod.get o "recipeId" = JsString (InsertReview.recipeId data)
  /\ Zod.get o "userId" = JsString (InsertReview.userId data).
Proof.
  unfold Zod.insertReviewSchema_parse, Zod.string_.
  destruct (Zod.get o "recipeId"), (Zod.get o "userId");
    try discriminate;
    destruct (Zod.rating_ _ _), (Zod.optional _ "comment" _),
             (Zod.optional _ "isApproved" _);
    try discriminate; intros [= <-]; split; reflexivity.
Qed.

(** The object the create route validates: the body with the path's recipe
    id and the session's user id written over it. *)
Lemma review_object_ids (b : JsObj) recipeId sub :
  let o := <["userId" := JsString sub]>
             (<["recipeId" := JsString recipeId]> b) in
  Zod.get o "recipeId" = JsString recipeId
  /\ Zod.get o "userId" = JsString sub
  /\ forall key : string,
       key <> "userId" -> key <> "recipeId" -> Zod.get o key = Zod.get b key.
Proof.
  unfold Zod.get. repeat split.
  - rewrite lookup_insert_ne by discriminate. now rewrite lookup_insert_eq.
  - now rewrite lookup_insert_eq.
  - intros key H1 H2. now rewrite !lookup_insert_ne by congruence.
Qed.

(** A stored review is the parsed data plus the generated columns. *)
Lemma createReview_returns env data db db' review :
  Storage.createReview env data db = (db', Return review) ->
  Review.userId review = InsertReview.userId data
  /\ Review.recipeId review = InsertReview.recipeId data
  /\ reviews db' = (reviews db ++ [review])%list.
Proof.
  unfold Storage.createReview.
  destruct (Storage.as_integer _); [|discriminate].
  destruct (Storage.has_id Review.id _ _); [discriminate|].
  destruct (Storage.has_id Recipe.id _ _); [|discriminate].
  destruct (Storage.has_id User.id _ _); [|discriminate].
  simpl. intros [= <- <-]. repeat split; reflexivity.
Qed.

Lemma create_review_unfold env req db sub :
  user req = Some sub ->
  Routes.create_review env req db
  = match Zod.insertReviewSchema_parse
            (<["userId" := JsString sub]>
               (<["recipeId" := JsString (params_id req)]> (body req))) with
    | Return data =>
        match Storage.createReview env data db with
        | (db', Return review) =>
            (db', Return (mkResponse 200 (JReview review)))
        | (db', Throw e) => Routes.zod_or "Failed to create review" e db'
        end
    | Throw e => Routes.zod_or "Failed to create review" e db
    end.
Proof.
  intros Hu. unfold Routes.create_review. simpl.
  unfold Routes.isAuthenticated, Routes.claims_sub. rewrite Hu.
  unfold await, try_catch, next, resolve, query, respond.
  destruct (Zod.insertReviewSchema_parse _); [|reflexivity].
  destruct (Storage.createReview env a db) as [db' [review|e]]; reflexivity.
Qed.

Lemma zod_or_status message e db db' res review :
  Routes.zod_or message e db = (db', Return res) -> json res <> JReview review.
Proof.
  unfold Routes.zod_or, respond, resolve.
  destruct e; intros [= _ <-]; discriminate.
Qed.

(** C9.  A review created by an authenticated caller carries the caller's
    session identity as [userId] and the path's recipe id as [recipeId],
    and it is the row appended to the table; and two requests of the same
    caller on the same path whose bodies differ only under the keys
    [userId] and [recipeId] have the same outcome. *)
Theorem C9_review_ids_come_from_session_and_path
    (env : Env) (req : Request) (db : Db) (sub : string) :
  user req = Some sub ->
  (forall db' res review,
     Routes.create_review env req db = (db', Return res) ->
     json res = JReview review ->
     Review.userId review = sub
     /\ Review.recipeId review = params_id req
     /\ reviews db' = (reviews db ++ [review])%list)
  /\ (forall body' : JsObj,
        same_but_ids (body req) body' ->
        Routes.create_review env (mkRequest (user req) (params_id req) body')
          db
        = Routes.create_review env req db).
Proof.
  intros Hu. split.
  - intros db' res review. rewrite (create_review_unfold env req db sub Hu).
    destruct (review_object_ids (body req) (params_id req) sub)
      as (Hr & Hs & _).
    destruct (Zod.insertReviewSchema_parse _) as [data|e] eqn:Hparse.
    + apply insertReviewSchema_parse_ids in Hparse as [Hr' Hs'].
      rewrite Hr in Hr'. rewrite Hs in Hs'.
      injection Hr' as Hr'. injection Hs' as Hs'.
      destruct (Storage.createReview env data db) as [db1 [stored|e]] eqn:Hc.
      * intros [= <- <-] [= <-].
        apply createReview_returns in Hc as (H1 & H2 & H3).
        repeat split; congruence.
      * intros H Hj. now apply zod_or_status with (review := review) in H.
    + intros H Hj. now apply zod_or_status with (review := review) in H.
  - intros body' Hsame.
    rewrite (create_review_unfold env req db sub Hu).
    rewrite (create_review_unfold env
               (mkRequest (user req) (params_id req) body') db sub Hu).
    cbn [params_id body].
    destruct (review_object_ids (body req) (params_id req) sub)
      as (Hr & Hs & Ho).
    destruct (review_object_ids body' (params_id req) sub)
      as (Hr' & Hs' & Ho').
    assert (Hget : forall key : string,
               key <> "userId" -> key <> "recipeId" ->
               Zod.get body' key = Zod.get (body req) key).
    { intros key H1 H2. unfold Zod.get. now rewrite (Hsame key H1 H2). }
    erewrite insertReviewSchema_parse_ext; [reflexivity|..].
    + now rewrite Hr, Hr'.
    + now rewrite Hs, Hs'.
    + rewrite Ho, Ho' by discriminate. now apply Hget.
    + rewrite Ho, Ho' by discriminate. now apply Hget.
    + rewrite Ho, Ho' by discriminate. now apply Hget.
Qed.

(** C9 at a request of "alice" on recipe "r1" whose body names "bob" and
    "r2": the review is stored for "alice" and "r1", exactly as it is for
    the body without those two keys. *)
Lemma C9_witness :
  let forged : JsObj :=
    <["userId" := JsString "bob"]>
      (<["recipeId" := JsString "r2"]> {["rating" := JsNumber 4]}) in
  (exists db' review,
     Routes.create_review Sample.env (Sample.as_ "alice" "r1" forged)
       Sample.db
     = (db', Return (mkResponse 200 (JReview review)))
     /\ Review.userId review = "alice"
     /\ Review.recipeId review = "r1"
     /\ reviews db' = (reviews Sample.db ++ [review])%list)
  /\ Routes.create_review Sample.env
       (Sample.as_ "alice" "r1" {["rating" := JsNumber 4]}) Sample.db
     = Routes.create_review Sample.env (Sample.as_ "alice" "r1" forged)
         Sample.db.
Proof.
  intros forged.
  destruct (C9_review_ids_come_from_session_and_path Sample.env
              (Sample.as_ "alice" "r1" forged) Sample.db "alice" eq_refl)
    as [Hids Hsame].
  split.
  - eexists _, _. split; [reflexivity|]. eapply Hids; reflexivity.
  - apply (Hsame {["rating" := JsNumber 4]}).
    intros key H1 H2. unfold forged. cbn [body Sample.as_].
    now rewrite !lookup_insert_ne by congruence.
Defined.

(** ** Deleting and updating somebody else's recipe or review *)

Lemma unique_ids_inj {R} (id_of : R -> string) (rows : list R) a b :
  unique_ids id_of rows -> In a rows -> In b rows ->
  id_of a = id_of b -> a = b.
Proof.
  intros Hu Ha Hb E.
  pose proof (filter_by_id_unique id_of rows a Hu Ha) as Hf.
  assert (In b [a]) as [H|[]]; [|now symmetry].
  rewrite <- Hf. apply List.filter_In. split; [exact Hb|].
  now apply String.eqb_eq.
Qed.

Lemma filter_none {R} (f : R -> bool) (l : list R) :
  (forall x, In x l -> f x = false) ->
  List.filter f l = [] /\ List.filter (fun x => negb (f x)) l = l.
Proof.
  induction l as [|x l IH]; [split; reflexivity|]. intros H. simpl.
  rewrite (H x) by now left. simpl.
  destruct IH as [IH1 IH2]; [intros y Hy; apply H; now right|].
  split; [exact IH1 | now rewrite IH2].
Qed.

(** Nobody but its author owns a review. *)
Lemma not_owned db v id sub :
  unique_ids Review.id (reviews db) -> In v (reviews db) ->
  Review.id v = id -> Review.userId v <> sub ->
  forall v', In v' (reviews db) -> Storage.owned_review id sub v' = false.
Proof.
  intros Hu Hv Hid Hne v' Hv'. unfold Storage.owned_review.
  destruct (String.eqb_spec (Review.id v') id) as [E|E]; [|reflexivity].
  assert (v' = v) as ->.
  { apply (unique_ids_inj Review.id (reviews db)); congruence. }
  simpl. now apply String.eqb_neq.
Qed.

Lemma with_reviews_same db : Storage.with_reviews db (reviews db) = db.
Proof. now destruct db. Qed.

Lemma same_rows_step db : same_rows db (Storage.step db).
Proof. repeat split. Qed.

Lemma same_rows_refl db : same_rows db db.
Proof. repeat split. Qed.

(** An update that no row answers to changes nothing: it fails while its
    parameters are bound, or it matches no row and returns none. *)
Lemma updateReview_no_match env id sub updates db :
  (forall v, In v (reviews db) -> Storage.owned_review id sub v = false) ->
  Storage.updateReview env id sub updates db
  = (Storage.step db,
     match PartialInsertReview.rating updates with
     | Some q =>
         match Storage.as_integer q with
         | Some _ => Return None
         | None => Throw (DbError "invalid input syntax for type integer")
         end
     | None => Return None
     end).
Proof.
  intros H. destruct (filter_none _ _ H) as [Hnone _].
  assert (Hmap : forall f : Review.t -> Review.t,
            List.map (fun r => if Storage.owned_review id sub r then f r else r)
                     (reviews db) = reviews db).
  { intros f. rewrite <- (List.map_id (reviews db)) at 2.
    apply List.map_ext_in. intros r Hr. now rewrite (H r Hr). }
  unfold Storage.updateReview. rewrite Hnone. simpl.
  destruct (PartialInsertReview.rating updates) as [q|].
  - destruct (Storage.as_integer q); [|reflexivity].
    now rewrite Hmap, with_reviews_same.
  - now rewrite Hmap, with_reviews_same.
Qed.

Lemma update_review_unfold env req db sub :
  user req = Some sub ->
  Routes.update_review env req db
  = match Zod.insertReviewSchema_partial_parse (body req) with
    | Return updates =>
        match Storage.updateReview env (params_id req) sub updates db with
        | (db', Return (Some review)) =>
            (db', Return (mkResponse 200 (JReview review)))
        | (db', Return None) =>
            (db', Return (mkResponse 404
                            (JMessage "Review not found or not authorized")))
        | (db', Throw e) => Routes.zod_or "Failed to update review" e db'
        end
    | Throw e => Routes.zod_or "Failed to update review" e db
    end.
Proof.
  intros Hu. unfold Routes.update_review. simpl.
  unfold Routes.isAuthenticated, Routes.claims_sub. rewrite Hu.
  unfold await, try_catch, next, resolve, query, respond.
  destruct (Zod.insertReviewSchema_partial_parse _); [|reflexivity].
  destruct (Storage.updateReview env _ sub a db) as [db' [[review|]|e]];
    reflexivity.
Qed.

(** Validation throws validation errors only. *)
Lemma partial_parse_throws (o : JsObj) e :
  Zod.insertReviewSchema_partial_parse o = Throw e ->
  exists errors, e = ZodError errors.
Proof.
  unfold Zod.insertReviewSchema_partial_parse.
  destruct (Zod.optional Zod.string_ "recipeId" _),
           (Zod.optional Zod.string_ "userId" _),
           (Zod.optional Zod.rating_ "rating" _),
           (Zod.optional _ "comment" _),
           (Zod.optional _ "isApproved" _);
    try discriminate; intros [= <-]; eexists; reflexivity.
Qed.

(** C5 (code defect).  The claim fails on the review routes.  "bob", a
    stored user with the role "user", asks to delete and to update the
    review "v1", which "alice" wrote: both times the answer is 404, not
    403, and so it is for the admin "root" - the delete handler fetches
    the caller's user and never looks at it.  The sibling route does what the claim says: bob's
    attempt to delete the recipe "r1" of "alice" is answered 403.  Nothing
    stored changes in any of these. *)
Theorem C5_strangers_on_reviews_get_not_found :
  In Sample.v1 (reviews Sample.db)
  /\ Review.userId Sample.v1 = "alice"
  /\ In Sample.bob (users Sample.db)
  /\ User.role Sample.bob = Some "user"
  /\ Routes.delete_review (Sample.as_ "bob" "v1" ∅) Sample.db
     = (Sample.db,
        Return (mkResponse 404
                  (JMessage "Review not found or not authorized")))
  /\ Routes.delete_review (Sample.as_ "root" "v1" ∅) Sample.db
     = (Sample.db,
        Return (mkResponse 404
                  (JMessage "Review not found or not authorized")))
  /\ (exists db',
        Routes.update_review Sample.env
          (Sample.as_ "bob" "v1" {["rating" := JsNumber 1]}) Sample.db
        = (db',
           Return (mkResponse 404
                     (JMessage "Review not found or not authorized")))
        /\ same_rows Sample.db db')
  /\ Routes.delete_recipe (Sample.as_ "bob" "r1" ∅) Sample.db
     = (Sample.db,
        Return (mkResponse 403
                  (JMessage "Not authorized to delete this recipe"))).
Proof.
  split; [simpl; auto|]. split; [reflexivity|]. split; [simpl; auto|].
  split; [reflexivity|]. split; [reflexivity|]. split; [reflexivity|].
  split; [|reflexivity].
  eexists. split; [reflexivity|]. now repeat split.
Qed.

(** ** Generated recipes and their images *)












(** A candidate whose cooking time does not fit the column is refused by
    the database, in the [try] branch and again in the [catch] branch of
    the loop: the request is answered 500. *)
Lemma generate_out_of_range_fails :
  let stock :=
    GeneratedRecipe.mk "Stock" "Slow" [] [] 2147483648 "easy" "french" 4 in
  let env :=
    mkEnv Sample.uuid (fun n => Z.of_nat n) (fun _ => Return [])
      (fun _ _ => Return [stock]) in
  ~ storable stock
  /\ exists db',
       Routes.generate_from_ingredients env
         (Sample.as_ "alice" "" Sample.egg_and_flour) Sample.db
       = (db', Return (mkResponse 500 (JMessage "Failed to generate recipes")))
       /\ recipes db' = recipes Sample.db.
Proof.
  intros stock env. split.
  - unfold storable, fits_int4. simpl. lia.
  - eexists. split; reflexivity.
Qed.

(** The same scenario, run: three recipes come back, the second with the
    empty image reference, the others with the generated one. *)
Lemma generate_scenario_runs :
  exists db' saved,
    Routes.generate_from_ingredients Sample.env
      (Sample.as_ "alice" "" Sample.egg_and_flour) Sample.db
    = (db', Return (mkResponse 200 (JRecipes saved)))
    /\ List.map Recipe.name saved = ["Omelette"; "Pancakes"; "Egg noodles"]
    /\ List.map Recipe.imageUrl saved
       = [Some "https://img.example/1.png"; Some "";
          Some "https://img.example/1.png"]
    /\ image_fails Sample.env Sample.pancakes.
Proof.
  eexists _, _. split; [reflexivity|]. repeat split.
  now exists (JsError "429 rate limit").
Qed.

(** * More properties *)

(** ** Pages of a list query *)

Section WindowFacts.

Context {R : Type}.
Implicit Types (q : Drizzle.PgSelect R) (l : list R) (rel : R -> R -> Prop).

Lemma StronglySorted_skipn rel n l :
  StronglySorted rel l -> StronglySorted rel (List.skipn n l).
Proof.
  intros H. revert n. induction H as [|x l Hl IH Hx]; intros [|n]; simpl;
    try constructor; auto.
Qed.

Lemma StronglySorted_firstn rel n l :
  StronglySorted rel l -> StronglySorted rel (List.firstn n l).
Proof.
  intros H. revert n. induction H as [|x l Hl IH Hx]; intros [|n]; simpl;
    try constructor; auto.
  apply List.Forall_forall. intros y Hy. apply In_firstn in Hy.
  revert y Hy. now apply List.Forall_forall.
Qed.

Lemma window_sorted rel q l :
  StronglySorted rel l -> StronglySorted rel (Drizzle.window q l).
Proof.
  intros H. unfold Drizzle.window.
  destruct (Drizzle.config_offset q), (Drizzle.config_limit q) as [n|];
    try destruct (n <? 0)%Z;
    auto using StronglySorted_firstn, StronglySorted_skipn.
Qed.

Lemma window_length q l n :
  Drizzle.config_limit q = Some n -> (0 <= n)%Z ->
  (length (Drizzle.window q l) <= Z.to_nat n)%nat.
Proof.
  intros Hn Hpos. unfold Drizzle.window. rewrite Hn.
  destruct (Z.ltb_spec n 0); [lia|].
  rewrite List.length_firstn. lia.
Qed.

(** A statement runs exactly when its OFFSET is not negative. *)
Lemma execute_runs q :
  Drizzle.negative (Drizzle.config_offset q) = false ->
  Drizzle.execute q = Return (Drizzle.window q (Drizzle.ordered q)).
Proof. intros H. unfold Drizzle.execute. now rewrite H. Qed.

Lemma execute_refuses q :
  Drizzle.negative (Drizzle.config_offset q) = true ->
  exists e, Drizzle.execute q = Throw e.
Proof. unfold Drizzle.execute. intros ->. now eexists. Qed.

Lemma ordered_sorted q key :
  Drizzle.config_orderBy q = Some key ->
  StronglySorted (fun a b => (key b <= key a)%Z) (Drizzle.ordered q).
Proof.
  intros H. unfold Drizzle.ordered. rewrite H. apply sort_desc_sorted.
Qed.

(** Cutting a list at [a] and then at [b] more is cutting it at [a + b]. *)
Lemma firstn_add (a b : nat) l :
  List.firstn (a + b) l
  = (List.firstn a l ++ List.firstn b (List.skipn a l))%list.
Proof.
  revert l. induction a as [|a IH]; intros [|x l]; simpl;
    try reflexivity.
  - now rewrite List.firstn_nil.
  - now rewrite IH.
Qed.

Lemma skipn_add (a b : nat) l :
  List.skipn (a + b) l = List.skipn b (List.skipn a l).
Proof.
  revert l. induction a as [|a IH]; intros [|x l]; simpl;
    try reflexivity.
  - now rewrite List.skipn_nil.
  - apply IH.
Qed.

End WindowFacts.

(** The rows of the recipe list before it is cut into pages. *)
Lemma getRecipes_window limit offset filters db :
  (0 <= limit)%Z -> (0 <= offset)%Z ->
  Storage.getRecipes limit offset filters db
  = (db,
     Return
       (List.firstn (Z.to_nat limit)
          (List.skipn (Z.to_nat offset)
             (Drizzle.sort_desc (fun row => Recipe.createdAt (fst row))
                (List.filter (fun row => last_condition filters (fst row))
                   (Drizzle.leftJoin (recipes db) (users db)
                      Storage.recipe_user)))))).
Proof.
  intros Hl Ho. rewrite getRecipes_last_where. f_equal.
  rewrite execute_runs by (simpl; lia).
  unfold Drizzle.window. cbn. now destruct (Z.ltb_spec limit 0); [lia|].
Qed.

(** With a negative limit the list is not cut. *)
Lemma getRecipes_unlimited limit offset filters db :
  (limit < 0)%Z -> (0 <= offset)%Z ->
  Storage.getRecipes limit offset filters db
  = (db,
     Return
       (List.skipn (Z.to_nat offset)
          (Drizzle.sort_desc (fun row => Recipe.createdAt (fst row))
             (List.filter (fun row => last_condition filters (fst row))
                (Drizzle.leftJoin (recipes db) (users db)
                   Storage.recipe_user))))).
Proof.
  intros Hl Ho. rewrite getRecipes_last_where. f_equal.
  rewrite execute_runs by (simpl; lia).
  unfold Drizzle.window. cbn. now destruct (Z.ltb_spec limit 0); [|lia].
Qed.

(** X1.  [getRecipes] with an offset that is not negative writes nothing
    and returns rows newest first, each a stored recipe that passes the
    condition in force: at most [limit] of them when the limit is not
    negative; with a negative limit the LIMIT clause is left out, so that
    from offset 0 every stored recipe that passes the condition is
    listed.  With a negative offset the query throws. *)
Theorem getRecipes_page (limit offset : Z) (filters : Storage.Filters)
    (db : Db) :
  ((0 <= offset)%Z ->
   exists rows,
     Storage.getRecipes limit offset filters db = (db, Return rows)
     /\ ((0 <= limit)%Z -> (length rows <= Z.to_nat limit)%nat)
     /\ StronglySorted
          (fun a b => (Recipe.createdAt (fst b) <= Recipe.createdAt (fst a))%Z)
          rows
     /\ (forall row, In row rows ->
                     In (fst row) (recipes db)
                     /\ last_condition filters (fst row) = true)
     /\ ((limit < 0)%Z -> offset = 0%Z ->
         forall r, In r (recipes db) -> last_condition filters r = true ->
                   In r (List.map fst rows)))
  /\ ((offset < 0)%Z ->
      exists e, Storage.getRecipes limit offset filters db = (db, Throw e)).
Proof.
  split.
  - intros Ho.
    assert (Hsorted :
              StronglySorted
                (fun a b : RecipeWithUser =>
                   (Recipe.createdAt (fst b) <= Recipe.createdAt (fst a))%Z)
                (List.skipn (Z.to_nat offset)
                   (Drizzle.sort_desc
                      (fun row => Recipe.createdAt (fst row))
                      (List.filter
                         (fun row => last_condition filters (fst row))
                         (Drizzle.leftJoin (recipes db) (users db)
                            Storage.recipe_user))))).
    { apply StronglySorted_skipn.
      apply (sort_desc_sorted (fun row : RecipeWithUser =>
                                 Recipe.createdAt (fst row))). }
    assert (Hstored :
              forall row : RecipeWithUser,
                In row
                  (List.skipn (Z.to_nat offset)
                     (Drizzle.sort_desc
                        (fun row => Recipe.createdAt (fst row))
                        (List.filter
                           (fun row => last_condition filters (fst row))
                           (Drizzle.leftJoin (recipes db) (users db)
                              Storage.recipe_user)))) ->
                In (fst row) (recipes db)
                /\ last_condition filters (fst row) = true).
    { intros row Hrow. apply In_skipn in Hrow.
      apply (Permutation_in _ (sort_desc_perm _ _)) in Hrow.
      apply List.filter_In in Hrow as [Hin Hcond]. split; [|exact Hcond].
      apply (leftJoin_fst_In (recipes db) (users db) Storage.recipe_user).
      now apply List.in_map. }
    destruct (Z.ltb_spec limit 0) as [Hl|Hl].
    + rewrite (getRecipes_unlimited _ _ _ _ Hl Ho).
      eexists. split; [reflexivity|]. split; [lia|].
      split; [exact Hsorted|]. split; [exact Hstored|].
      intros _ -> r Hr Hcond. change (Z.to_nat 0) with 0%nat.
      rewrite List.skipn_O, map_fst_sort_desc.
      apply (Permutation_in _ (Permutation_sym (sort_desc_perm _ _))).
      rewrite (map_fst_filter (last_condition filters)).
      apply List.filter_In. split; [|exact Hcond].
      now apply (leftJoin_fst_In (recipes db) (users db)
                   Storage.recipe_user).
    + rewrite (getRecipes_window _ _ _ _ Hl Ho).
      eexists. split; [reflexivity|]. split; [|split; [|split]].
      * intros _. rewrite List.length_firstn. lia.
      * now apply StronglySorted_firstn.
      * intros row Hrow. apply In_firstn in Hrow. now apply Hstored.
      * lia.
  - intros Hneg. rewrite getRecipes_last_where.
    destruct (execute_refuses
                (Drizzle.mkSelect
                   (Drizzle.leftJoin (recipes db) (users db)
                      Storage.recipe_user)
                   (Some (fun row => last_condition filters (fst row)))
                   (Some (fun row => Recipe.createdAt (fst row)))
                   (Some limit) (Some offset))) as [e He].
    + simpl. lia.
    + exists e. now rewrite He.
Qed.

(** On the sample list: the first page with two rows a page; a limit of -1,
    which lists the two approved recipes; and the refusal of a negative
    offset. *)
Lemma getRecipes_page_witness :
  (exists rows,
     Storage.getRecipes 2 0 no_filters Sample.db = (Sample.db, Return rows)
     /\ (length rows <= 2)%nat)
  /\ (exists rows,
        Storage.getRecipes (-1) 0 no_filters Sample.db
        = (Sample.db, Return rows)
        /\ In Sample.pasta_salad (List.map fst rows)
        /\ In Sample.risotto (List.map fst rows))
  /\ exists e,
       Storage.getRecipes 2 (-2) no_filters Sample.db = (Sample.db, Throw e).
Proof.
  destruct (getRecipes_page 2 0 no_filters Sample.db) as [H _].
  destruct (getRecipes_page (-1) 0 no_filters Sample.db) as [Hall _].
  destruct (getRecipes_page 2 (-2) no_filters Sample.db) as [_ H'].
  split; [|split].
  - destruct H as (rows & Hrun & Hlen & _); [lia|].
    exists rows. split; [exact Hrun | apply Hlen; lia].
  - destruct Hall as (rows & Hrun & _ & _ & _ & Hevery); [lia|].
    exists rows. split; [exact Hrun|].
    split; apply Hevery; try lia; try reflexivity; simpl; auto.
  - apply H'. lia.
Defined.

(** A recipe has at most one owner. *)
Lemma at_most_one_owner (r : Recipe.t) (us : list User.t) :
  unique_ids User.id us ->
  (length (List.filter (Storage.recipe_user r) us) <= 1)%nat.
Proof.
  intros Hu. unfold Storage.recipe_user, Drizzle.eq_text.
  destruct (Recipe.userId r) as [k|].
  - now apply at_most_one_user.
  - induction us as [|u us IH]; simpl; [lia|].
    apply IH. unfold unique_ids in *. simpl in Hu.
    now apply NoDup_cons in Hu.
Qed.

(** When the keys differ from one another there is one way only to put a
    list in descending order. *)
Lemma sorted_perm_unique {R} (key : R -> Z) (l : list R) :
  List.NoDup (List.map key l) ->
  StronglySorted (fun a b => (key b <= key a)%Z) l ->
  forall l',
    Permutation l' l ->
    StronglySorted (fun a b => (key b <= key a)%Z) l' -> l' = l.
Proof.
  induction l as [|x t IH]; intros Hnd Hs l' Hp Hs'.
  - now apply Permutation_nil, Permutation_sym.
  - destruct l' as [|y t'];
      [apply Permutation_nil in Hp; discriminate|].
    apply List.NoDup_cons_iff in Hnd as [Hx Hnd].
    apply StronglySorted_inv in Hs as [Hs Hle].
    apply StronglySorted_inv in Hs' as [Hs' Hle'].
    assert (y = x) as ->.
    { assert (Hy : In y (x :: t))
        by (apply (Permutation_in _ Hp); now left).
      destruct Hy as [Hy|Hy]; [now symmetry|].
      assert (Hx' : In x (y :: t'))
        by (apply (Permutation_in _ (Permutation_sym Hp)); now left).
      destruct Hx' as [Hx'|Hx']; [exact Hx'|].
      exfalso. apply Hx.
      rewrite List.Forall_forall in Hle, Hle'.
      specialize (Hle y Hy). specialize (Hle' x Hx').
      replace (key x) with (key y) by lia. now apply List.in_map. }
    f_equal. apply IH; try assumption.
    now apply Permutation_cons_inv in Hp.
Qed.

Lemma NoDup_map_filter {R K} (f : R -> K) (P : R -> bool) (l : list R) :
  List.NoDup (List.map f l) -> List.NoDup (List.map f (List.filter P l)).
Proof.
  induction l as [|x t IH]; simpl; [trivial|].
  intros [Hx Hnd]%List.NoDup_cons_iff. destruct (P x); [|now apply IH].
  simpl. constructor; [|now apply IH].
  intros (y & Hy & [Hin _]%List.filter_In)%List.in_map_iff.
  apply Hx. rewrite <- Hy. now apply List.in_map.
Qed.

(** X2.  When no two recipes were created at the same instant (and user
    ids are distinct), the order of a recipe list is settled: the matching
    recipes can be put newest first in one way only, and every page is a
    segment of that list.  Consecutive pages then neither overlap nor
    skip: a page of [n] rows followed by the page of [m] rows that starts
    where it ends is the page of [n + m] rows. *)
Theorem getRecipes_pages_compose (n m offset : Z) (filters : Storage.Filters)
    (db : Db) :
  (0 <= n)%Z -> (0 <= m)%Z -> (0 <= offset)%Z ->
  unique_ids User.id (users db) ->
  distinct_times (recipes db) ->
  exists all first second,
    (forall r, In r (List.map fst all)
               <-> In r (recipes db) /\ last_condition filters r = true)
    /\ newest_recipes_first all
    /\ (forall rows, Permutation rows all -> newest_recipes_first rows ->
                     rows = all)
    /\ Storage.getRecipes n offset filters db = (db, Return first)
    /\ first = List.firstn (Z.to_nat n) (List.skipn (Z.to_nat offset) all)
    /\ Storage.getRecipes m (offset + n) filters db = (db, Return second)
    /\ second
       = List.firstn (Z.to_nat m) (List.skipn (Z.to_nat (offset + n)) all)
    /\ Storage.getRecipes (n + m) offset filters db
       = (db, Return (first ++ second)%list).
Proof.
  intros Hn Hm Ho Husers Htimes.
  rewrite !getRecipes_window by lia.
  set (join := Drizzle.leftJoin (recipes db) (users db) Storage.recipe_user).
  set (all := Drizzle.sort_desc _ _).
  assert (Hjoin : List.map fst join = recipes db).
  { apply leftJoin_fst_unique. intros x. now apply at_most_one_owner. }
  assert (Hfst : List.map fst all
                 = Drizzle.sort_desc Recipe.createdAt
                     (List.filter (last_condition filters) (recipes db))).
  { unfold all. rewrite map_fst_sort_desc.
    now rewrite (map_fst_filter (last_condition filters)), Hjoin. }
  exists all. eexists _, _.
  split; [|split; [|split; [|split; [reflexivity|split;
    [reflexivity|split; [reflexivity|split; [reflexivity|]]]]]]].
  - intros r. rewrite Hfst, <- List.filter_In. split.
    + apply Permutation_in, sort_desc_perm.
    + apply Permutation_in, Permutation_sym, sort_desc_perm.
  - apply (sort_desc_sorted (fun row : RecipeWithUser =>
                               Recipe.createdAt (fst row))).
  - intros rows Hperm Hsorted.
    apply (sorted_perm_unique
             (fun row : RecipeWithUser => Recipe.createdAt (fst row)));
      try assumption.
    + replace (List.map (fun row : RecipeWithUser =>
                           Recipe.createdAt (fst row)) all)
        with (List.map Recipe.createdAt (List.map fst all))
        by apply List.map_map.
      rewrite Hfst.
      apply (Permutation_NoDup
               (l := List.map Recipe.createdAt
                       (List.filter (last_condition filters) (recipes db)))).
      * apply Permutation_map, Permutation_sym, sort_desc_perm.
      * apply NoDup_map_filter. now apply NoDup_ListNoDup.
    + apply (sort_desc_sorted (fun row : RecipeWithUser =>
                                 Recipe.createdAt (fst row))).
  - do 2 f_equal. rewrite !Z2Nat.inj_add by lia.
    rewrite firstn_add. f_equal. now rewrite skipn_add.
Qed.

Lemma getRecipes_pages_compose_witness :
  exists first second,
    Storage.getRecipes 1 0 no_filters Sample.db = (Sample.db, Return first)
    /\ Storage.getRecipes 1 1 no_filters Sample.db
       = (Sample.db, Return second)
    /\ Storage.getRecipes 2 0 no_filters Sample.db
       = (Sample.db, Return (first ++ second)%list).
Proof.
  destruct (getRecipes_pages_compose 1 1 0 no_filters Sample.db)
    as (all & first & second & _ & _ & _ & H1 & _ & H2 & _ & H3);
    try lia.
  - unique_ids_by_computation.
  - unfold distinct_times. apply (bool_decide_unpack _). vm_compute.
    reflexivity.
  - exists first, second. split; [exact H1|]. split; [exact H2 | exact H3].
Defined.

(** X3.  [getFeaturedRecipes] always returns: at most ten recipes, each stored,
    featured and approved, newest first; and it writes nothing. *)
Theorem getFeaturedRecipes_top_ten (db : Db) :
  exists rows,
    Storage.getFeaturedRecipes db = (db, Return rows)
    /\ (length rows <= 10)%nat
    /\ StronglySorted
         (fun a b => (Recipe.createdAt (fst b) <= Recipe.createdAt (fst a))%Z)
         rows
    /\ forall row, In row rows ->
                   In (fst row) (recipes db)
                   /\ Recipe.isFeatured (fst row) = Some true
                   /\ Recipe.isApproved (fst row) = Some true.
Proof.
  unfold Storage.getFeaturedRecipes, query.
  rewrite execute_runs by reflexivity.
  eexists. split; [reflexivity|]. split; [|split].
  - apply (window_length _ _ 10); [reflexivity | lia].
  - apply window_sorted.
    apply (ordered_sorted _ (fun row : RecipeWithUser =>
                               Recipe.createdAt (fst row))).
    reflexivity.
  - intros row Hrow. apply window_In, ordered_In, selected_In in Hrow.
    destruct Hrow as [Hin Hcond]. cbn in Hin. split.
    + apply (leftJoin_fst_In (recipes db) (users db) Storage.recipe_user).
      now apply List.in_map.
    + specialize (Hcond _ eq_refl). apply andb_prop in Hcond as [H1 H2].
      destruct (Recipe.isFeatured (fst row)) as [[]|],
               (Recipe.isApproved (fst row)) as [[]|];
        simpl in *; try discriminate. now split.
Qed.

(** ** Round trips through the recipe and review tables *)

Lemma filter_id_fresh {R} (id_of : R -> string) id (rows : list R) :
  Storage.has_id id_of id rows = false ->
  List.filter (fun r => String.eqb (id_of r) id) rows = [].
Proof.
  unfold Storage.has_id. induction rows as [|x rows IH]; [reflexivity|].
  simpl. intros [H1 H2]%orb_false_iff. rewrite H1. now apply IH.
Qed.

Lemma nil_no_member {A} (l : list A) : (forall x, ~ In x l) -> l = [].
Proof.
  destruct l as [|x l]; [reflexivity|]. intros H.
  now destruct (H x); left.
Qed.

(** What a successful [createRecipe] did. *)
Lemma createRecipe_returns env recipe db db' row :
  Storage.createRecipe env recipe db = (db', Return row) ->
  Storage.has_id Recipe.id (Recipe.id row) (recipes db) = false
  /\ Storage.references User.id (users db) (Recipe.userId row) = true
  /\ row = Storage.new_recipe (gen_random_uuid env (tick db))
             (now env (tick db)) recipe
  /\ db' = Storage.step (Storage.with_recipes db (recipes db ++ [row])%list).
Proof.
  unfold Storage.createRecipe.
  destruct (negb (Storage.int4 _ && Storage.int4 _)); [discriminate|].
  destruct (Storage.has_id Recipe.id _ _) eqn:H1; [discriminate|].
  destruct (Storage.references _ _ _) eqn:H2; [|discriminate].
  simpl. intros [= <- <-]. repeat split; assumption.
Qed.

Lemma no_approved_reviews_of id db :
  (forall v, In v (reviews db) -> Review.recipeId v <> id) ->
  List.filter (Storage.approved_review_of id) (reviews db) = []
  /\ List.filter (fun row => Storage.approved_review_of id (fst row))
       (Drizzle.leftJoin (reviews db) (users db) Storage.review_user) = [].
Proof.
  intros H. split; apply nil_no_member; intros x Hx;
    apply List.filter_In in Hx as [Hin Hok];
    apply andb_prop in Hok as [Hid _]; apply String.eqb_eq in Hid.
  - now apply (H x).
  - apply (H (fst x)); [|exact Hid].
    apply (leftJoin_fst_In (reviews db) (users db) Storage.review_user).
    now apply List.in_map.
Qed.

(** X4.  A recipe that [createRecipe] has just stored is what [getRecipe] finds
    under its id, with no reviews, a count of 0 and an average of 0. *)
Theorem createRecipe_then_getRecipe (env : Env) (recipe : InsertRecipe.t)
    (db db' : Db) (row : Recipe.t) :
  Storage.createRecipe env recipe db = (db', Return row) ->
  refs_ok db ->
  Storage.getRecipe (Recipe.id row) db'
  = (db', Return (Some (RecipeWithReviews.mk row [] 0%Q 0%nat))).
Proof.
  intros Hrun (_ & Hrefs & _).
  destruct (createRecipe_returns _ _ _ _ _ Hrun) as (Hnew & _ & _ & ->).
  rewrite getRecipe_unfold.
  cbn [recipes reviews users Storage.step Storage.with_recipes].
  rewrite List.filter_app, (filter_id_fresh _ _ _ Hnew). simpl.
  rewrite String.eqb_refl.
  destruct (no_approved_reviews_of (Recipe.id row)
              (Storage.step
                 (Storage.with_recipes db (recipes db ++ [row])%list)))
    as [H1 H2].
  - cbn [reviews Storage.step Storage.with_recipes]. intros v Hv E.
    destruct (Hrefs v Hv) as [Hin _]. congruence.
  - cbn [reviews users Storage.step Storage.with_recipes] in H1, H2.
    now rewrite H1, H2.
Qed.

Lemma sample_refs_ok : refs_ok Sample.db.
Proof.
  unfold refs_ok. split; [|split]; intros x Hx; simpl in Hx;
    repeat (destruct Hx as [<-|Hx]; [now repeat split|]); destruct Hx.
Qed.

Lemma createRecipe_then_getRecipe_witness :
  let recipe := Routes.with_image Sample.omelette None "alice" in
  exists db' row,
    Storage.createRecipe Sample.env recipe Sample.db = (db', Return row)
    /\ Storage.getRecipe (Recipe.id row) db'
       = (db', Return (Some (RecipeWithReviews.mk row [] 0%Q 0%nat))).
Proof.
  intros recipe. eexists _, _. split; [reflexivity|].
  apply (createRecipe_then_getRecipe Sample.env recipe Sample.db);
    [reflexivity | apply sample_refs_ok].
Defined.

Lemma createReview_stored env review db db' stored :
  Storage.createReview env review db = (db', Return stored) ->
  Storage.has_id Recipe.id (Review.recipeId stored) (recipes db) = true
  /\ Storage.has_id User.id (Review.userId stored) (users db) = true
  /\ Storage.has_id Review.id (Review.id stored) (reviews db) = false
  /\ db' = Storage.step (Storage.with_reviews db (reviews db ++ [stored])%list).
Proof.
  unfold Storage.createReview.
  destruct (Storage.as_integer _); [|discriminate].
  destruct (Storage.has_id Review.id _ _) eqn:H1; [discriminate|].
  destruct (Storage.has_id Recipe.id _ _) eqn:H2; [|discriminate].
  destruct (Storage.has_id User.id _ _) eqn:H3; [|discriminate].
  simpl. intros [= <- <-]. repeat split; assumption.
Qed.

Lemma has_id_exists {R} (id_of : R -> string) id (rows : list R) :
  Storage.has_id id_of id rows = true ->
  exists r, In r rows /\ id_of r = id.
Proof.
  intros H. apply has_id_In, List.in_map_iff in H as (r & H1 & H2).
  now exists r.
Qed.

(** X5.  After a review is created, [getRecipe] on its recipe shows it: an
    approved review raises the count by one, is among the reviews, and
    the average becomes the rounded mean of the ratings that were approved
    before together with the new one; a review created unapproved changes
    neither count nor average. *)
Theorem createReview_then_getRecipe (env : Env) (review : InsertReview.t)
    (db db' : Db) (stored : Review.t) :
  Storage.createReview env review db = (db', Return stored) ->
  exists found found',
    Storage.getRecipe (Review.recipeId stored) db = (db, Return (Some found))
    /\ Storage.getRecipe (Review.recipeId stored) db'
       = (db', Return (Some found'))
    /\ RecipeWithReviews.recipe found' = RecipeWithReviews.recipe found
    /\ (Review.isApproved stored = Some true ->
        RecipeWithReviews.reviewCount found'
        = S (RecipeWithReviews.reviewCount found)
        /\ In stored (List.map fst (RecipeWithReviews.reviews found'))
        /\ rounds (RecipeWithReviews.averageRating found')
             (mean (List.map Review.rating
                      (approved_reviews (Review.recipeId stored) db)
                    ++ [Review.rating stored])))
    /\ (Review.isApproved stored <> Some true ->
        RecipeWithReviews.reviewCount found'
        = RecipeWithReviews.reviewCount found
        /\ RecipeWithReviews.averageRating found'
           = RecipeWithReviews.averageRating found).
Proof.
  intros Hrun.
  destruct (createReview_stored _ _ _ _ _ Hrun) as (Hrecipe & _ & _ & ->).
  destruct (has_id_exists _ _ _ Hrecipe) as (r & Hr & Hid).
  destruct (filter_id_cons Recipe.id _ _ r Hr Hid)
    as (first & rest & E & _ & _).
  rewrite !getRecipe_unfold.
  cbn [recipes reviews users Storage.step Storage.with_reviews].
  rewrite E. eexists _, _. split; [reflexivity|]. split; [reflexivity|].
  cbn [RecipeWithReviews.recipe RecipeWithReviews.reviews
       RecipeWithReviews.averageRating RecipeWithReviews.reviewCount].
  split; [reflexivity|].
  assert (Hf : List.filter
                 (Storage.approved_review_of (Review.recipeId stored))
                 (reviews db ++ [stored])
               = (List.filter
                    (Storage.approved_review_of (Review.recipeId stored))
                    (reviews db)
                  ++ if Drizzle.eq_bool (Review.isApproved stored) true
                     then [stored] else [])%list).
  { rewrite List.filter_app. f_equal. simpl.
    unfold Storage.approved_review_of. rewrite String.eqb_refl. simpl.
    now destruct (Drizzle.eq_bool _ _). }
  rewrite Hf. split.
  - intros Happroved. rewrite Happroved. cbn [Drizzle.eq_bool Bool.eqb].
    split; [rewrite List.length_app; simpl; lia|]. split.
    + rewrite (map_fst_sort_desc Review.createdAt).
      apply (Permutation_in _ (Permutation_sym (sort_desc_perm _ _))).
      rewrite (map_fst_filter
                 (Storage.approved_review_of (Review.recipeId stored))).
      apply List.filter_In. split.
      * apply leftJoin_fst_In. apply List.in_or_app. right. now left.
      * unfold Storage.approved_review_of.
        now rewrite String.eqb_refl, Happroved.
    + destruct (avg_rounds
                  (List.filter
                     (Storage.approved_review_of (Review.recipeId stored))
                     (reviews db) ++ [stored])%list)
        as (text & -> & Hq);
        [intros H; apply List.app_eq_nil in H as [_ H]; discriminate|].
      now rewrite List.map_app, filter_approved in Hq.
  - intros Hnot.
    assert (Drizzle.eq_bool (Review.isApproved stored) true = false) as ->.
    { destruct (Review.isApproved stored) as [[]|]; try reflexivity.
      now destruct Hnot. }
    now rewrite List.app_nil_r.
Qed.

Lemma createReview_then_getRecipe_witness :
  let review := InsertReview.mk "r1" "bob" 4 None None in
  exists db' stored found found',
    Storage.createReview Sample.env review Sample.db = (db', Return stored)
    /\ Storage.getRecipe "r1" Sample.db = (Sample.db, Return (Some found))
    /\ Storage.getRecipe "r1" db' = (db', Return (Some found'))
    /\ RecipeWithReviews.reviewCount found'
       = S (RecipeWithReviews.reviewCount found)
    /\ rounds (RecipeWithReviews.averageRating found') (mean [3; 5; 4]%Z).
Proof.
  intros review.
  destruct (createReview_then_getRecipe Sample.env review Sample.db _ _
              eq_refl) as (found & found' & H1 & H2 & _ & Happroved & _).
  eexists _, _, found, found'. split; [reflexivity|].
  split; [exact H1|]. split; [exact H2|].
  destruct (Happroved eq_refl) as (Hcount & _ & Hmean).
  split; [exact Hcount | exact Hmean].
Defined.

(** ** Deleting a recipe *)

Lemma rowCount_has_id {R} (id_of : R -> string) id (rows : list R) :
  (0 <? length (List.filter (fun r => String.eqb (id_of r) id) rows))%nat
  = Storage.has_id id_of id rows.
Proof.
  unfold Storage.has_id. induction rows as [|x rows IH]; [reflexivity|].
  simpl. destruct (String.eqb (id_of x) id); [reflexivity | exact IH].
Qed.

Lemma filter_negb_In {R} (f : R -> bool) (l : list R) x :
  In x (List.filter (fun y => negb (f y)) l) <-> In x l /\ f x = false.
Proof. rewrite List.filter_In, negb_true_iff. reflexivity. Qed.

(** What deleting a stored recipe does. *)
Lemma deleteRecipe_stored (id : string) (db : Db) :
  Storage.has_id Recipe.id id (recipes db) = true ->
  exists db',
    Storage.deleteRecipe id db = (db', Return true)
    /\ users db' = users db
    /\ (forall r, In r (recipes db')
                  <-> In r (recipes db) /\ Recipe.id r <> id)
    /\ (forall v, In v (reviews db')
                  <-> In v (reviews db) /\ Review.recipeId v <> id)
    /\ (forall s, In s (savedRecipes db')
                  <-> In s (savedRecipes db)
                      /\ SavedRecipe.recipeId s <> id)
    /\ Storage.getRecipe id db' = (db', Return None).
Proof.
  intros Hstored. unfold Storage.deleteRecipe.
  rewrite rowCount_has_id, Hstored.
  eexists. split; [reflexivity|].
  cbn [users recipes reviews savedRecipes].
  split; [reflexivity|].
  split; [intros r; now rewrite filter_negb_In, String.eqb_neq|].
  split; [intros v; now rewrite filter_negb_In, String.eqb_neq|].
  split; [intros s; now rewrite filter_negb_In, String.eqb_neq|].
  rewrite getRecipe_unfold. cbn [recipes].
  assert (List.filter (fun r => String.eqb (Recipe.id r) id)
            (List.filter (fun r => negb (String.eqb (Recipe.id r) id))
               (recipes db)) = []) as ->; [|reflexivity].
  apply nil_no_member. intros x [Hx1 Hx2]%List.filter_In.
  apply filter_negb_In in Hx1 as [_ Hx1]. congruence.
Qed.

(** X6.  [deleteRecipe] reports whether a recipe had the id.  If none had, the
    database is as it was.  Otherwise the recipe is gone together with the
    reviews and saved-recipe rows that referred to it, every other row is
    kept, and [getRecipe] no longer finds the id. *)
Theorem deleteRecipe_cascades (id : string) (db : Db) :
  exists db',
    Storage.deleteRecipe id db
    = (db', Return (Storage.has_id Recipe.id id (recipes db)))
    /\ (Storage.has_id Recipe.id id (recipes db) = false -> db' = db)
    /\ (Storage.has_id Recipe.id id (recipes db) = true ->
        users db' = users db
        /\ (forall r, In r (recipes db')
                      <-> In r (recipes db) /\ Recipe.id r <> id)
        /\ (forall v, In v (reviews db')
                      <-> In v (reviews db) /\ Review.recipeId v <> id)
        /\ (forall s, In s (savedRecipes db')
                      <-> In s (savedRecipes db)
                          /\ SavedRecipe.recipeId s <> id)
        /\ Storage.getRecipe id db' = (db', Return None)).
Proof.
  destruct (Storage.has_id Recipe.id id (recipes db)) eqn:Hstored.
  - destruct (deleteRecipe_stored id db Hstored) as (db' & Hrun & Hrest).
    exists db'. split; [exact Hrun|]. split; [discriminate|].
    intros _. exact Hrest.
  - exists db. split; [|split; [reflexivity | discriminate]].
    unfold Storage.deleteRecipe. now rewrite rowCount_has_id, Hstored.
Qed.

Lemma deleteRecipe_cascades_witness :
  exists db',
    Storage.deleteRecipe "r1" Sample.db = (db', Return true)
    /\ reviews db' = []
    /\ Storage.getRecipe "r1" db' = (db', Return None).
Proof.
  destruct (deleteRecipe_cascades "r1" Sample.db)
    as (db' & Hrun & _ & Hgone).
  exists db'. split; [exact Hrun|].
  destruct (Hgone eq_refl) as (_ & _ & Hreviews & _ & Hget).
  split; [|exact Hget].
  apply (f_equal fst) in Hrun. simpl in Hrun. now subst db'.
Defined.

(** ** Reviews of other users *)

Lemma map_if_In {R} (hit : R -> bool) (f : R -> R) (l : list R) x :
  In x l -> hit x = false ->
  In x (List.map (fun r => if hit r then f r else r) l).
Proof.
  intros Hin Hx. apply List.in_map_iff. exists x. now rewrite Hx.
Qed.

Lemma not_owned_review id userId v :
  Review.id v <> id \/ Review.userId v <> userId ->
  Storage.owned_review id userId v = false.
Proof.
  unfold Storage.owned_review. intros [H|H]; apply String.eqb_neq in H;
    rewrite H; [reflexivity | apply andb_false_r].
Qed.

(** X7.  Whatever the outcome, [updateReview] and [deleteReview] called for
    a review id and a user leave every review with another id, and every
    review of another author, in the table as it is; the update neither
    adds nor removes a review, and neither of the two touches another
    table. *)
Theorem review_writes_spare_others (env : Env) (id userId : string)
    (updates : PartialInsertReview.t) (db : Db) :
  let updated := fst (Storage.updateReview env id userId updates db) in
  let deleted := fst (Storage.deleteReview id userId db) in
  (forall v, In v (reviews db) ->
             Review.id v <> id \/ Review.userId v <> userId ->
             In v (reviews updated) /\ In v (reviews deleted))
  /\ length (reviews updated) = length (reviews db)
  /\ users updated = users db /\ users deleted = users db
  /\ recipes updated = recipes db /\ recipes deleted = recipes db
  /\ savedRecipes updated = savedRecipes db
  /\ savedRecipes deleted = savedRecipes db.
Proof.
  cbn zeta. unfold Storage.updateReview, Storage.deleteReview.
  destruct (match PartialInsertReview.rating updates with
            | Some q => _ | None => _ end) as [rating|];
    [destruct (List.forallb _ _)|]; cbn;
    (split; [intros v Hin Hv%not_owned_review; split;
             [first [now apply map_if_In | exact Hin]
             | apply filter_negb_In; now split]
            | repeat split; now rewrite ?List.length_map]).
Qed.

(** "bob" names the review "v1", which "alice" wrote, and their own review
    "v2": "v1" stays as it is both times. *)
Lemma review_writes_spare_others_witness :
  let updates := PartialInsertReview.mk None None (Some 1%Q) None None in
  In Sample.v1 (reviews (fst (Storage.updateReview Sample.env "v1" "bob"
                                updates Sample.db)))
  /\ In Sample.v1 (reviews (fst (Storage.deleteReview "v1" "bob" Sample.db)))
  /\ In Sample.v1 (reviews (fst (Storage.updateReview Sample.env "v2" "bob"
                                   updates Sample.db)))
  /\ In Sample.v1 (reviews (fst (Storage.deleteReview "v2" "bob" Sample.db))).
Proof.
  intros updates.
  destruct (proj1 (review_writes_spare_others Sample.env "v1" "bob" updates
                     Sample.db) Sample.v1) as [H1 H2];
    [simpl; auto | right; discriminate |].
  destruct (proj1 (review_writes_spare_others Sample.env "v2" "bob" updates
                     Sample.db) Sample.v1) as [H3 H4];
    [simpl; auto | left; discriminate |].
  repeat split; assumption.
Defined.

(** ** Saved recipes, saved and unsaved *)

Lemma isRecipeSaved_exists userId recipeId db :
  Storage.isRecipeSaved userId recipeId db
  = (db, Return (List.existsb (Storage.saved_pair userId recipeId)
                   (savedRecipes db))).
Proof.
  unfold Storage.isRecipeSaved, query. rewrite execute_runs by reflexivity.
  cbn. f_equal. f_equal.
  induction (savedRecipes db) as [|s l IH]; [reflexivity|].
  simpl. destruct (Storage.saved_pair userId recipeId s); [reflexivity|].
  exact IH.
Qed.

Lemma rowCount_exists {R} (f : R -> bool) (l : list R) :
  (0 <? length (List.filter f l))%nat = List.existsb f l.
Proof.
  induction l as [|x l IH]; [reflexivity|]. simpl.
  destruct (f x); [reflexivity | exact IH].
Qed.

(** X8.  [unsaveRecipe] reports whether the pair was saved, removes every row of
    the pair and no other row, so that [isRecipeSaved] then answers false. *)
Theorem unsaveRecipe_clears (userId recipeId : string) (db : Db) :
  exists db' removed,
    Storage.unsaveRecipe userId recipeId db = (db', Return removed)
    /\ Storage.isRecipeSaved userId recipeId db = (db, Return removed)
    /\ Storage.isRecipeSaved userId recipeId db' = (db', Return false)
    /\ (forall s, In s (savedRecipes db')
                  <-> In s (savedRecipes db)
                      /\ Storage.saved_pair userId recipeId s = false)
    /\ users db' = users db /\ recipes db' = recipes db
    /\ reviews db' = reviews db.
Proof.
  unfold Storage.unsaveRecipe. rewrite rowCount_exists.
  eexists _, _. split; [reflexivity|].
  split; [apply isRecipeSaved_exists|].
  split; [|split; [intros s; apply filter_negb_In | now repeat split]].
  rewrite isRecipeSaved_exists. cbn [savedRecipes Storage.with_savedRecipes].
  f_equal. f_equal. apply not_true_is_false. intros H.
  apply List.existsb_exists in H as (s & [_ Hs]%filter_negb_In & Hs').
  congruence.
Qed.

Lemma saveRecipe_returns env data db db' row :
  Storage.saveRecipe env data db = (db', Return (Some row)) ->
  Storage.has_id Recipe.id (InsertSavedRecipe.recipeId data) (recipes db)
  = true
  /\ SavedRecipe.userId row = InsertSavedRecipe.userId data
  /\ SavedRecipe.recipeId row = InsertSavedRecipe.recipeId data
  /\ db' = Storage.step
             (Storage.with_savedRecipes db (savedRecipes db ++ [row])%list).
Proof.
  unfold Storage.saveRecipe.
  destruct (Storage.has_id SavedRecipe.id _ _); [discriminate|].
  destruct (Storage.has_id User.id _ _); [|discriminate].
  destruct (Storage.has_id Recipe.id _ _) eqn:H; [|discriminate].
  simpl. intros [= <- <-]. repeat split; assumption.
Qed.

Section InnerJoinFacts.

Context {A B : Type}.

Lemma innerJoin_In (a : list A) (b : list B) (on : A -> B -> bool) x y :
  In (x, y) (DatabaseStorage.innerJoin a b on)
  <-> In x a /\ In y b /\ on x y = true.
Proof.
  unfold DatabaseStorage.innerJoin. rewrite List.in_flat_map. split.
  - intros (x' & Hx & H). apply List.in_map_iff in H as (y' & [= <- <-] & H).
    apply List.filter_In in H as [H1 H2]. auto.
  - intros (Hx & Hy & Hon). exists x. split; [exact Hx|].
    apply List.in_map_iff. exists y. split; [reflexivity|].
    now apply List.filter_In.
Qed.

End InnerJoinFacts.

(** [getSavedRecipes] never writes and never throws; this is what it
    returns. *)
Lemma getSavedRecipes_unfold userId db :
  DatabaseStorage.getSavedRecipes userId db
  = (db,
     Return
       (List.map (fun row => (snd (fst row), snd row))
          (Drizzle.sort_desc
             (fun row => SavedRecipe.createdAt (fst (fst row)))
             (List.filter
                (fun row =>
                   String.eqb (SavedRecipe.userId (fst (fst row))) userId)
                (Drizzle.leftJoin
                   (DatabaseStorage.innerJoin (savedRecipes db) (recipes db)
                      DatabaseStorage.saved_recipe)
                   (users db)
                   (fun row u => Storage.recipe_user (snd row) u)))))).
Proof.
  unfold DatabaseStorage.getSavedRecipes, query.
  now rewrite execute_unbounded.
Qed.

Lemma getSavedRecipes_In userId db recipe :
  In recipe
    (List.map fst
       (List.map (fun row : SavedRecipe.t * Recipe.t * option User.t =>
                    (snd (fst row), snd row))
          (Drizzle.sort_desc
             (fun row => SavedRecipe.createdAt (fst (fst row)))
             (List.filter
                (fun row =>
                   String.eqb (SavedRecipe.userId (fst (fst row))) userId)
                (Drizzle.leftJoin
                   (DatabaseStorage.innerJoin (savedRecipes db) (recipes db)
                      DatabaseStorage.saved_recipe)
                   (users db)
                   (fun row u => Storage.recipe_user (snd row) u))))))
  <-> In recipe (recipes db)
      /\ exists s, In s (savedRecipes db)
                   /\ SavedRecipe.userId s = userId
                   /\ SavedRecipe.recipeId s = Recipe.id recipe.
Proof.
  rewrite List.map_map. cbn [fst].
  rewrite <- (List.map_map fst snd).
  rewrite (map_fst_sort_desc (fun p => SavedRecipe.createdAt (fst p))).
  rewrite (map_fst_filter
             (fun p => String.eqb (SavedRecipe.userId (fst p)) userId)).
  rewrite List.in_map_iff. split.
  - intros ([s r] & <- & H).
    apply (Permutation_in _ (sort_desc_perm _ _)) in H.
    apply List.filter_In in H as [H Hu]. apply leftJoin_fst_In in H.
    apply innerJoin_In in H as (Hs & Hr & Hon).
    split; [exact Hr|]. exists s. repeat split; [exact Hs|..].
    + now apply String.eqb_eq.
    + now apply String.eqb_eq.
  - intros (Hr & s & Hs & Hu & Hid). exists (s, recipe).
    split; [reflexivity|].
    apply (Permutation_in _ (Permutation_sym (sort_desc_perm _ _))).
    apply List.filter_In. split; [|now apply String.eqb_eq].
    apply leftJoin_fst_In. apply innerJoin_In.
    repeat split; [exact Hs | exact Hr | now apply String.eqb_eq].
Qed.

(** X9.  [getSavedRecipes] lists exactly the stored recipes for which the user
    has a saved-recipe row; whether a recipe is approved plays no part. *)
Theorem getSavedRecipes_lists (userId : string) (db : Db) :
  exists rows,
    DatabaseStorage.getSavedRecipes userId db = (db, Return rows)
    /\ forall recipe,
         In recipe (List.map fst rows)
         <-> In recipe (recipes db)
             /\ exists s, In s (savedRecipes db)
                          /\ SavedRecipe.userId s = userId
                          /\ SavedRecipe.recipeId s = Recipe.id recipe.
Proof.
  eexists. split; [apply getSavedRecipes_unfold|].
  intros recipe. apply getSavedRecipes_In.
Qed.

(** X10.  A recipe that [saveRecipe] has just saved is saved according to
    [isRecipeSaved] and is on the user's list. *)
Theorem saveRecipe_then_listed (env : Env) (data : InsertSavedRecipe.t)
    (db db' : Db) (row : SavedRecipe.t) :
  Storage.saveRecipe env data db = (db', Return (Some row)) ->
  Storage.isRecipeSaved (InsertSavedRecipe.userId data)
    (InsertSavedRecipe.recipeId data) db'
  = (db', Return true)
  /\ exists rows recipe,
       DatabaseStorage.getSavedRecipes (InsertSavedRecipe.userId data) db'
       = (db', Return rows)
       /\ In recipe (List.map fst rows)
       /\ Recipe.id recipe = InsertSavedRecipe.recipeId data.
Proof.
  intros Hrun.
  destruct (saveRecipe_returns _ _ _ _ _ Hrun) as (Hrecipe & Hu & Hr & ->).
  split.
  - rewrite isRecipeSaved_exists. f_equal. f_equal.
    cbn [savedRecipes Storage.step Storage.with_savedRecipes].
    rewrite List.existsb_app. apply orb_true_iff. right. simpl.
    unfold Storage.saved_pair. now rewrite Hu, Hr, !String.eqb_refl.
  - destruct (has_id_exists _ _ _ Hrecipe) as (recipe & Hin & Hid).
    eexists _, recipe. split; [apply getSavedRecipes_unfold|].
    split; [|exact Hid].
    apply (getSavedRecipes_In (InsertSavedRecipe.userId data)
             (Storage.step
                (Storage.with_savedRecipes db
                   (savedRecipes db ++ [row])%list)) recipe).
    cbn [recipes savedRecipes Storage.step Storage.with_savedRecipes].
    split; [exact Hin|]. exists row. split; [|split; congruence].
    apply List.in_or_app. right. now left.
Qed.

Lemma saveRecipe_then_listed_witness :
  exists db' row,
    Storage.saveRecipe Sample.env Sample.alice_saves_r1 Sample.db
    = (db', Return (Some row))
    /\ Storage.isRecipeSaved "alice" "r1" db' = (db', Return true).
Proof.
  eexists _, _. split; [reflexivity|].
  eapply (proj1 (saveRecipe_then_listed Sample.env Sample.alice_saves_r1
                   Sample.db _ _ eq_refl)).
Defined.

(** ** Users: logins and roles *)

Lemma filter_map_if {R} (hit : R -> bool) (f : R -> R) (l : list R) :
  (forall x, hit x = true -> hit (f x) = true) ->
  List.filter hit (List.map (fun x => if hit x then f x else x) l)
  = List.map f (List.filter hit l).
Proof.
  intros Hf. induction l as [|x l IH]; [reflexivity|]. simpl.
  destruct (hit x) eqn:Hx; simpl.
  - rewrite (Hf x Hx). simpl. now rewrite IH.
  - now rewrite Hx.
Qed.

Lemma filter_hit_unique (id : string) (us : list User.t) u rest :
  unique_ids User.id us ->
  List.filter (fun x => String.eqb (User.id x) id) us = u :: rest ->
  In u us /\ User.id u = id /\ rest = [].
Proof.
  intros Hu E.
  assert (Hin : In u (List.filter (fun x => String.eqb (User.id x) id) us))
    by (rewrite E; now left).
  apply List.filter_In in Hin as [Hin Hid]. apply String.eqb_eq in Hid.
  split; [exact Hin|]. split; [exact Hid|].
  rewrite <- Hid in E.
  rewrite (filter_by_id_unique User.id us u Hu Hin) in E. congruence.
Qed.

(** X11.  A successful [upsertUser] leaves exactly one way to read the user
    back: [getUser] returns the row it returned.  Every other user is kept.
    When the id was already stored the row is updated in place: no row is
    added, [createdAt] is kept, and a login that carries no role keeps the
    stored role.  When the id is new a row is added, with the role "user"
    unless the login carries one. *)
Theorem upsertUser_stores (env : Env) (userData : UpsertUser.t)
    (db db' : Db) (user : User.t) :
  DatabaseStorage.upsertUser env userData db = (db', Return user) ->
  unique_ids User.id (users db) ->
  Storage.getUser (UpsertUser.id userData) db' = (db', Return (Some user))
  /\ User.id user = UpsertUser.id userData
  /\ (forall u, In u (users db) -> User.id u <> UpsertUser.id userData ->
                In u (users db'))
  /\ (forall old, In old (users db) ->
                  User.id old = UpsertUser.id userData ->
                  length (users db') = length (users db)
                  /\ User.createdAt user = User.createdAt old
                  /\ (UpsertUser.role userData = None ->
                      User.role user = User.role old))
  /\ ((forall u, In u (users db) -> User.id u <> UpsertUser.id userData) ->
      length (users db') = S (length (users db))
      /\ (UpsertUser.role userData = None -> User.role user = Some "user")).
Proof.
  intros Hrun Hunique. unfold DatabaseStorage.upsertUser in Hrun.
  destruct (List.filter _ (users db)) as [|u rest] eqn:E.
  - destruct (DatabaseStorage.email_taken _ _); [discriminate|].
    injection Hrun as <- <-. rewrite getUser_head.
    cbn [users Storage.step DatabaseStorage.with_users].
    rewrite List.filter_app, E. simpl. rewrite String.eqb_refl.
    split; [reflexivity|]. split; [reflexivity|].
    split; [intros u Hu _; apply List.in_or_app; now left|].
    split.
    + intros old Hold Hid.
      assert (In old []) as []. rewrite <- E. apply List.filter_In.
      split; [exact Hold | now apply String.eqb_eq].
    + intros _. rewrite List.length_app. simpl. split; [lia|].
      intros H. now rewrite H.
  - destruct (filter_hit_unique _ _ _ _ Hunique E) as (Hin & Hid & ->).
    destruct (DatabaseStorage.email_taken _ _); [discriminate|].
    injection Hrun as <- <-. rewrite getUser_head.
    cbn [users Storage.step DatabaseStorage.with_users].
    rewrite filter_map_if, E by (intros; apply String.eqb_refl).
    split; [reflexivity|]. split; [reflexivity|].
    split; [intros x Hx Hne; apply map_if_In;
            [exact Hx | now apply String.eqb_neq]|].
    split.
    + intros old Hold Hold_id.
      assert (old = u) as ->.
      { apply (unique_ids_inj User.id (users db)); congruence. }
      rewrite List.length_map. split; [reflexivity|].
      split; [reflexivity|]. intros H. cbn. now rewrite H.
    + intros Hnone. now destruct (Hnone u Hin).
Qed.

Lemma upsertUser_stores_witness :
  let login := UpsertUser.mk "root" (Some (Some "root@example.com"))
                 None None None None in
  exists db' user,
    DatabaseStorage.upsertUser Sample.env login Sample.db
    = (db', Return user)
    /\ Storage.getUser "root" db' = (db', Return (Some user))
    /\ User.role user = Some "admin".
Proof.
  intros login.
  destruct (upsertUser_stores Sample.env login Sample.db _ _ eq_refl)
    as (Hget & _ & _ & Hold & _); [unique_ids_by_computation|].
  eexists _, _. split; [reflexivity|]. split; [exact Hget|].
  destruct (Hold Sample.root) as (_ & _ & Hrole);
    [simpl; auto | reflexivity |].
  now rewrite Hrole.
Defined.

Lemma stored_user_after_role env userId role db u :
  unique_ids User.id (users db) -> In u (users db) -> User.id u = userId ->
  head (List.filter (fun x => String.eqb (User.id x) userId)
          (List.map
             (fun x => if String.eqb (User.id x) userId
                       then DatabaseStorage.set_role role
                              (now env (tick db)) x
                       else x)
             (users db)))
  = Some (DatabaseStorage.set_role role (now env (tick db)) u).
Proof.
  intros Hunique Hin Hid.
  rewrite (filter_map_if (fun x => String.eqb (User.id x) userId)) by auto.
  rewrite <- Hid. now rewrite (filter_by_id_unique User.id _ u Hunique Hin).
Qed.

(** X12.  Changing the role of a stored user decides the admin guard from then
    on: after [updateUserRole] the user's requests reach an admin handler
    exactly when the new role is "admin", and after [banUser] they are
    answered 403 - also when the user changed is the admin who asked. *)
Theorem role_change_decides_guard (env : Env) (userId role : string)
    (db : Db) (u : User.t) (handler : Handler) (req : Request) :
  unique_ids User.id (users db) ->
  In u (users db) -> User.id u = userId -> userId <> "" ->
  user req = Some userId ->
  let updated := DatabaseStorage.updateUserRole env userId role db in
  let banned := DatabaseStorage.banUser env userId db in
  snd updated
  = Return (Some (DatabaseStorage.set_role role (now env (tick db)) u))
  /\ Routes.admin_route handler req (fst updated)
     = (if String.eqb role "admin" then handler req (fst updated)
        else (fst updated,
              Return (mkResponse 403 (JMessage "Admin access required"))))
  /\ snd banned = Return true
  /\ Routes.admin_route handler req (fst banned)
     = (fst banned,
        Return (mkResponse 403 (JMessage "Admin access required"))).
Proof.
  intros Hunique Hin <- Hne Hreq. cbn zeta.
  unfold DatabaseStorage.updateUserRole, DatabaseStorage.banUser.
  cbn [fst snd]. rewrite !admin_route_outcome, Hreq.
  unfold Storage.truthy. apply String.eqb_neq in Hne. rewrite Hne.
  cbn [users Storage.step DatabaseStorage.with_users].
  rewrite !(stored_user_after_role env _ _ db u Hunique Hin eq_refl).
  rewrite rowCount_has_id.
  assert (Storage.has_id User.id (User.id u) (users db) = true) as ->.
  { apply has_id_In, List.in_map_iff. now exists u. }
  rewrite (filter_by_id_unique User.id _ u Hunique Hin).
  repeat split.
Qed.

Lemma role_change_decides_guard_witness :
  let demoted := DatabaseStorage.updateUserRole Sample.env "root" "user"
                   Sample.db in
  Routes.admin_route Sample.ok (Sample.as_ "root" "" ∅) Sample.db
  = (Sample.db, Return (mkResponse 200 (JMessage "ok")))
  /\ Routes.admin_route Sample.ok (Sample.as_ "root" "" ∅) (fst demoted)
     = (fst demoted,
        Return (mkResponse 403 (JMessage "Admin access required"))).
Proof.
  intros demoted. split; [reflexivity|].
  apply (role_change_decides_guard Sample.env "root" "user" Sample.db
           Sample.root Sample.ok (Sample.as_ "root" "" ∅));
    [unique_ids_by_computation | simpl; auto | reflexivity | discriminate
     | reflexivity].
Defined.

(** ** Keys and references under every write *)

Lemma unique_ids_map {R} (id_of : R -> string) (g : R -> R) (rows : list R) :
  (forall x, id_of (g x) = id_of x) ->
  unique_ids id_of rows -> unique_ids id_of (List.map g rows).
Proof.
  intros Hg. unfold unique_ids. rewrite List.map_map.
  now rewrite (List.map_ext _ id_of Hg).
Qed.

Lemma has_id_map {R} (id_of : R -> string) (g : R -> R) k (rows : list R) :
  (forall x, id_of (g x) = id_of x) ->
  Storage.has_id id_of k (List.map g rows) = Storage.has_id id_of k rows.
Proof.
  intros Hg. unfold Storage.has_id. induction rows as [|x rows IH];
    [reflexivity|].
  simpl. now rewrite Hg, IH.
Qed.

Lemma has_id_filter_other {R} (id_of : R -> string) k id (rows : list R) :
  k <> id ->
  Storage.has_id id_of k
    (List.filter (fun r => negb (String.eqb (id_of r) id)) rows)
  = Storage.has_id id_of k rows.
Proof.
  intros Hk. unfold Storage.has_id. induction rows as [|x rows IH];
    [reflexivity|].
  simpl. destruct (String.eqb_spec (id_of x) id) as [E|E]; simpl.
  - rewrite IH. destruct (String.eqb_spec (id_of x) k); [congruence|].
    reflexivity.
  - now rewrite IH.
Qed.

Lemma if_hit_id {R} (id_of : R -> string) (hit : R -> bool) (g : R -> R) :
  (forall x, id_of (g x) = id_of x) ->
  forall x, id_of (if hit x then g x else x) = id_of x.
Proof. intros Hg x. now destruct (hit x). Qed.

Lemma set_user_id userData t u :
  String.eqb (User.id u) (UpsertUser.id userData) = true ->
  User.id (DatabaseStorage.set_user userData t u) = User.id u.
Proof. intros H. apply String.eqb_eq in H. now rewrite H. Qed.

Lemma upsert_id userData t u :
  User.id (if String.eqb (User.id u) (UpsertUser.id userData)
           then DatabaseStorage.set_user userData t u else u)
  = User.id u.
Proof.
  destruct (String.eqb (User.id u) (UpsertUser.id userData)) eqn:E;
    [now apply set_user_id | reflexivity].
Qed.

Lemma deleteRecipe_db id db :
  fst (Storage.deleteRecipe id db)
  = if Storage.has_id Recipe.id id (recipes db)
    then mkDb (users db)
           (List.filter (fun r => negb (String.eqb (Recipe.id r) id))
              (recipes db))
           (List.filter (fun r => negb (String.eqb (Review.recipeId r) id))
              (reviews db))
           (List.filter
              (fun s => negb (String.eqb (SavedRecipe.recipeId s) id))
              (savedRecipes db))
           (tick db)
    else db.
Proof.
  unfold Storage.deleteRecipe. cbn [fst]. now rewrite rowCount_has_id.
Qed.

(** The user table after a write, as far as ids go: the ids that were
    stored still are, and they are still distinct. *)
Lemma users_after env w db :
  unique_ids User.id (users db) ->
  unique_ids User.id (users (after env w db))
  /\ forall k, Storage.has_id User.id k (users db) = true ->
               Storage.has_id User.id k (users (after env w db)) = true.
Proof.
  intros Hu. destruct w; cbn [after].
  - unfold DatabaseStorage.upsertUser.
    destruct (List.filter _ (users db)) as [|u rest] eqn:E;
      destruct (DatabaseStorage.email_taken _ _);
      cbn [fst users Storage.step DatabaseStorage.with_users];
      try (now split).
    + split.
      * apply unique_ids_snoc; [exact Hu|].
        change (User.id (DatabaseStorage.new_user _ userData))
          with (UpsertUser.id userData).
        now rewrite <- rowCount_has_id, E.
      * intros k Hk. now rewrite has_id_app, Hk.
    + split.
      * apply unique_ids_map; [apply upsert_id | exact Hu].
      * intros k Hk. rewrite has_id_map; [exact Hk | apply upsert_id].
  - cbn [fst users Storage.step DatabaseStorage.with_users
         DatabaseStorage.updateUserRole]. split.
    + apply unique_ids_map; [|exact Hu]. now apply if_hit_id.
    + intros k Hk. rewrite has_id_map; [exact Hk|]. now apply if_hit_id.
  - cbn [fst users Storage.step DatabaseStorage.with_users
         DatabaseStorage.banUser]. split.
    + apply unique_ids_map; [|exact Hu]. now apply if_hit_id.
    + intros k Hk. rewrite has_id_map; [exact Hk|]. now apply if_hit_id.
  - unfold Storage.createRecipe.
    destruct (negb (Storage.int4 _ && Storage.int4 _)); [now split|].
    destruct (Storage.has_id _ _ _); [now split|].
    destruct (negb _); now split.
  - unfold DatabaseStorage.updateRecipe.
    destruct (negb (Storage.int4 _ && Storage.int4 _)); [now split|].
    destruct (List.forallb _ _); now split.
  - rewrite deleteRecipe_db. destruct (Storage.has_id _ _ _); now split.
  - unfold Storage.createReview.
    destruct (Storage.as_integer _); [|now split].
    destruct (Storage.has_id Review.id _ _); [now split|].
    destruct (negb _); [now split|]. destruct (negb _); now split.
  - unfold Storage.updateReview.
    destruct (match PartialInsertReview.rating updates with
              | Some q => _ | None => _ end); [|now split].
    destruct (List.forallb _ _); now split.
  - now split.
  - unfold Storage.saveRecipe.
    destruct (Storage.has_id _ _ _); [now split|].
    destruct (negb _); [now split|]. destruct (negb _); now split.
  - now split.
Qed.

Lemma recipes_after env w db :
  unique_ids Recipe.id (recipes db) ->
  unique_ids Recipe.id (recipes (after env w db)).
Proof.
  intros Hu. destruct w; cbn [after].
  - unfold DatabaseStorage.upsertUser.
    destruct (List.filter _ (users db));
      destruct (DatabaseStorage.email_taken _ _); exact Hu.
  - exact Hu.
  - exact Hu.
  - now apply createRecipe_keeps_keys.
  - unfold DatabaseStorage.updateRecipe.
    destruct (negb (Storage.int4 _ && Storage.int4 _)); [exact Hu|].
    destruct (List.forallb _ _); [|exact Hu]. cbn.
    apply unique_ids_map; [|exact Hu]. now apply if_hit_id.
  - rewrite deleteRecipe_db. destruct (Storage.has_id _ _ _); [|exact Hu].
    now apply unique_ids_filter.
  - unfold Storage.createReview.
    destruct (Storage.as_integer _); [|exact Hu].
    destruct (Storage.has_id Review.id _ _); [exact Hu|].
    destruct (negb _); [exact Hu|]. destruct (negb _); exact Hu.
  - unfold Storage.updateReview.
    destruct (match PartialInsertReview.rating updates with
              | Some q => _ | None => _ end); [|exact Hu].
    destruct (List.forallb _ _); exact Hu.
  - exact Hu.
  - unfold Storage.saveRecipe.
    destruct (Storage.has_id _ _ _); [exact Hu|].
    destruct (negb _); [exact Hu|]. destruct (negb _); exact Hu.
  - exact Hu.
Qed.

Lemma reviews_after env w db :
  unique_ids Review.id (reviews db) ->
  unique_ids Review.id (reviews (after env w db)).
Proof.
  intros Hu. destruct w; cbn [after].
  - unfold DatabaseStorage.upsertUser.
    destruct (List.filter _ (users db));
      destruct (DatabaseStorage.email_taken _ _); exact Hu.
  - exact Hu.
  - exact Hu.
  - unfold Storage.createRecipe.
    destruct (negb (Storage.int4 _ && Storage.int4 _)); [exact Hu|].
    destruct (Storage.has_id _ _ _); [exact Hu|].
    destruct (negb _); exact Hu.
  - unfold DatabaseStorage.updateRecipe.
    destruct (negb (Storage.int4 _ && Storage.int4 _)); [exact Hu|].
    destruct (List.forallb _ _); exact Hu.
  - rewrite deleteRecipe_db. destruct (Storage.has_id _ _ _); [|exact Hu].
    now apply unique_ids_filter.
  - now apply createReview_keeps_keys.
  - unfold Storage.updateReview.
    destruct (match PartialInsertReview.rating updates with
              | Some q => _ | None => _ end); [|exact Hu].
    destruct (List.forallb _ _); [|exact Hu]. cbn.
    apply unique_ids_map; [|exact Hu]. now apply if_hit_id.
  - cbn. now apply unique_ids_filter.
  - unfold Storage.saveRecipe.
    destruct (Storage.has_id _ _ _); [exact Hu|].
    destruct (negb _); [exact Hu|]. destruct (negb _); exact Hu.
  - exact Hu.
Qed.

Lemma savedRecipes_after env w db :
  unique_ids SavedRecipe.id (savedRecipes db) ->
  unique_ids SavedRecipe.id (savedRecipes (after env w db)).
Proof.
  intros Hu. destruct w; cbn [after].
  - unfold DatabaseStorage.upsertUser.
    destruct (List.filter _ (users db));
      destruct (DatabaseStorage.email_taken _ _); exact Hu.
  - exact Hu.
  - exact Hu.
  - unfold Storage.createRecipe.
    destruct (negb (Storage.int4 _ && Storage.int4 _)); [exact Hu|].
    destruct (Storage.has_id _ _ _); [exact Hu|].
    destruct (negb _); exact Hu.
  - unfold DatabaseStorage.updateRecipe.
    destruct (negb (Storage.int4 _ && Storage.int4 _)); [exact Hu|].
    destruct (List.forallb _ _); exact Hu.
  - rewrite deleteRecipe_db. destruct (Storage.has_id _ _ _); [|exact Hu].
    now apply unique_ids_filter.
  - unfold Storage.createReview.
    destruct (Storage.as_integer _); [|exact Hu].
    destruct (Storage.has_id Review.id _ _); [exact Hu|].
    destruct (negb _); [exact Hu|]. destruct (negb _); exact Hu.
  - unfold Storage.updateReview.
    destruct (match PartialInsertReview.rating updates with
              | Some q => _ | None => _ end); [|exact Hu].
    destruct (List.forallb _ _); exact Hu.
  - exact Hu.
  - now apply saveRecipe_keeps_keys.
  - cbn. now apply unique_ids_filter.
Qed.

Lemma keys_ok_after env w db : keys_ok db -> keys_ok (after env w db).
Proof.
  intros (H1 & H2 & H3 & H4). repeat split.
  - now apply users_after.
  - now apply recipes_after.
  - now apply reviews_after.
  - now apply savedRecipes_after.
Qed.

(** X13.  Primary keys are an invariant: whatever writes are run, in whatever
    order and with whatever outcome, ids stay distinct within each of the
    four tables. *)
Theorem writes_keep_primary_keys (env : Env) (ws : list Write) (db : Db) :
  keys_ok db -> keys_ok (after_all env ws db).
Proof.
  unfold after_all. revert db. induction ws as [|w ws IH]; intros db H;
    [exact H|].
  simpl. apply IH. now apply keys_ok_after.
Qed.

Lemma sample_keys_ok : keys_ok Sample.db.
Proof. repeat split; unique_ids_by_computation. Qed.

Lemma writes_keep_primary_keys_witness :
  keys_ok
    (after_all Sample.env
       [SaveRecipe Sample.alice_saves_r1; SaveRecipe Sample.alice_saves_r1;
        DeleteRecipe "r2"; BanUser "bob"]
       Sample.db).
Proof. apply writes_keep_primary_keys, sample_keys_ok. Defined.

Lemma references_kept (us us' : list User.t) fk :
  (forall k, Storage.has_id User.id k us = true ->
             Storage.has_id User.id k us' = true) ->
  Storage.references User.id us fk = true ->
  Storage.references User.id us' fk = true.
Proof. intros H. destruct fk; simpl; auto. Qed.

(** References keep resolving when the user table only changes in ways
    that keep its ids. *)
Lemma refs_ok_users db us :
  (forall k, Storage.has_id User.id k (users db) = true ->
             Storage.has_id User.id k us = true) ->
  refs_ok db -> refs_ok (DatabaseStorage.with_users db us).
Proof.
  intros Hk (H1 & H2 & H3). unfold refs_ok.
  cbn [users recipes reviews savedRecipes DatabaseStorage.with_users].
  split; [|split].
  - intros r Hr. eapply references_kept; [exact Hk | now apply H1].
  - intros v Hv. destruct (H2 v Hv). split; auto.
  - intros s Hs. destruct (H3 s Hs). split; auto.
Qed.

Lemma forallb_changed {R} (hit : R -> bool) (g : R -> R) (ok : R -> bool)
    (rows : list R) r :
  List.forallb ok (List.map g (List.filter hit rows)) = true ->
  In r rows -> hit r = true -> ok (g r) = true.
Proof.
  intros H Hin Hr. rewrite List.forallb_forall in H. apply H.
  apply List.in_map. now apply List.filter_In.
Qed.

Lemma In_map_if {R} (hit : R -> bool) (g : R -> R) (rows : list R) x :
  In x (List.map (fun r => if hit r then g r else r) rows) ->
  (In x rows /\ hit x = false)
  \/ exists r, In r rows /\ hit r = true /\ x = g r.
Proof.
  intros (r & <- & Hr)%List.in_map_iff. destruct (hit r) eqn:E.
  - right. now exists r.
  - left. now rewrite E.
Qed.

Lemma refs_ok_after env w db : refs_ok db -> refs_ok (after env w db).
Proof.
  intros Hok. pose proof Hok as (H1 & H2 & H3).
  destruct w; cbn [after].
  - unfold DatabaseStorage.upsertUser.
    destruct (List.filter _ (users db)) as [|u rest] eqn:E;
      destruct (DatabaseStorage.email_taken _ _); cbn [fst];
      try exact Hok; apply (refs_ok_users db); try exact Hok; intros k Hk.
    + now rewrite has_id_app, Hk.
    + rewrite has_id_map; [exact Hk | apply upsert_id].
  - apply (refs_ok_users db); [|exact Hok]. intros k Hk.
    rewrite has_id_map; [exact Hk|]. now apply if_hit_id.
  - apply (refs_ok_users db); [|exact Hok]. intros k Hk.
    rewrite has_id_map; [exact Hk|]. now apply if_hit_id.
  - unfold Storage.createRecipe.
    destruct (negb (Storage.int4 _ && Storage.int4 _)); [exact Hok|].
    destruct (Storage.has_id _ _ _); [exact Hok|].
    destruct (Storage.references _ _ _) eqn:Href; [|exact Hok].
    cbn [negb fst]. unfold refs_ok.
    cbn [users recipes reviews savedRecipes Storage.step
         Storage.with_recipes].
    split; [|split].
    + intros r [Hr|[<-|[]]]%List.in_app_or; [now apply H1 | exact Href].
    + intros v Hv. destruct (H2 v Hv) as [Ha Hb].
      split; [|exact Hb]. now rewrite has_id_app, Ha.
    + intros s Hs. destruct (H3 s Hs) as [Ha Hb].
      split; [exact Ha|]. now rewrite has_id_app, Hb.
  - unfold DatabaseStorage.updateRecipe.
    destruct (negb (Storage.int4 _ && Storage.int4 _)); [exact Hok|].
    destruct (List.forallb _ _) eqn:Hall; [|exact Hok].
    cbn [fst]. unfold refs_ok.
    cbn [users recipes reviews savedRecipes Storage.step
         Storage.with_recipes].
    split; [|split].
    + intros r [[Hr _]|(r0 & Hr0 & Hhit & ->)]%In_map_if;
        [now apply H1|].
      exact (forallb_changed _ _ _ _ r0 Hall Hr0 Hhit).
    + intros v Hv. destruct (H2 v Hv) as [Ha Hb]. split; [|exact Hb].
      rewrite has_id_map; [exact Ha|]. now apply if_hit_id.
    + intros s Hs. destruct (H3 s Hs) as [Ha Hb]. split; [exact Ha|].
      rewrite has_id_map; [exact Hb|]. now apply if_hit_id.
  - rewrite deleteRecipe_db.
    destruct (Storage.has_id _ _ _); [|exact Hok]. unfold refs_ok.
    cbn [users recipes reviews savedRecipes].
    split; [|split].
    + intros r [Hr _]%List.filter_In. now apply H1.
    + intros v [Hv Hne]%filter_negb_In. destruct (H2 v Hv) as [Ha Hb].
      split; [|exact Hb]. apply String.eqb_neq in Hne.
      now rewrite has_id_filter_other.
    + intros s [Hs Hne]%filter_negb_In. destruct (H3 s Hs) as [Ha Hb].
      split; [exact Ha|]. apply String.eqb_neq in Hne.
      now rewrite has_id_filter_other.
  - unfold Storage.createReview.
    destruct (Storage.as_integer _); [|exact Hok].
    destruct (Storage.has_id Review.id _ _); [exact Hok|].
    destruct (Storage.has_id Recipe.id _ _) eqn:Ha; [|exact Hok].
    destruct (Storage.has_id User.id _ _) eqn:Hb; [|exact Hok].
    cbn [negb fst]. unfold refs_ok.
    cbn [users recipes reviews savedRecipes Storage.step
         Storage.with_reviews].
    split; [exact H1|]. split; [|exact H3].
    intros v [Hv|[<-|[]]]%List.in_app_or; [now apply H2|].
    now split.
  - unfold Storage.updateReview.
    destruct (match PartialInsertReview.rating updates with
              | Some q => _ | None => _ end) as [rating|]; [|exact Hok].
    destruct (List.forallb _ _) eqn:Hall; [|exact Hok].
    cbn [fst]. unfold refs_ok.
    cbn [users recipes reviews savedRecipes Storage.step
         Storage.with_reviews].
    split; [exact H1|]. split; [|exact H3].
    intros v [[Hv _]|(v0 & Hv0 & Hhit & ->)]%In_map_if; [now apply H2|].
    pose proof (forallb_changed _ _ _ _ v0 Hall Hv0 Hhit) as Hchecked.
    now apply andb_prop in Hchecked.
  - unfold refs_ok. cbn. split; [exact H1|]. split; [|exact H3].
    intros v [Hv _]%List.filter_In. now apply H2.
  - unfold Storage.saveRecipe.
    destruct (Storage.has_id SavedRecipe.id _ _); [exact Hok|].
    destruct (Storage.has_id User.id _ _) eqn:Ha; [|exact Hok].
    destruct (Storage.has_id Recipe.id _ _) eqn:Hb; [|exact Hok].
    cbn [negb fst]. unfold refs_ok.
    cbn [users recipes reviews savedRecipes Storage.step
         Storage.with_savedRecipes].
    split; [exact H1|]. split; [exact H2|].
    intros s [Hs|[<-|[]]]%List.in_app_or; [now apply H3|].
    now split.
  - unfold refs_ok. cbn. split; [exact H1|]. split; [exact H2|].
    intros s [Hs _]%List.filter_In. now apply H3.
Qed.

(** X14.  Foreign keys are an invariant: whatever writes are run, in whatever
    order and with whatever outcome, every owner of a recipe, every recipe
    and author of a review and every user and recipe of a saved-recipe row
    is stored.  In particular deleting a recipe leaves no review or saved
    row behind, and no write removes a user. *)
Theorem writes_keep_foreign_keys (env : Env) (ws : list Write) (db : Db) :
  refs_ok db -> refs_ok (after_all env ws db).
Proof.
  unfold after_all. revert db. induction ws as [|w ws IH]; intros db H;
    [exact H|].
  simpl. apply IH. now apply refs_ok_after.
Qed.

Lemma writes_keep_foreign_keys_witness :
  refs_ok
    (after_all Sample.env
       [SaveRecipe Sample.alice_saves_r1; DeleteRecipe "r1";
        UpdateUserRole "bob" "admin"]
       Sample.db).
Proof. apply writes_keep_foreign_keys, sample_refs_ok. Defined.

(** ** The routes: answers, owners and ratings *)

Lemma try_catch_answers {A} (body : Promise A) (handler : Exn -> Promise A)
    db :
  (forall e db1, exists db2 a, handler e db1 = (db2, Return a)) ->
  exists db' a, try_catch body handler db = (db', Return a).
Proof.
  intros H. unfold try_catch. destruct (body db) as [db1 [a|e]].
  - now exists db1, a.
  - apply H.
Qed.

Lemma guarded_answers (handler : Handler) req db :
  (forall db1, exists db' res, handler req db1 = (db', Return res)) ->
  exists db' res,
    route [Routes.isAuthenticated] handler req db = (db', Return res).
Proof.
  intros H. cbn [route]. unfold await, Routes.isAuthenticated.
  destruct (user req); cbn; [apply H | now eexists _, _].
Qed.

Lemma guarded_unauthenticated (handler : Handler) req db :
  user req = None ->
  route [Routes.isAuthenticated] handler req db
  = (db, Return (mkResponse 401 (JMessage "Unauthorized"))).
Proof.
  intros H. cbn [route]. unfold await, Routes.isAuthenticated.
  now rewrite H.
Qed.

Lemma respond_answers status json (db : Db) :
  exists db' res, respond status json db = (db', Return res).
Proof. now eexists _, _. Qed.

Lemma zod_or_answers message e db :
  exists db' res, Routes.zod_or message e db = (db', Return res).
Proof. destruct e; now eexists _, _. Qed.

(** X15.  No failure escapes a handler: whatever the request and the database,
    and whatever the outside world does, each of these routes answers with
    a response. *)
Theorem handlers_always_answer (env : Env) (req : Request) (db : Db) :
  (exists db' res, Routes.get_recipe req db = (db', Return res))
  /\ (exists db' res, Routes.delete_recipe req db = (db', Return res))
  /\ (exists db' res, Routes.create_review env req db = (db', Return res))
  /\ (exists db' res, Routes.update_review env req db = (db', Return res))
  /\ (exists db' res, Routes.delete_review req db = (db', Return res))
  /\ (exists db' res,
        Routes.generate_from_ingredients env req db = (db', Return res)).
Proof.
  split; [apply try_catch_answers; intros; cbv beta; apply respond_answers|].
  split; [|split; [|split; [|split]]];
    apply guarded_answers; intros db1;
    apply try_catch_answers; intros;
    cbv beta;
    first [apply zod_or_answers | apply respond_answers].
Qed.

(** X16.  The owner of a recipe, and any admin, can delete it: the answer is
    200, the recipe is gone with its reviews and saved rows, and
    [getRecipe] no longer finds it. *)
Theorem delete_recipe_by_owner_or_admin (req : Request) (db : Db)
    (sub : string) (r : Recipe.t) :
  user req = Some sub ->
  unique_ids Recipe.id (recipes db) ->
  In r (recipes db) -> Recipe.id r = params_id req ->
  Recipe.userId r = Some sub
  \/ Routes.is_admin
       (head (List.filter (fun u => String.eqb (User.id u) sub) (users db)))
     = true ->
  exists db',
    Routes.delete_recipe req db
    = (db', Return (mkResponse 200 (JMessage "Recipe deleted successfully")))
    /\ Storage.getRecipe (params_id req) db' = (db', Return None)
    /\ (forall v, In v (reviews db') -> Review.recipeId v <> params_id req)
    /\ (forall s, In s (savedRecipes db') ->
                  SavedRecipe.recipeId s <> params_id req).
Proof.
  intros Hu Hunique Hin Hid Hmay.
  assert (Hstored : Storage.has_id Recipe.id (params_id req) (recipes db)
                    = true).
  { apply has_id_In, List.in_map_iff. now exists r. }
  destruct (deleteRecipe_stored (params_id req) db Hstored)
    as (db' & Hrun & _ & _ & Hv & Hs & Hget).
  exists db'. split; [|split; [exact Hget|split]].
  - unfold Routes.delete_recipe. simpl.
    unfold Routes.isAuthenticated, Routes.claims_sub. rewrite Hu.
    unfold try_catch, await, next, resolve, respond.
    rewrite getRecipe_unfold, <- Hid.
    rewrite (filter_by_id_unique Recipe.id _ r Hunique Hin).
    rewrite getUser_head. cbn [RecipeWithReviews.recipe].
    assert (Routes.differs (Recipe.userId r) sub
            && negb (Routes.is_admin
                       (head (List.filter
                                (fun u => String.eqb (User.id u) sub)
                                (users db)))) = false) as ->.
    { destruct Hmay as [-> | ->]; [|apply andb_false_r].
      simpl. now rewrite String.eqb_refl. }
    rewrite Hid, Hrun. reflexivity.
  - intros v Hin'. now apply Hv.
  - intros s Hin'. now apply Hs.
Qed.

Lemma delete_recipe_by_owner_or_admin_witness :
  (exists db',
     Routes.delete_recipe (Sample.as_ "alice" "r1" ∅) Sample.db
     = (db',
        Return (mkResponse 200 (JMessage "Recipe deleted successfully")))
     /\ Storage.getRecipe "r1" db' = (db', Return None))
  /\ exists db',
       Routes.delete_recipe (Sample.as_ "root" "r1" ∅) Sample.db
       = (db',
          Return (mkResponse 200 (JMessage "Recipe deleted successfully"))).
Proof.
  split.
  - destruct (delete_recipe_by_owner_or_admin (Sample.as_ "alice" "r1" ∅)
                Sample.db "alice" Sample.pasta_salad)
      as (db' & H1 & H2 & _);
      [reflexivity | unique_ids_by_computation | simpl; auto | reflexivity
       | now left |].
    now exists db'.
  - destruct (delete_recipe_by_owner_or_admin (Sample.as_ "root" "r1" ∅)
                Sample.db "root" Sample.pasta_salad)
      as (db' & H1 & _);
      [reflexivity | unique_ids_by_computation | simpl; auto | reflexivity
       | now right |].
    now exists db'.
Defined.

(** What [as_integer] accepts is the number it was given. *)
Lemma as_integer_value q z :
  Storage.as_integer q = Some z -> (q == inject_Z z)%Q.
Proof.
  unfold Storage.as_integer.
  destruct (Pos.eqb_spec (Qden (Qred q)) 1) as [E|E]; [|discriminate].
  intros [= <-]. rewrite <- (Qred_correct q) at 1.
  destruct (Qred q) as [n d]. simpl in *. subst d. reflexivity.
Qed.

Lemma stars q z :
  (1 <= q)%Q -> (q <= 5)%Q -> Storage.as_integer q = Some z ->
  (1 <= z <= 5)%Z.
Proof.
  intros H1 H5 Hz. apply as_integer_value in Hz. rewrite Hz in H1, H5.
  change 1%Q with (inject_Z 1) in H1. change 5%Q with (inject_Z 5) in H5.
  rewrite <- Zle_Qle in H1, H5. lia.
Qed.

Lemma partial_parse_rating (o : JsObj) updates q :
  Zod.insertReviewSchema_partial_parse o = Return updates ->
  PartialInsertReview.rating updates = Some q ->
  (1 <= q)%Q /\ (q <= 5)%Q.
Proof.
  unfold Zod.insertReviewSchema_partial_parse.
  destruct (Zod.optional Zod.string_ "recipeId" _),
           (Zod.optional Zod.string_ "userId" _),
           (Zod.optional Zod.rating_ "rating" _) as [rating|] eqn:Hr,
           (Zod.optional _ "comment" _),
           (Zod.optional _ "isApproved" _);
    try discriminate.
  intros [= <-]. cbn. intros ->. unfold Zod.optional in Hr.
  destruct (Zod.get o "rating"); try discriminate;
    destruct (Zod.rating_ _ _) as [q'|] eqn:Hq; try discriminate;
    injection Hr as <-; now apply rating_accepted in Hq.
Qed.

Lemma parse_rating (o : JsObj) data :
  Zod.insertReviewSchema_parse o = Return data ->
  (1 <= InsertReview.rating data)%Q /\ (InsertReview.rating data <= 5)%Q.
Proof.
  unfold Zod.insertReviewSchema_parse.
  destruct (Zod.string_ "recipeId" _), (Zod.string_ "userId" _),
           (Zod.rating_ "rating" _) as [rating|] eqn:Hr,
           (Zod.optional _ "comment" _),
           (Zod.optional _ "isApproved" _);
    try discriminate.
  intros [= <-]. cbn. now apply rating_accepted in Hr.
Qed.

Lemma ratings_in_range_same db db' :
  reviews db' = reviews db -> ratings_in_range db -> ratings_in_range db'.
Proof. unfold ratings_in_range. now intros ->. Qed.

Lemma zod_or_db message e db : fst (Routes.zod_or message e db) = db.
Proof. now destruct e. Qed.

(** X17.  Ratings stay within 1 to 5 stars: if every stored rating is, then so
    is every stored rating after a request to the create, update or delete
    route of reviews, whatever the request and its outcome. *)
Theorem review_routes_keep_ratings_in_range (env : Env) (req : Request)
    (db : Db) :
  ratings_in_range db ->
  ratings_in_range (fst (Routes.create_review env req db))
  /\ ratings_in_range (fst (Routes.update_review env req db))
  /\ ratings_in_range (fst (Routes.delete_review req db)).
Proof.
  intros Hok. destruct (user req) as [sub|] eqn:Hu.
  2: { unfold Routes.create_review, Routes.update_review,
         Routes.delete_review.
       rewrite !guarded_unauthenticated by exact Hu. cbn [fst]. auto. }
  split; [|split].
  - rewrite (create_review_unfold env req db sub Hu).
    destruct (Zod.insertReviewSchema_parse _) as [data|e] eqn:Hparse;
      [|now rewrite zod_or_db].
    destruct (parse_rating _ _ Hparse) as [H1 H5].
    unfold Storage.createReview.
    destruct (Storage.as_integer _) as [z|] eqn:Hz; [|exact Hok].
    destruct (Storage.has_id Review.id _ _); [exact Hok|].
    destruct (negb _); [exact Hok|]. destruct (negb _); [exact Hok|].
    cbn. intros v [Hv|[<-|[]]]%List.in_app_or; [now apply Hok|].
    cbn. exact (stars _ _ H1 H5 Hz).
  - rewrite (update_review_unfold env req db sub Hu).
    destruct (Zod.insertReviewSchema_partial_parse _) as [updates|e]
      eqn:Hparse; [|now rewrite zod_or_db].
    unfold Storage.updateReview.
    destruct (PartialInsertReview.rating updates) as [q|] eqn:Hq.
    + destruct (partial_parse_rating _ _ _ Hparse Hq) as [H1 H5].
      destruct (Storage.as_integer q) as [z|] eqn:Hz; [|exact Hok].
      destruct (List.forallb _ _); [|exact Hok].
      assert (Hrows : ratings_in_range
                (Storage.step
                   (Storage.with_reviews db
                      (List.map
                         (fun r =>
                            if Storage.owned_review (params_id req) sub r
                            then Storage.set_review updates (Some z)
                                   (now env (tick db)) r
                            else r)
                         (reviews db))))).
      { intros v [[Hv _]|(v0 & Hv0 & _ & ->)]%In_map_if; [now apply Hok|].
        cbn. exact (stars _ _ H1 H5 Hz). }
      now destruct (head _).
    + destruct (List.forallb _ _); [|exact Hok].
      assert (Hrows : ratings_in_range
                (Storage.step
                   (Storage.with_reviews db
                      (List.map
                         (fun r =>
                            if Storage.owned_review (params_id req) sub r
                            then Storage.set_review updates None
                                   (now env (tick db)) r
                            else r)
                         (reviews db))))).
      { intros v [[Hv _]|(v0 & Hv0 & _ & ->)]%In_map_if; [now apply Hok|].
        cbn. now apply Hok. }
      now destruct (head _).
  - unfold Routes.delete_review. cbn [route].
    unfold await, Routes.isAuthenticated, Routes.claims_sub. rewrite Hu.
    unfold try_catch, next, resolve, respond. rewrite getUser_head.
    unfold Storage.deleteReview.
    assert (Hrows : ratings_in_range
              (Storage.with_reviews db
                 (List.filter
                    (fun r => negb (Storage.owned_review (params_id req)
                                      sub r))
                    (reviews db)))).
    { intros v [Hv _]%List.filter_In. now apply Hok. }
    now destruct (negb _).
Qed.

Lemma sample_ratings_in_range : ratings_in_range Sample.db.
Proof.
  intros v Hv. simpl in Hv.
  repeat (destruct Hv as [<-|Hv]; [simpl; lia|]). destruct Hv.
Qed.

Lemma review_routes_keep_ratings_in_range_witness :
  ratings_in_range
    (fst (Routes.create_review Sample.env
            (Sample.as_ "bob" "r1" {["rating" := JsNumber 5]}) Sample.db)).
Proof.
  apply (review_routes_keep_ratings_in_range Sample.env
           (Sample.as_ "bob" "r1" {["rating" := JsNumber 5]}) Sample.db).
  apply sample_ratings_in_range.
Defined.

(** ** The author and the review *)

Lemma filter_andb {R} (p q : R -> bool) (l : list R) :
  List.filter (fun x => p x && q x) l = List.filter q (List.filter p l).
Proof.
  induction l as [|x l IH]; [reflexivity|]. simpl.
  destruct (p x); simpl; [|exact IH]. destruct (q x); now rewrite IH.
Qed.

Lemma filter_owned_unique db v :
  unique_ids Review.id (reviews db) -> In v (reviews db) ->
  List.filter (Storage.owned_review (Review.id v) (Review.userId v))
    (reviews db) = [v].
Proof.
  intros Hu Hin. unfold Storage.owned_review.
  rewrite (filter_andb (fun r => String.eqb (Review.id r) (Review.id v))).
  rewrite (filter_by_id_unique Review.id _ v Hu Hin). simpl.
  now rewrite String.eqb_refl.
Qed.

Lemma owned_is_the_review db v x :
  unique_ids Review.id (reviews db) -> In v (reviews db) ->
  In x (reviews db) ->
  Storage.owned_review (Review.id v) (Review.userId v) x = false <-> x <> v.
Proof.
  intros Hu Hv Hx. split.
  - intros H ->. unfold Storage.owned_review in H.
    now rewrite !String.eqb_refl in H.
  - intros Hne. apply not_true_is_false. intros H. apply Hne.
    assert (In x [v]) as [->|[]]; [|reflexivity].
    rewrite <- (filter_owned_unique db v Hu Hv). now apply List.filter_In.
Qed.

(** X18.  The author of a review can delete it and update it.  A delete is
    answered 200 and removes that review and no other.  An update whose
    body passes validation, whose rating (if any) is an integer and whose
    resulting recipe and author exist is answered 200 with the stored row:
    the old review with every key of the body written over it - [userId],
    [recipeId] and [isApproved] included - and [updatedAt] renewed, its id
    and [createdAt] kept; every other review stays as it was. *)
Theorem author_edits_own_review (env : Env) (req : Request) (db : Db)
    (v : Review.t) :
  user req = Some (Review.userId v) ->
  unique_ids Review.id (reviews db) ->
  In v (reviews db) -> Review.id v = params_id req ->
  (exists db',
     Routes.delete_review req db
     = (db', Return (mkResponse 200 (JMessage "Review deleted successfully")))
     /\ forall x, In x (reviews db') <-> In x (reviews db) /\ x <> v)
  /\ (forall updates rating,
        Zod.insertReviewSchema_partial_parse (body req) = Return updates ->
        match PartialInsertReview.rating updates with
        | Some q => Storage.as_integer q = Some rating
        | None => rating = Review.rating v
        end ->
        let v' :=
          Review.mk (Review.id v)
            (Storage.or_keep (Review.recipeId v)
               (PartialInsertReview.recipeId updates))
            (Storage.or_keep (Review.userId v)
               (PartialInsertReview.userId updates))
            rating
            (Storage.or_keep (Review.comment v)
               (PartialInsertReview.comment updates))
            (Storage.or_keep (Review.isApproved v)
               (PartialInsertReview.isApproved updates))
            (Review.createdAt v)
            (now env (tick db)) in
        Storage.has_id Recipe.id (Review.recipeId v') (recipes db) = true ->
        Storage.has_id User.id (Review.userId v') (users db) = true ->
        exists db',
          Routes.update_review env req db
          = (db', Return (mkResponse 200 (JReview v')))
          /\ In v' (reviews db')
          /\ length (reviews db') = length (reviews db)
          /\ forall x, In x (reviews db) -> x <> v -> In x (reviews db')).
Proof.
  intros Hu Hunique Hin Hid. split.
  - eexists. split.
    + unfold Routes.delete_review. cbn [route].
      unfold await, Routes.isAuthenticated, Routes.claims_sub. rewrite Hu.
      unfold try_catch, next, resolve, respond. rewrite getUser_head.
      unfold Storage.deleteReview. rewrite <- Hid.
      rewrite (filter_owned_unique db v Hunique Hin). reflexivity.
    + intros x. cbn [reviews Storage.with_reviews].
      rewrite filter_negb_In. split.
      * intros [Hx H]. split; [exact Hx|].
        now apply (owned_is_the_review db v x).
      * intros [Hx H]. split; [exact Hx|].
        now apply (owned_is_the_review db v x).
  - intros updates rating Hparse Hrating v' Hrecipe Hauthor.
    rewrite (update_review_unfold env req db _ Hu), Hparse.
    unfold Storage.updateReview. rewrite <- Hid.
    rewrite (filter_owned_unique db v Hunique Hin).
    assert (Hbound :
              match PartialInsertReview.rating updates with
              | Some q =>
                  match Storage.as_integer q with
                  | Some z => Some (Some z)
                  | None => None
                  end
              | None => Some None
              end
              = Some (match PartialInsertReview.rating updates with
                      | Some _ => Some rating
                      | None => None
                      end)).
    { destruct (PartialInsertReview.rating updates); [|reflexivity].
      now rewrite Hrating. }
    rewrite Hbound.
    assert (Hv' : Storage.set_review updates
                    (match PartialInsertReview.rating updates with
                     | Some _ => Some rating
                     | None => None
                     end) (now env (tick db)) v = v').
    { unfold Storage.set_review, v'. f_equal.
      destruct (PartialInsertReview.rating updates); [reflexivity|].
      now rewrite Hrating. }
    cbn [List.map List.forallb]. rewrite Hv', Hrecipe, Hauthor.
    cbn [andb head]. eexists. split; [reflexivity|].
    cbn [reviews Storage.step Storage.with_reviews].
    split; [|split].
    + apply List.in_map_iff. exists v. split; [|exact Hin].
      unfold Storage.owned_review. now rewrite !String.eqb_refl.
    + apply List.length_map.
    + intros x Hx Hne. apply map_if_In; [exact Hx|].
      now apply (owned_is_the_review db v x).
Qed.

Lemma author_edits_own_review_witness :
  let retract : JsObj :=
    <["rating" := JsNumber 2]> {["isApproved" := JsBool true]} in
  (exists db',
     Routes.delete_review (Sample.as_ "bob" "v3" ∅) Sample.db
     = (db',
        Return (mkResponse 200 (JMessage "Review deleted successfully"))))
  /\ exists db',
       Routes.update_review Sample.env (Sample.as_ "bob" "v3" retract)
         Sample.db
       = (db',
          Return (mkResponse 200
                    (JReview (Review.mk "v3" "r1" "bob" 2 None (Some true)
                                3 0)))).
Proof.
  intros retract. split.
  - destruct (proj1 (author_edits_own_review Sample.env
                       (Sample.as_ "bob" "v3" ∅) Sample.db Sample.v3
                       eq_refl ltac:(unique_ids_by_computation)
                       ltac:(simpl; auto) eq_refl)) as (db' & H & _).
    now exists db'.
  - destruct (proj2 (author_edits_own_review Sample.env
                       (Sample.as_ "bob" "v3" retract) Sample.db Sample.v3
                       eq_refl ltac:(unique_ids_by_computation)
                       ltac:(simpl; auto) eq_refl)
                _ 2%Z eq_refl eq_refl eq_refl eq_refl) as (db' & H & _).
    now exists db'.
Defined.

(** ** Strangers *)

(** X25.  An authenticated caller who does not own a stored recipe, and
    whose identity is not that of a stored user with the role "admin",
    cannot delete it: the answer is 403 and nothing is written. *)
Theorem strangers_cannot_delete_recipes (req : Request) (db : Db)
    (sub : string) (r : Recipe.t) :
  user req = Some sub ->
  unique_ids Recipe.id (recipes db) ->
  In r (recipes db) -> Recipe.id r = params_id req ->
  Recipe.userId r <> Some sub ->
  (forall u, In u (users db) -> User.id u = sub ->
             User.role u <> Some "admin") ->
  Routes.delete_recipe req db
  = (db,
     Return (mkResponse 403
               (JMessage "Not authorized to delete this recipe"))).
Proof.
  intros Hu Hunique Hin Hid Howner Hnone.
  unfold Routes.delete_recipe. simpl.
  unfold Routes.isAuthenticated, Routes.claims_sub. rewrite Hu.
  unfold try_catch, await, next, resolve, respond.
  rewrite getRecipe_unfold, <- Hid.
  rewrite (filter_by_id_unique Recipe.id _ r Hunique Hin).
  rewrite getUser_head, (no_stored_admin sub db Hnone).
  cbn [RecipeWithReviews.recipe].
  assert (Routes.differs (Recipe.userId r) sub = true) as ->; [|reflexivity].
  unfold Routes.differs. destruct (Recipe.userId r) as [owner|];
    [|reflexivity].
  apply negb_true_iff, String.eqb_neq. congruence.
Qed.

(** "bob" against the recipe "r1" of "alice". *)
Lemma strangers_cannot_delete_recipes_witness :
  Routes.delete_recipe (Sample.as_ "bob" "r1" ∅) Sample.db
  = (Sample.db,
     Return (mkResponse 403
               (JMessage "Not authorized to delete this recipe")))
  /\ In Sample.pasta_salad (recipes Sample.db).
Proof.
  split; [|simpl; auto].
  apply (strangers_cannot_delete_recipes (Sample.as_ "bob" "r1" ∅)
           Sample.db "bob" Sample.pasta_salad);
    [reflexivity | unique_ids_by_computation | simpl; auto | reflexivity
     | discriminate |].
  intros u [<-|[<-|[<-|[]]]]; discriminate.
Defined.

(** X26.  An authenticated caller who is not the author of a stored review
    can neither delete nor change it through the review routes, admin or
    not: a delete is answered 404 and writes nothing; an update, whatever
    its body, is answered 404, 400 or 500 and leaves every stored row as
    it was. *)
Theorem strangers_cannot_change_reviews (env : Env) (req : Request)
    (db : Db) (sub : string) (v : Review.t) :
  user req = Some sub ->
  unique_ids Review.id (reviews db) ->
  In v (reviews db) -> Review.id v = params_id req ->
  Review.userId v <> sub ->
  Routes.delete_review req db
  = (db,
     Return (mkResponse 404
               (JMessage "Review not found or not authorized")))
  /\ exists db' res,
       Routes.update_review env req db = (db', Return res)
       /\ users db' = users db /\ recipes db' = recipes db
       /\ reviews db' = reviews db /\ savedRecipes db' = savedRecipes db
       /\ (status res = 404 \/ status res = 400 \/ status res = 500)%Z.
Proof.
  intros Hu Hunique Hin Hid Hauthor.
  pose proof (not_owned db v (params_id req) sub Hunique Hin Hid Hauthor)
    as Hno.
  destruct (filter_none _ _ Hno) as [Hnone Hall]. split.
  - unfold Routes.delete_review. simpl.
    unfold Routes.isAuthenticated, Routes.claims_sub. rewrite Hu.
    unfold try_catch, await, next, resolve, respond.
    rewrite getUser_head. unfold Storage.deleteReview.
    now rewrite Hnone, Hall, with_reviews_same.
  - rewrite (update_review_unfold env req db sub Hu).
    destruct (Zod.insertReviewSchema_partial_parse (body req))
      as [updates|e] eqn:Hparse.
    + rewrite (updateReview_no_match env _ sub updates db Hno).
      destruct (PartialInsertReview.rating updates) as [q|];
        [destruct (Storage.as_integer q)|];
        eexists _, _; (split; [reflexivity|]);
        do 4 (split; [reflexivity|]); auto.
    + destruct (partial_parse_throws _ _ Hparse) as [errors ->].
      eexists _, _. split; [reflexivity|].
      do 4 (split; [reflexivity|]). auto.
Qed.

(** "bob" against the review "v1" of "alice", with a well-formed update
    and with one that fails validation. *)
Lemma strangers_cannot_change_reviews_witness :
  Routes.delete_review (Sample.as_ "bob" "v1" ∅) Sample.db
  = (Sample.db,
     Return (mkResponse 404
               (JMessage "Review not found or not authorized")))
  /\ exists db' res,
       Routes.update_review Sample.env
         (Sample.as_ "bob" "v1" {["rating" := JsNumber 9]}) Sample.db
       = (db', Return res)
       /\ reviews db' = reviews Sample.db.
Proof.
  split.
  - apply (proj1 (strangers_cannot_change_reviews Sample.env
                    (Sample.as_ "bob" "v1" ∅) Sample.db "bob" Sample.v1
                    eq_refl ltac:(unique_ids_by_computation)
                    ltac:(simpl; auto) eq_refl ltac:(discriminate))).
  - destruct (proj2 (strangers_cannot_change_reviews Sample.env
                       (Sample.as_ "bob" "v1" {["rating" := JsNumber 9]})
                       Sample.db "bob" Sample.v1
                       eq_refl ltac:(unique_ids_by_computation)
                       ltac:(simpl; auto) eq_refl ltac:(discriminate)))
      as (db' & res & Hrun & _ & _ & Hreviews & _).
    now exists db', res.
Defined.

(** ** What a search lists *)

Lemma nat_of_lower (a : ascii) :
  nat_of_ascii (Drizzle.lower_ascii a)
  = if (65 <=? nat_of_ascii a)%nat && (nat_of_ascii a <=? 90)%nat
    then (nat_of_ascii a + 32)%nat
    else nat_of_ascii a.
Proof.
  unfold Drizzle.lower_ascii.
  destruct (Nat.leb_spec 65 (nat_of_ascii a)),
           (Nat.leb_spec (nat_of_ascii a) 90); simpl; try reflexivity.
  apply nat_ascii_embedding. lia.
Qed.

Lemma nat_of_ascii_inj (a b : ascii) :
  nat_of_ascii a = nat_of_ascii b -> a = b.
Proof.
  intros H. rewrite <- (ascii_nat_embedding a), <- (ascii_nat_embedding b).
  now rewrite H.
Qed.

(** Folding the case identifies a capital letter with its small form and
    nothing else. *)
Lemma lower_same_letter (a b : ascii) :
  Drizzle.lower_ascii a = Drizzle.lower_ascii b <-> same_letter a b.
Proof.
  unfold same_letter, small_of. split.
  - intros H. apply (f_equal nat_of_ascii) in H.
    rewrite !nat_of_lower in H.
    destruct (Nat.leb_spec 65 (nat_of_ascii a)),
             (Nat.leb_spec (nat_of_ascii a) 90),
             (Nat.leb_spec 65 (nat_of_ascii b)),
             (Nat.leb_spec (nat_of_ascii b) 90); simpl in H;
      first [left; apply nat_of_ascii_inj; lia
            | right; left; lia
            | right; right; lia].
  - intros H. apply nat_of_ascii_inj. rewrite !nat_of_lower.
    destruct H as [->|[[H1 H2]|[H1 H2]]]; [reflexivity|..];
      destruct (Nat.leb_spec 65 (nat_of_ascii a)),
               (Nat.leb_spec (nat_of_ascii a) 90),
               (Nat.leb_spec 65 (nat_of_ascii b)),
               (Nat.leb_spec (nat_of_ascii b) 90); simpl; lia.
Qed.

Lemma lower_same_letters (l l' : list ascii) :
  Drizzle.lower l = Drizzle.lower l' <-> Forall2 same_letter l l'.
Proof.
  unfold Drizzle.lower. revert l'.
  induction l as [|a l IH]; intros [|b l']; simpl.
  - split; [constructor | reflexivity].
  - split; [discriminate | intros H; inversion H].
  - split; [discriminate | intros H; inversion H].
  - split.
    + intros [= H1 H2]. constructor; [now apply lower_same_letter|].
      now apply IH.
    + intros H. inversion H as [|? ? ? ? H1 H2]; subst. f_equal.
      * now apply lower_same_letter.
      * now apply IH.
Qed.

Lemma occurs_in_spec (needle hay : string) :
  occurs_in needle hay <-> contains_ignoring_case needle hay.
Proof.
  unfold occurs_in, contains_ignoring_case, Drizzle.lower. split.
  - intros (before & after & E).
    apply List.map_eq_app in E as (before' & rest & E1 & <- & E).
    apply List.map_eq_app in E as (middle & after' & -> & E & <-).
    exists before', middle, after'. split; [exact E1|].
    now apply lower_same_letters.
  - intros (before & middle & after & E & H).
    apply lower_same_letters in H. unfold Drizzle.lower in H.
    exists (List.map Drizzle.lower_ascii before),
           (List.map Drizzle.lower_ascii after).
    now rewrite E, !List.map_app, H.
Qed.

(** X19.  A search for a term without [%], [_] and [\], on a page that has
    room for every recipe, lists exactly the stored recipes whose name or
    description contains the term, letter case ignored - whatever the
    other filters ask for and whether or not the recipe is approved.  The
    term and the stored texts are ASCII. *)
Theorem getRecipes_search_finds (limit : Z) (search : string)
    (filters : Storage.Filters) (db : Db) :
  Storage.f_search filters = Some search -> search <> "" -> plain search ->
  ascii_text search ->
  (forall r, In r (recipes db) ->
             ascii_text (Recipe.name r)
             /\ forall description,
                  Recipe.description r = Some description ->
                  ascii_text description) ->
  unique_ids User.id (users db) ->
  (Z.of_nat (length (recipes db)) <= limit)%Z ->
  exists rows,
    Storage.getRecipes limit 0 filters db = (db, Return rows)
    /\ forall r,
         In r (List.map fst rows)
         <-> In r (recipes db)
             /\ (contains_ignoring_case search (Recipe.name r)
                 \/ exists description,
                      Recipe.description r = Some description
                      /\ contains_ignoring_case search description).
Proof.
  intros Hs Hne Hplain _ _ Hu Hlimit.
  rewrite getRecipes_window by lia. eexists. split; [reflexivity|].
  intros r. change (Z.to_nat 0) with 0%nat. rewrite List.skipn_O.
  set (join := Drizzle.leftJoin (recipes db) (users db) Storage.recipe_user).
  assert (Hjoin : List.map fst join = recipes db).
  { apply leftJoin_fst_unique. intros x. now apply at_most_one_owner. }
  assert (Hspec :
            Storage.search_matches search r = true
            <-> contains_ignoring_case search (Recipe.name r)
                \/ exists description,
                     Recipe.description r = Some description
                     /\ contains_ignoring_case search description).
  { rewrite (search_matches_plain_term search r Hplain), occurs_in_spec.
    split; (intros [H|(d & Hd & H)]; [now left | right; exists d]);
      (split; [exact Hd | now apply occurs_in_spec]). }
  rewrite List.firstn_all2.
  - rewrite map_fst_sort_desc.
    rewrite (map_fst_filter (last_condition filters)), Hjoin.
    rewrite <- Hspec.
    assert (Hc : last_condition filters r = Storage.search_matches search r).
    { unfold last_condition. now rewrite Hs, truthy_some. }
    rewrite <- Hc. rewrite <- List.filter_In. split.
    + apply Permutation_in, sort_desc_perm.
    + apply Permutation_in. symmetry. apply sort_desc_perm.
  - rewrite (Permutation_length (sort_desc_perm _ _)).
    etransitivity; [apply List.filter_length_le|].
    rewrite <- (List.length_map fst), Hjoin. lia.
Qed.

(** The search for "STEW" with the cuisine "italian" lists the unapproved
    mexican "Secret stew", and does not list "Risotto". *)
Lemma getRecipes_search_finds_witness :
  exists rows,
    Storage.getRecipes 20 0 (Sample.cuisine_and_search "italian" "STEW")
      Sample.db
    = (Sample.db, Return rows)
    /\ In Sample.draft (List.map fst rows)
    /\ ~ In Sample.risotto (List.map fst rows).
Proof.
  destruct (getRecipes_search_finds 20 "STEW"
              (Sample.cuisine_and_search "italian" "STEW") Sample.db)
    as (rows & Hrun & Hrows).
  - reflexivity.
  - discriminate.
  - unfold plain. repeat constructor.
  - unfold ascii_text. simpl. repeat constructor; simpl; lia.
  - intros r [<-|[<-|[<-|[]]]]; (split; [|discriminate]);
      unfold ascii_text; simpl; repeat constructor; simpl; lia.
  - unique_ids_by_computation.
  - simpl. lia.
  - exists rows. split; [exact Hrun|]. split.
    + apply Hrows. split; [simpl; auto|]. left.
      exists (list_ascii_of_string "Secret "), (list_ascii_of_string "stew"),
        []. split; [reflexivity|].
      repeat constructor; right; right; split; simpl; lia.
    + intros H. apply Hrows in H as [_ [H|(d & [=] & _)]].
      apply occurs_in_spec in H. destruct H as (before & after & E).
      cbn in E.
      repeat (destruct before as [|? before]; [discriminate|];
              injection E as _ E).
      destruct before; discriminate.
Defined.

(** ** The saved-recipe routes *)

Lemma more_route_unauthenticated (handler : Request -> Promise Reply) req db :
  user req = None ->
  MoreRoutes.route [Routes.isAuthenticated] handler req db
  = (db, Return (mkReply 401 (SentJson (JMessage "Unauthorized")))).
Proof.
  intros H. cbn [MoreRoutes.route]. unfold await, Routes.isAuthenticated.
  now rewrite H.
Qed.

Lemma more_route_authenticated (handler : Request -> Promise Reply) req db
    sub :
  user req = Some sub ->
  MoreRoutes.route [Routes.isAuthenticated] handler req db = handler req db.
Proof.
  intros H. cbn [MoreRoutes.route]. unfold await, Routes.isAuthenticated.
  now rewrite H.
Qed.

Lemma saved_status_outcome req db sub :
  user req = Some sub ->
  MoreRoutes.saved_status req db
  = (db,
     Return (mkReply 200
               (SentIsSaved
                  (List.existsb (Storage.saved_pair sub (params_id req))
                     (savedRecipes db))))).
Proof.
  intros Hu. unfold MoreRoutes.saved_status.
  rewrite (more_route_authenticated _ req db sub Hu).
  unfold try_catch, await, Routes.claims_sub. rewrite Hu.
  unfold resolve at 1. now rewrite isRecipeSaved_exists.
Qed.

Lemma saved_pair_false userId recipeId s :
  Storage.saved_pair userId recipeId s = false
  <-> ~ (SavedRecipe.userId s = userId /\ SavedRecipe.recipeId s = recipeId).
Proof.
  unfold Storage.saved_pair. rewrite <- not_true_iff_false, andb_true_iff.
  now rewrite !String.eqb_eq.
Qed.

(** X20.  The saved-recipe routes act for the caller of the session only.
    Without a session each answers 401 and nothing changes.  With one, the
    status route tells whether the caller has saved the recipe; the unsave
    route answers 200 if so and 404 if not, removes the caller's rows for
    that recipe and no row of anybody else, leaves the other tables alone,
    and afterwards the status route answers false. *)
Theorem saved_routes_act_for_the_caller (req : Request) (db : Db) :
  (user req = None ->
   MoreRoutes.unsave_recipe req db
   = (db, Return (mkReply 401 (SentJson (JMessage "Unauthorized"))))
   /\ MoreRoutes.saved_status req db
      = (db, Return (mkReply 401 (SentJson (JMessage "Unauthorized"))))
   /\ MoreRoutes.saved_recipes req db
      = (db, Return (mkReply 401 (SentJson (JMessage "Unauthorized")))))
  /\ forall sub,
       user req = Some sub ->
       let saved :=
         List.existsb (Storage.saved_pair sub (params_id req))
           (savedRecipes db) in
       MoreRoutes.saved_status req db
       = (db, Return (mkReply 200 (SentIsSaved saved)))
       /\ exists db',
            MoreRoutes.unsave_recipe req db
            = (db',
               Return
                 (if saved
                  then mkReply 200
                         (SentJson (JMessage "Recipe unsaved successfully"))
                  else mkReply 404
                         (SentJson (JMessage "Saved recipe not found"))))
            /\ (forall s,
                  In s (savedRecipes db')
                  <-> In s (savedRecipes db)
                      /\ ~ (SavedRecipe.userId s = sub
                            /\ SavedRecipe.recipeId s = params_id req))
            /\ users db' = users db /\ recipes db' = recipes db
            /\ reviews db' = reviews db
            /\ MoreRoutes.saved_status req db'
               = (db', Return (mkReply 200 (SentIsSaved false))).
Proof.
  split.
  - intros Hu. split; [|split]; now apply more_route_unauthenticated.
  - intros sub Hu saved. split; [now apply saved_status_outcome|].
    eexists. split; [|split; [|split; [|split; [|split]]]].
    + unfold MoreRoutes.unsave_recipe.
      rewrite (more_route_authenticated _ req db sub Hu).
      unfold try_catch, await, Routes.claims_sub. rewrite Hu.
      unfold resolve at 1. unfold Storage.unsaveRecipe.
      rewrite rowCount_exists. fold saved. now destruct saved.
    + intros s. cbn [savedRecipes Storage.with_savedRecipes].
      now rewrite filter_negb_In, saved_pair_false.
    + reflexivity.
    + reflexivity.
    + reflexivity.
    + rewrite (saved_status_outcome _ _ sub Hu).
      cbn [savedRecipes Storage.with_savedRecipes].
      do 4 f_equal. apply not_true_is_false. intros H.
      apply List.existsb_exists in H as (s & [_ Hs]%filter_negb_In & Hs').
      congruence.
Qed.

Lemma saved_routes_act_for_the_caller_witness :
  let kept := SavedRecipe.mk "s2" "bob" "r1" 9 in
  let db :=
    Storage.with_savedRecipes Sample.db
      [SavedRecipe.mk "s1" "alice" "r1" 8; kept] in
  exists db',
    MoreRoutes.unsave_recipe (Sample.as_ "alice" "r1" ∅) db
    = (db',
       Return (mkReply 200
                 (SentJson (JMessage "Recipe unsaved successfully"))))
    /\ In kept (savedRecipes db').
Proof.
  intros kept db.
  destruct (proj2 (saved_routes_act_for_the_caller
                     (Sample.as_ "alice" "r1" ∅) db) "alice" eq_refl)
    as (_ & db' & Hrun & Hrows & _).
  exists db'. split; [exact Hrun|].
  apply Hrows. split; [simpl; auto|]. now intros [[=] _].
Defined.

(** ** The role route *)

Lemma map_if_none {R} (hit : R -> bool) (f : R -> R) (l : list R) :
  List.filter hit l = [] ->
  List.map (fun x => if hit x then f x else x) l = l.
Proof.
  induction l as [|x l IH]; [reflexivity|]. simpl.
  destruct (hit x); [discriminate|]. intros H. now rewrite IH.
Qed.

Lemma valid_role_some v role :
  MoreRoutes.valid_role v = Some role
  <-> v = JsString role
      /\ (role = "user" \/ role = "admin" \/ role = "banned").
Proof.
  unfold MoreRoutes.valid_role. split.
  - destruct v as [| |b|q|s|items|fields]; try discriminate.
    simpl. rewrite !orb_false_r.
    destruct (String.eqb_spec s "user") as [->|_];
      [intros [= <-]; auto|].
    destruct (String.eqb_spec s "admin") as [->|_];
      [intros [= <-]; auto|].
    destruct (String.eqb_spec s "banned") as [->|_];
      [intros [= <-]; auto|].
    discriminate.
  - intros [-> [-> | [-> | ->]]]; reflexivity.
Qed.

Lemma put_user_role_outcome env req db :
  MoreRoutes.put_user_role env req db
  = match user req with
    | None => (db, Return (mkReply 401 (SentJson (JMessage "Unauthorized"))))
    | Some _ =>
        match Storage.truthy (user req) with
        | None =>
            (db, Return (mkReply 401 (SentJson (JMessage "Unauthorized"))))
        | Some sub =>
            if Routes.is_admin
                 (head (List.filter (fun u => String.eqb (User.id u) sub)
                          (users db)))
            then
              match MoreRoutes.valid_role (Zod.get (body req) "role") with
              | None =>
                  (db,
                   Return (mkReply 400 (SentJson (JMessage "Invalid role"))))
              | Some role =>
                  let hit :=
                    fun u => String.eqb (User.id u) (params_id req) in
                  let t := now env (tick db) in
                  (Storage.step
                     (DatabaseStorage.with_users db
                        (List.map
                           (fun u =>
                              if hit u
                              then DatabaseStorage.set_role role t u
                              else u)
                           (users db))),
                   Return
                     match List.filter hit (users db) with
                     | [] =>
                         mkReply 404 (SentJson (JMessage "User not found"))
                     | u :: _ =>
                         mkReply 200
                           (SentUser (DatabaseStorage.set_role role t u))
                     end)
              end
            else
              (db,
               Return (mkReply 403
                         (SentJson (JMessage "Admin access required"))))
        end
    end.
Proof.
  unfold MoreRoutes.put_user_role. cbn [MoreRoutes.route].
  unfold await at 1. unfold Routes.isAuthenticated at 1.
  destruct (user req) as [sub0|] eqn:Hu; [|reflexivity].
  unfold next, resolve at 1. unfold await at 1.
  rewrite isAdmin_outcome, Hu.
  destruct (Storage.truthy (Some sub0)) as [sub|]; [|reflexivity].
  destruct (Routes.is_admin _); [|reflexivity].
  unfold try_catch.
  destruct (MoreRoutes.valid_role _) as [role|]; [|reflexivity].
  unfold await, DatabaseStorage.updateUserRole.
  now destruct (List.filter _ (users db)).
Qed.

(** Every outcome of the role route, by the tests the handler makes. *)
Lemma put_user_role_cases (env : Env) (req : Request) (db : Db) :
  exists db' reply,
    MoreRoutes.put_user_role env req db = (db', Return reply)
    /\ recipes db' = recipes db /\ reviews db' = reviews db
    /\ savedRecipes db' = savedRecipes db
    /\ List.map User.id (users db') = List.map User.id (users db)
    /\ (forall u, In u (users db) -> User.id u <> params_id req ->
                  In u (users db'))
    /\ (reply_status reply <> 200%Z -> users db' = users db)
    /\ (reply_status reply = 200%Z
        <-> exists sub role,
              user req = Some sub /\ sub <> ""
              /\ Routes.is_admin
                   (head (List.filter
                            (fun u => String.eqb (User.id u) sub)
                            (users db))) = true
              /\ Zod.get (body req) "role" = JsString role
              /\ (role = "user" \/ role = "admin" \/ role = "banned")
              /\ Storage.has_id User.id (params_id req) (users db) = true)
    /\ (reply_status reply = 200%Z ->
        exists u role,
          reply_body reply = SentUser u
          /\ Zod.get (body req) "role" = JsString role
          /\ User.id u = params_id req /\ User.role u = Some role
          /\ In u (users db')).
Proof.
  rewrite put_user_role_outcome.
  assert (Hsame : forall reply : Reply,
            reply_status reply <> 200%Z ->
            (forall sub role,
               user req = Some sub -> sub <> "" ->
               Routes.is_admin
                 (head (List.filter (fun u => String.eqb (User.id u) sub)
                          (users db))) = true ->
               Zod.get (body req) "role" = JsString role ->
               role = "user" \/ role = "admin" \/ role = "banned" ->
               Storage.has_id User.id (params_id req) (users db) = true ->
               False) ->
            exists db' reply',
              (db, Return reply) = (db', Return reply')
              /\ recipes db' = recipes db /\ reviews db' = reviews db
              /\ savedRecipes db' = savedRecipes db
              /\ List.map User.id (users db') = List.map User.id (users db)
              /\ (forall u, In u (users db) -> User.id u <> params_id req ->
                            In u (users db'))
              /\ (reply_status reply' <> 200%Z -> users db' = users db)
              /\ (reply_status reply' = 200%Z
                  <-> exists sub role,
                        user req = Some sub /\ sub <> ""
                        /\ Routes.is_admin
                             (head (List.filter
                                      (fun u => String.eqb (User.id u) sub)
                                      (users db))) = true
                        /\ Zod.get (body req) "role" = JsString role
                        /\ (role = "user" \/ role = "admin"
                            \/ role = "banned")
                        /\ Storage.has_id User.id (params_id req) (users db)
                           = true)
              /\ (reply_status reply' = 200%Z ->
                  exists u role,
                    reply_body reply' = SentUser u
                    /\ Zod.get (body req) "role" = JsString role
                    /\ User.id u = params_id req /\ User.role u = Some role
                    /\ In u (users db'))).
  { intros reply Hst Hno. exists db, reply.
    split; [reflexivity|]. do 3 (split; [reflexivity|]).
    split; [reflexivity|]. split; [auto|]. split; [auto|].
    split; [|intros H; contradiction].
    split; [intros H; contradiction|].
    intros (sub & role & H1 & H2 & H3 & H4 & H5 & H6).
    exfalso. eauto. }
  destruct (user req) as [sub0|] eqn:Hu.
  2: { apply Hsame; [cbn; lia|]. intros sub role [=]. }
  destruct (Storage.truthy (Some sub0)) as [sub|] eqn:Htruthy.
  2: { apply Hsame; [cbn; lia|]. intros sub role [= <-] Hne.
       now rewrite (truthy_some sub0 Hne) in Htruthy. }
  assert (sub = sub0 /\ sub0 <> "") as [-> Hne].
  { unfold Storage.truthy in Htruthy.
    destruct (String.eqb_spec sub0 ""); [discriminate|].
    injection Htruthy as <-. now split. }
  destruct (Routes.is_admin _) eqn:Hadmin.
  2: { apply Hsame; [cbn; lia|]. intros sub role [= <-] _. congruence. }
  destruct (MoreRoutes.valid_role _) as [role|] eqn:Hrole.
  2: { apply Hsame; [cbn; lia|]. intros sub role _ _ _ Hget Hin _.
       assert (MoreRoutes.valid_role (Zod.get (body req) "role") = Some role)
         by now apply valid_role_some.
       congruence. }
  apply valid_role_some in Hrole as [Hget Hin].
  cbv zeta. eexists _, _. split; [reflexivity|].
  cbn [users recipes reviews savedRecipes Storage.step
       DatabaseStorage.with_users].
  do 3 (split; [reflexivity|]).
  split.
  { rewrite List.map_map. apply List.map_ext. intros u.
    now destruct (String.eqb (User.id u) (params_id req)). }
  split.
  { intros u Hu' Hne'. apply map_if_In; [exact Hu'|].
    now apply String.eqb_neq. }
  rewrite <- (rowCount_has_id User.id (params_id req) (users db)).
  clear Hsame.
  destruct (List.filter (fun u => String.eqb (User.id u) (params_id req))
              (users db)) as [|u rest] eqn:Hhit.
  - split; [intros _; now apply map_if_none|].
    split; [|intros [=]].
    split; [intros [=]|].
    intros (? & ? & _ & _ & _ & _ & _ & H). discriminate.
  - split; [intros H; now contradiction H|].
    split.
    + split; [intros _|reflexivity].
      exists sub0, role. now repeat split.
    + intros _. exists (DatabaseStorage.set_role role (now env (tick db)) u),
        role.
      assert (Hu' : In u (List.filter
                            (fun u => String.eqb (User.id u) (params_id req))
                            (users db)))
        by (rewrite Hhit; now left).
      apply List.filter_In in Hu' as [Hu1 Hu2].
      split; [reflexivity|]. split; [exact Hget|].
      split; [now apply String.eqb_eq|]. split; [reflexivity|].
      apply List.in_map_iff. exists u. split; [|exact Hu1].
      now rewrite Hu2.
Qed.

Lemma is_admin_stored (sub : string) (db : Db) :
  unique_ids User.id (users db) ->
  Routes.is_admin
    (head (List.filter (fun u => String.eqb (User.id u) sub) (users db)))
  = true
  <-> exists admin,
        In admin (users db) /\ User.id admin = sub
        /\ User.role admin = Some "admin".
Proof.
  intros Hunique. split.
  - destruct (List.filter _ (users db)) as [|u rest] eqn:E; [discriminate|].
    assert (Hu : In u (List.filter (fun u => String.eqb (User.id u) sub)
                         (users db))) by (rewrite E; now left).
    apply List.filter_In in Hu as [Hin Hid]. apply String.eqb_eq in Hid.
    simpl. unfold Drizzle.eq_text.
    destruct (User.role u) as [role|] eqn:Hrole; [|discriminate].
    intros ->%String.eqb_eq. now exists u.
  - intros (admin & Hin & Hid & Hrole). now apply (stored_admin sub db admin).
Qed.

Lemma get_string (o : JsObj) (key s : string) :
  Zod.get o key = JsString s <-> o !! key = Some (JsString s).
Proof.
  unfold Zod.get. destruct (o !! key) as [v|]; split;
    congruence || discriminate.
Qed.

(** X21.  The role route changes a role for an admin and for nobody else.
    It always answers, never touches a recipe, a review or a saved-recipe
    row, never adds, removes or renames a user and never changes a user
    other than the one of the path.  It answers 200 exactly when the
    caller's identity is that of a stored user whose role is "admin", the
    body's role is the string "user", "admin" or "banned", and the path
    names a stored user; the body of the answer is then that user with the
    new role.  On every other answer the users are as they were. *)
Theorem role_route_serves_admins_only (env : Env) (req : Request) (db : Db) :
  unique_ids User.id (users db) ->
  exists db' reply,
    MoreRoutes.put_user_role env req db = (db', Return reply)
    /\ recipes db' = recipes db /\ reviews db' = reviews db
    /\ savedRecipes db' = savedRecipes db
    /\ List.map User.id (users db') = List.map User.id (users db)
    /\ (forall u, In u (users db) -> User.id u <> params_id req ->
                  In u (users db'))
    /\ (reply_status reply <> 200%Z -> users db' = users db)
    /\ (reply_status reply = 200%Z
        <-> exists sub admin role target,
              user req = Some sub /\ sub <> ""
              /\ In admin (users db) /\ User.id admin = sub
              /\ User.role admin = Some "admin"
              /\ body req !! "role" = Some (JsString role)
              /\ (role = "user" \/ role = "admin" \/ role = "banned")
              /\ In target (users db) /\ User.id target = params_id req)
    /\ (reply_status reply = 200%Z ->
        exists u role,
          reply_body reply = SentUser u
          /\ body req !! "role" = Some (JsString role)
          /\ User.id u = params_id req /\ User.role u = Some role
          /\ In u (users db')).
Proof.
  intros Hunique.
  destruct (put_user_role_cases env req db)
    as (db' & reply & Hrun & H1 & H2 & H3 & H4 & H5 & H6 & H7 & H8).
  exists db', reply. do 7 (split; [assumption|]). split.
  - rewrite H7. split.
    + intros (sub & role & Hu & Hsub & Hadmin & Hrole & Hvalid & Htarget).
      apply (is_admin_stored sub db Hunique) in Hadmin
        as (admin & Ha1 & Ha2 & Ha3).
      apply has_id_exists in Htarget as (target & Ht1 & Ht2).
      apply get_string in Hrole.
      exists sub, admin, role, target. now repeat split.
    + intros (sub & admin & role & target & Hu & Hsub & Ha1 & Ha2 & Ha3
              & Hrole & Hvalid & Ht1 & Ht2).
      exists sub, role. split; [exact Hu|]. split; [exact Hsub|].
      split; [apply (is_admin_stored sub db Hunique); now exists admin|].
      split; [now apply get_string|]. split; [exact Hvalid|].
      apply has_id_In, List.in_map_iff. now exists target.
  - intros Hok. destruct (H8 Hok) as (u & role & Hb & Hrole & Hrest).
    exists u, role. split; [exact Hb|]. split; [now apply get_string|].
    exact Hrest.
Qed.

(** On the sample users: "bob", whose role is "user", asks to be made an
    admin and nothing changes; "root", whose role is "admin", bans
    "bob". *)
Lemma role_route_serves_admins_only_witness :
  (exists db' reply,
     MoreRoutes.put_user_role Sample.env
       (Sample.as_ "bob" "bob" {["role" := JsString "admin"]}) Sample.db
     = (db', Return reply)
     /\ reply_status reply <> 200%Z
     /\ users db' = users Sample.db)
  /\ exists db' reply banned,
       MoreRoutes.put_user_role Sample.env
         (Sample.as_ "root" "bob" {["role" := JsString "banned"]}) Sample.db
       = (db', Return reply)
       /\ reply_status reply = 200%Z
       /\ reply_body reply = SentUser banned
       /\ User.id banned = "bob" /\ User.role banned = Some "banned".
Proof.
  split.
  - destruct (role_route_serves_admins_only Sample.env
                (Sample.as_ "bob" "bob" {["role" := JsString "admin"]})
                Sample.db ltac:(unique_ids_by_computation))
      as (db' & reply & Hrun & _ & _ & _ & _ & _ & Hsame & Hok & _).
    assert (Hno : reply_status reply <> 200%Z).
    { intros H. apply Hok in H
        as (sub & admin & role & target & [= <-] & _ & Hin & Hid & Hrole & _).
      destruct Hin as [<-|[<-|[<-|[]]]]; discriminate. }
    exists db', reply. split; [exact Hrun|]. split; [exact Hno|].
    now apply Hsame.
  - destruct (role_route_serves_admins_only Sample.env
                (Sample.as_ "root" "bob" {["role" := JsString "banned"]})
                Sample.db ltac:(unique_ids_by_computation))
      as (db' & reply & Hrun & _ & _ & _ & _ & _ & _ & Hok & Hsent).
    assert (Hyes : reply_status reply = 200%Z).
    { apply Hok. exists "root", Sample.root, "banned", Sample.bob.
      repeat split; try reflexivity; try discriminate; simpl; auto. }
    destruct (Hsent Hyes) as (u & role & Hbody & Hrole & Hid & Hu & _).
    exists db', reply, u. split; [exact Hrun|]. split; [exact Hyes|].
    split; [exact Hbody|]. split; [exact Hid|].
    rewrite Hu. f_equal.
    vm_compute in Hrole. now injection Hrole as <-.
Defined.

(** ** Contact messages *)

Lemma getContactMessages_rows isRead d :
  SiteStorage.getContactMessages isRead d
  = (d,
     Return
       (Drizzle.sort_desc ContactMessage.createdAt
          match isRead with
          | Some isRead =>
              List.filter
                (fun m => Drizzle.eq_bool (ContactMessage.isRead m) isRead)
                (contactMessages d)
          | None => contactMessages d
          end)).
Proof.
  unfold SiteStorage.getContactMessages.
  rewrite execute_unbounded by now destruct isRead.
  now destruct isRead.
Qed.

Lemma unread_iff (m : ContactMessage.t) :
  Drizzle.eq_bool (ContactMessage.isRead m) false = true
  <-> ContactMessage.isRead m = Some false.
Proof.
  unfold Drizzle.eq_bool.
  destruct (ContactMessage.isRead m) as [[]|]; simpl; split;
    congruence.
Qed.

Lemma string_parsed key (o : JsObj) s :
  o !! key = Some (JsString s) -> Zod.string_ key (Zod.get o key) = inl s.
Proof. intros H. unfold Zod.get. now rewrite H. Qed.

Lemma string_cases key v :
  (exists s, v = JsString s /\ Zod.string_ key v = inl s)
  \/ ((forall s, v <> JsString s)
      /\ Zod.string_ key v = inr [Zod.invalid_type key]).
Proof.
  destruct v; try (right; split; [discriminate | reflexivity]).
  left. now eexists.
Qed.

(** X22.  A contact form with a name, an e-mail address and a message, all
    strings, is answered 200 and stored as one new unread message holding
    these three, which the list of unread messages then shows; nothing
    else changes.  If one of the three is missing or is not a string the
    answer is 400 with issues and nothing is stored. *)
Theorem contact_message_reaches_inbox (env : Env) (req : Request)
    (d : Database) :
  (forall name email message,
     body req !! "name" = Some (JsString name) ->
     body req !! "email" = Some (JsString email) ->
     body req !! "message" = Some (JsString message) ->
     Storage.has_id ContactMessage.id (gen_random_uuid env (tick (base d)))
       (contactMessages d) = false ->
     let m :=
       ContactMessage.mk (gen_random_uuid env (tick (base d))) name email
         message (Some false) (now env (tick (base d))) in
     exists d' unread,
       SiteStorage.post_contact env req d
       = (d', mkResponse 200 (JMessage "Message sent successfully"))
       /\ contactMessages d' = (contactMessages d ++ [m])%list
       /\ SiteStorage.getContactMessages (Some false) d' = (d', Return unread)
       /\ In m unread
       /\ siteSettings d' = siteSettings d
       /\ same_rows (base d) (base d'))
  /\ ((forall s, Zod.get (body req) "name" <> JsString s)
      \/ (forall s, Zod.get (body req) "email" <> JsString s)
      \/ (forall s, Zod.get (body req) "message" <> JsString s) ->
      exists issue errors,
        SiteStorage.post_contact env req d
        = (d,
           mkResponse 400 (JInvalid "Invalid message data" (issue :: errors)))).
Proof.
  split.
  - intros name email message Hname Hemail Hmessage Hfresh m.
    eexists _, _. split; [|split; [|split; [|split; [|split]]]].
    + unfold SiteStorage.post_contact,
        SiteStorage.insertContactMessageSchema_parse.
      rewrite (string_parsed "name" _ _ Hname),
        (string_parsed "email" _ _ Hemail),
        (string_parsed "message" _ _ Hmessage).
      unfold SiteStorage.createContactMessage.
      cbn [InsertContactMessage.name InsertContactMessage.email
           InsertContactMessage.message].
      rewrite Hfresh. reflexivity.
    + reflexivity.
    + apply getContactMessages_rows.
    + apply (Permutation_in _ (Permutation_sym (sort_desc_perm _ _))).
      apply List.filter_In. split; [|reflexivity].
      cbn [contactMessages SiteStorage.stepped].
      apply List.in_or_app. right. now left.
    + reflexivity.
    + now repeat split.
  - intros H. unfold SiteStorage.post_contact,
      SiteStorage.insertContactMessageSchema_parse.
    destruct (string_cases "name" (Zod.get (body req) "name"))
      as [(s1 & E1 & ->)|[N1 ->]];
      destruct (string_cases "email" (Zod.get (body req) "email"))
        as [(s2 & E2 & ->)|[N2 ->]];
      destruct (string_cases "message" (Zod.get (body req) "message"))
        as [(s3 & E3 & ->)|[N3 ->]];
      try (cbn; now eexists _, _).
    exfalso. destruct H as [H|[H|H]]; eapply H; eassumption.
Qed.

Lemma contact_message_reaches_inbox_witness :
  let form : JsObj :=
    <["name" := JsString "Ann"]>
      (<["email" := JsString "ann@example.org"]>
         {["message" := JsString "Hello"]}) in
  let d := mkDatabase Sample.db [] [] in
  exists d',
    SiteStorage.post_contact Sample.env (mkRequest None "" form) d
    = (d', mkResponse 200 (JMessage "Message sent successfully"))
    /\ contactMessages d'
       = [ContactMessage.mk "#" "Ann" "ann@example.org" "Hello" (Some false)
            0].
Proof.
  intros form d.
  destruct (proj1 (contact_message_reaches_inbox Sample.env
                     (mkRequest None "" form) d)
              "Ann" "ann@example.org" "Hello"
              eq_refl eq_refl eq_refl eq_refl)
    as (d' & unread & Hrun & Hrows & _).
  exists d'. split; [exact Hrun | exact Hrows].
Defined.

(** X23.  [markMessageAsRead] reports whether a message has the id.  Afterwards
    the unread messages are those that were unread and have another id,
    the message of that id is read, every message of another id is
    as it was, and no message is added or lost; the settings and the other
    tables are untouched. *)
Theorem markMessageAsRead_marks (id : string) (d : Database) :
  exists d' unread,
    SiteStorage.markMessageAsRead id d
    = (d', Return (Storage.has_id ContactMessage.id id (contactMessages d)))
    /\ SiteStorage.getContactMessages (Some false) d' = (d', Return unread)
    /\ (forall m,
          In m unread
          <-> In m (contactMessages d)
              /\ ContactMessage.isRead m = Some false
              /\ ContactMessage.id m <> id)
    /\ (forall m, In m (contactMessages d') -> ContactMessage.id m = id ->
                  ContactMessage.isRead m = Some true)
    /\ (forall m, In m (contactMessages d) -> ContactMessage.id m <> id ->
                  In m (contactMessages d'))
    /\ List.map ContactMessage.id (contactMessages d')
       = List.map ContactMessage.id (contactMessages d)
    /\ siteSettings d' = siteSettings d
    /\ same_rows (base d) (base d').
Proof.
  eexists _, _. split; [|split; [apply getContactMessages_rows|]].
  - unfold SiteStorage.markMessageAsRead.
    now rewrite (rowCount_has_id ContactMessage.id).
  - cbn [contactMessages siteSettings base SiteStorage.stepped].
    split; [|split; [|split; [|split; [|split]]]].
    + intros m. split.
      * intros H.
        apply (Permutation_in _ (sort_desc_perm _ _)) in H.
        apply List.filter_In in H as [H Hm]. apply unread_iff in Hm.
        apply List.in_map_iff in H as (x & Hx & Hin).
        destruct (String.eqb_spec (ContactMessage.id x) id) as [E|E].
        -- subst m. discriminate.
        -- subst m. now repeat split.
      * intros (Hin & Hm & Hne).
        apply (Permutation_in _ (Permutation_sym (sort_desc_perm _ _))).
        apply List.filter_In. split; [|now apply unread_iff].
        apply map_if_In; [exact Hin|]. now apply String.eqb_neq.
    + intros m H Hid. apply List.in_map_iff in H as (x & Hx & _).
      destruct (String.eqb_spec (ContactMessage.id x) id) as [E|E].
      * now subst m.
      * subst m. contradiction.
    + intros m Hin Hne. apply map_if_In; [exact Hin|].
      now apply String.eqb_neq.
    + rewrite List.map_map. apply List.map_ext. intros m.
      now destruct (String.eqb (ContactMessage.id m) id).
    + reflexivity.
    + now repeat split.
Qed.

(** ** Site settings *)

Lemma settings_rows (d : Database) :
  Drizzle.execute
    (Drizzle.where_ (Drizzle.select_from (siteSettings d))
       (fun s => String.eqb (SiteSettings.id s) "settings"))
  = Return (List.filter (fun s => String.eqb (SiteSettings.id s) "settings")
              (siteSettings d)).
Proof. now rewrite execute_unbounded. Qed.

(** X24.  [getSiteSettings] always returns a stored row whose id is "settings".
    If the table has one it is returned and nothing is written; if not,
    the row of defaults is stored first.  Either way every row that was
    there stays, and asking again returns the same row and writes
    nothing. *)
Theorem getSiteSettings_gets_or_creates (env : Env) (d : Database) :
  exists d' settings,
    SiteStorage.getSiteSettings env d = (d', Return settings)
    /\ SiteSettings.id settings = "settings"
    /\ In settings (siteSettings d')
    /\ (Storage.has_id SiteSettings.id "settings" (siteSettings d) = true ->
        d' = d)
    /\ (Storage.has_id SiteSettings.id "settings" (siteSettings d) = false ->
        settings = SiteStorage.default_settings (now env (tick (base d)))
        /\ siteSettings d' = (siteSettings d ++ [settings])%list)
    /\ contactMessages d' = contactMessages d
    /\ same_rows (base d) (base d')
    /\ SiteStorage.getSiteSettings env d' = (d', Return settings).
Proof.
  unfold SiteStorage.getSiteSettings at 1. rewrite settings_rows.
  rewrite <- (rowCount_has_id SiteSettings.id).
  destruct (List.filter _ (siteSettings d)) as [|s rest] eqn:Hrows.
  - eexists _, _. split; [reflexivity|].
    cbn [siteSettings contactMessages base SiteStorage.stepped].
    split; [reflexivity|].
    split; [apply List.in_or_app; right; now left|].
    split; [intros [=]|]. split; [now intros _|].
    split; [reflexivity|]. split; [now repeat split|].
    unfold SiteStorage.getSiteSettings. rewrite settings_rows.
    cbn [siteSettings SiteStorage.stepped].
    rewrite List.filter_app, Hrows. reflexivity.
  - assert (Hs : In s (List.filter
                         (fun s => String.eqb (SiteSettings.id s) "settings")
                         (siteSettings d)))
      by (rewrite Hrows; now left).
    apply List.filter_In in Hs as [Hin Hid]. apply String.eqb_eq in Hid.
    exists d, s. split; [reflexivity|].
    split; [exact Hid|]. split; [exact Hin|].
    split; [reflexivity|]. split; [intros [=]|].
    split; [reflexivity|]. split; [now repeat split|].
    unfold SiteStorage.getSiteSettings. now rewrite settings_rows, Hrows.
Qed.
